(** * The grid widget of the Standards engine (src/grid.c)

    A shallow embedding of [grid.c]: the grid structure, its drawing passes,
    the hover and click resolvers, the texture, sprite-sheet and animation
    registration calls, and the teardown; and of [input.c], the poll of
    the events of the keyboard and of the mouse.  The calls of the engine that
    [grid.c] consumes (drawing primitives, texture loading, pointer test,
    vector, animation playback) are recorded in a trace or taken as the
    collaborators of a section.  The log messages are left out. *)

From Stdlib Require Import ZArith Lia Bool List Permutation.
From Stdlib Require Import Floats.SpecFloat.
From stdpp Require Import base list gmap strings.

Local Open Scope Z_scope.

(** ** Machine integers

    [int32_t] and [uint32_t] values are integers of [Z]; every operation
    writes its wrap-around out. *)

Definition INT_MIN : Z := - 2 ^ 31.
Definition INT_MAX : Z := 2 ^ 31 - 1.
Definition UINT_MAX : Z := 2 ^ 32 - 1.

(** Conversion to [uint32_t]: reduction modulo 2^32. *)
Definition to_u32 (z : Z) : Z := z mod 2 ^ 32.

(** Conversion to [int32_t]: the two's complement representative. *)
Definition to_i32 (z : Z) : Z := (z + 2 ^ 31) mod 2 ^ 32 - 2 ^ 31.

(** [a + b] and [a - b] on [int]. *)
Definition i32_add (a b : Z) : Z := to_i32 (a + b).
Definition i32_sub (a b : Z) : Z := to_i32 (a - b).

(** [a * b] where one operand is [uint32_t]: the usual arithmetic
    conversions make both unsigned, the product is taken modulo 2^32. *)
Definition u32_mul (a b : Z) : Z := to_u32 (to_u32 a * to_u32 b).

(** [a / b] where one operand is [uint32_t] ([b] is not zero). *)
Definition u32_div (a b : Z) : Z := to_u32 a / to_u32 b.

(** ** Single precision floats

    The C type [float] is IEEE 754 binary32: 24 bits of precision, exponents
    below 128, round to nearest even. *)

Module F32.

Definition prec : Z := 24.
Definition emax : Z := 128.

Definition float : Type := spec_float.

(** [x + y] on [float]. *)
Definition add (x y : float) : float := SFadd prec emax x y.

(** [(float) z] for an integer [z]. *)
Definition of_int (z : Z) : float := binary_normalize prec emax z 0 false.

(** [x < y] on [float]. *)
Definition ltb (x y : float) : bool := SFltb x y.

(** [(int) x]: truncation toward zero.  A value that does not fit [int]
    (or is not a number) has no defined conversion in C; the conversion
    instruction of the usual targets answers [INT_MIN], and so do we. *)
Definition to_int (x : float) : Z :=
  match x with
  | S754_zero _ => 0
  | S754_finite s m e =>
      let v := cond_Zopp s (Z.shiftl (Z.pos m) e) in
      if (INT_MIN <=? v) && (v <=? INT_MAX) then v else INT_MIN
  | _ => INT_MIN
  end.

End F32.

Abbreviation float := F32.float.

(** ** Structures *)

Record SDL_Color := { col_r : Z; col_g : Z; col_b : Z; col_a : Z }.

Record SDL_Rect := { rect_x : Z; rect_y : Z; rect_w : Z; rect_h : Z }.

Record SDL_FRect := { frect_x : float; frect_y : float; frect_w : float; frect_h : float }.

Inductive SDL_RendererFlip := SDL_FLIP_NONE | SDL_FLIP_HORIZONTAL | SDL_FLIP_VERTICAL.

(** A texture is known by its handle; [NULL] is the handle 0. *)
Definition SDL_Texture : Type := Z.

(** Pointers to animations are addresses; [NULL] is the address 0. *)
Definition NULL : Z := 0.

(** The fields of [animation_t] that the grid writes ([flip] and [angle] are
    [anim_flip] and [anim_angle] here), and the playback position that
    [Stds_AnimationUpdate] advances. *)
Record animation_t := {
  pos_x : float;
  pos_y : float;
  dest_width : Z;
  dest_height : Z;
  anim_flip : SDL_RendererFlip;
  anim_angle : Z;
  camera : bool;
  playback : Z
}.

(** [struct grid_t].  The types of the fields are those of the arguments of
    [Stds_CreateGrid] and of the registration calls that assign them.
    [textures] is [None] for the [NULL] pointer; a slot of the array is
    [None] until a texture is stored in it.  [animation] is the vector of
    the animation pointers, [None] for [NULL]. *)
Record grid_t := {
  x : float;
  y : float;
  sx : float;
  sy : float;
  sw : Z;
  sh : Z;
  cols : Z;
  rows : Z;
  lineColor : SDL_Color;
  fillColor : SDL_Color;
  textures : option (list (option SDL_Texture));
  textureBuffer : Z;
  spriteSheet : SDL_Texture;
  clip : SDL_Rect;
  spriteSheetCols : Z;
  spriteSheetRows : Z;
  animation : option (list Z);
  animationBuffer : Z;
  isCameraOn : bool
}.

(** [struct grid_pair_t]: the cell found by the hover and click resolvers
    and the top-left corner of its rectangle. *)
Record grid_pair_t := { p_c : Z; p_r : Z; p_x : float; p_y : float }.

(** Field assignments. *)

Definition set_xy (g : grid_t) (vx vy : float) : grid_t :=
  {| x := vx; y := vy; sx := sx g; sy := sy g; sw := sw g; sh := sh g;
     cols := cols g; rows := rows g; lineColor := lineColor g;
     fillColor := fillColor g; textures := textures g;
     textureBuffer := textureBuffer g; spriteSheet := spriteSheet g;
     clip := clip g; spriteSheetCols := spriteSheetCols g;
     spriteSheetRows := spriteSheetRows g; animation := animation g;
     animationBuffer := animationBuffer g; isCameraOn := isCameraOn g |}.

Definition set_x (g : grid_t) (v : float) : grid_t := set_xy g v (y g).
Definition set_y (g : grid_t) (v : float) : grid_t := set_xy g (x g) v.

Definition set_textures (g : grid_t) (ts : option (list (option SDL_Texture)))
    (n : Z) : grid_t :=
  {| x := x g; y := y g; sx := sx g; sy := sy g; sw := sw g; sh := sh g;
     cols := cols g; rows := rows g; lineColor := lineColor g;
     fillColor := fillColor g; textures := ts;
     textureBuffer := n; spriteSheet := spriteSheet g;
     clip := clip g; spriteSheetCols := spriteSheetCols g;
     spriteSheetRows := spriteSheetRows g; animation := animation g;
     animationBuffer := animationBuffer g; isCameraOn := isCameraOn g |}.

Definition set_sheet (g : grid_t) (t : SDL_Texture) (cl : SDL_Rect)
    (sc sr : Z) : grid_t :=
  {| x := x g; y := y g; sx := sx g; sy := sy g; sw := sw g; sh := sh g;
     cols := cols g; rows := rows g; lineColor := lineColor g;
     fillColor := fillColor g; textures := textures g;
     textureBuffer := textureBuffer g; spriteSheet := t;
     clip := cl; spriteSheetCols := sc;
     spriteSheetRows := sr; animation := animation g;
     animationBuffer := animationBuffer g; isCameraOn := isCameraOn g |}.

Definition set_spriteSheet (g : grid_t) (t : SDL_Texture) : grid_t :=
  set_sheet g t (clip g) (spriteSheetCols g) (spriteSheetRows g).

Definition set_clip (g : grid_t) (cl : SDL_Rect) : grid_t :=
  set_sheet g (spriteSheet g) cl (spriteSheetCols g) (spriteSheetRows g).

Definition set_sheet_counts (g : grid_t) (sc sr : Z) : grid_t :=
  set_sheet g (spriteSheet g) (clip g) sc sr.

Definition set_animation (g : grid_t) (v : option (list Z)) (n : Z) : grid_t :=
  {| x := x g; y := y g; sx := sx g; sy := sy g; sw := sw g; sh := sh g;
     cols := cols g; rows := rows g; lineColor := lineColor g;
     fillColor := fillColor g; textures := textures g;
     textureBuffer := textureBuffer g; spriteSheet := spriteSheet g;
     clip := clip g; spriteSheetCols := spriteSheetCols g;
     spriteSheetRows := spriteSheetRows g; animation := v;
     animationBuffer := n; isCameraOn := isCameraOn g |}.

Definition set_rect_x (r : SDL_Rect) (v : Z) : SDL_Rect :=
  {| rect_x := v; rect_y := rect_y r; rect_w := rect_w r; rect_h := rect_h r |}.
Definition set_rect_y (r : SDL_Rect) (v : Z) : SDL_Rect :=
  {| rect_x := rect_x r; rect_y := v; rect_w := rect_w r; rect_h := rect_h r |}.
Definition set_rect_w (r : SDL_Rect) (v : Z) : SDL_Rect :=
  {| rect_x := rect_x r; rect_y := rect_y r; rect_w := v; rect_h := rect_h r |}.
Definition set_rect_h (r : SDL_Rect) (v : Z) : SDL_Rect :=
  {| rect_x := rect_x r; rect_y := rect_y r; rect_w := rect_w r; rect_h := v |}.

Definition set_frect_x (r : SDL_FRect) (v : float) : SDL_FRect :=
  {| frect_x := v; frect_y := frect_y r; frect_w := frect_w r; frect_h := frect_h r |}.
Definition set_frect_y (r : SDL_FRect) (v : float) : SDL_FRect :=
  {| frect_x := frect_x r; frect_y := v; frect_w := frect_w r; frect_h := frect_h r |}.

(** ** The engine around the grid *)

(** The calls into the drawing, texture and animation layers, in the order
    they are made. *)
Inductive call :=
| Stds_DrawLine (x1 y1 x2 y2 : float) (c : SDL_Color)
| Stds_DrawRectF (r : SDL_FRect) (c : SDL_Color) (is_filled : bool) (thickness : Z)
| Stds_BlitTexture (t : option SDL_Texture) (clip : option SDL_Rect)
    (x y w h : float) (angle : Z) (flip : SDL_RendererFlip)
    (camera_rect : option SDL_FRect) (is_camera_on : bool)
| SDL_DestroyTexture (t : option SDL_Texture)
| Stds_VectorDestroy (v : option (list Z))
| Stds_AnimationDraw (a : animation_t).

(** [app.mouse]: the pointer position and the pressed flag of each button. *)
Record mouse_t := { mouse_x : Z; mouse_y : Z; button : list Z }.

(** What a grid call can read or change outside of the grid: the pointer
    state, the latch [onceCall] (the [static] of
    [Stds_InitializeGridTextures]), the calls made so far, and the animation
    objects by address. *)
Record world := {
  mouse : mouse_t;
  onceCall : bool;
  trace : list call;
  anims : gmap Z animation_t
}.

Definition set_mouse (w : world) (m : mouse_t) : world :=
  {| mouse := m; onceCall := onceCall w; trace := trace w; anims := anims w |}.
Definition set_onceCall (w : world) (b : bool) : world :=
  {| mouse := mouse w; onceCall := b; trace := trace w; anims := anims w |}.
Definition set_trace (w : world) (t : list call) : world :=
  {| mouse := mouse w; onceCall := onceCall w; trace := t; anims := anims w |}.
Definition set_anims (w : world) (h : gmap Z animation_t) : world :=
  {| mouse := mouse w; onceCall := onceCall w; trace := trace w; anims := h |}.

(** ** Computations

    A call runs in a world and ends with a value and the next world, or
    faults: it dereferenced [NULL] or a dangling pointer, indexed an array
    out of its bounds, or divided by zero. *)

Inductive outcome (A : Type) : Type :=
| Ok (a : A) (w : world)
| Fault.
Arguments Ok {A} a w.
Arguments Fault {A}.

Definition M (A : Type) : Type := world -> outcome A.

Definition ret {A} (a : A) : M A := fun w => Ok a w.

Definition bind {A B} (m : M A) (k : A -> M B) : M B :=
  fun w => match m w with Ok a w' => k a w' | Fault => Fault end.

Definition fault {A} : M A := fun _ => Fault.

Definition get_world : M world := fun w => Ok w w.
Definition put_world (w : world) : M unit := fun _ => Ok tt w.

Declare Scope grid_scope.
Delimit Scope grid_scope with grid.
Notation "v <- m ;; k" := (bind m (fun v => k))
  (at level 100, m at next level, right associativity) : grid_scope.
Notation "m ;; k" := (bind m (fun _ => k))
  (at level 100, right associativity) : grid_scope.
Local Open Scope grid_scope.

(** A call into the engine is appended to the trace. *)
Definition emit (c : call) : M unit :=
  fun w => Ok tt (set_trace w (trace w ++ [c])).

(** [*p] for a pointer to a grid. *)
Definition deref (grid : option grid_t) : M grid_t :=
  match grid with Some g => ret g | None => fault end.

(** [a[i]] and [a[i] = v] on an array that may be [NULL]. *)
Definition array_get {A} (a : option (list A)) (i : Z) : M A :=
  match a with
  | Some l =>
      if 0 <=? i then match l !! Z.to_nat i with Some v => ret v | None => fault end
      else fault
  | None => fault
  end.

Definition array_set {A} (a : option (list A)) (i : Z) (v : A) : M (option (list A)) :=
  match a with
  | Some l =>
      if (0 <=? i) && (i <? Z.of_nat (length l)) then ret (Some (<[Z.to_nat i := v]> l))
      else fault
  | None => fault
  end.

(** The allocation of an array of [n] texture pointers: [n] fresh slots.
    A negative [int32_t] count converts to a size that no allocation can
    serve, and [malloc] answers [NULL]. *)
Definition malloc_textures (n : Z) : option (list (option SDL_Texture)) :=
  if 0 <=? n then Some (replicate (Z.to_nat n) None) else None.

(** ** The functions of grid.c *)

Definition set_pair_row (p : grid_pair_t) (r : Z) (vy : float) : grid_pair_t :=
  {| p_c := p_c p; p_r := r; p_x := p_x p; p_y := vy |}.
Definition set_pair_col (p : grid_pair_t) (c : Z) (vx : float) : grid_pair_t :=
  {| p_c := c; p_r := p_r p; p_x := vx; p_y := p_y p |}.
Definition set_pair_cr (p : grid_pair_t) (c r : Z) : grid_pair_t :=
  {| p_c := c; p_r := r; p_x := p_x p; p_y := p_y p |}.

(** [Stds_AssertGrid]: the grid is not [NULL]. *)
Definition Stds_AssertGrid (grid : option grid_t) : bool :=
  negb (match grid with None => true | Some _ => false end).

(** [Stds_CreateGrid], where [malloc] and [Stds_VectorCreate] succeed: the
    object that the returned pointer designates. *)
Definition Stds_CreateGrid (x0 y0 : float) (squareWidth squareHeight : Z)
    (cols0 rows0 : Z) (lineColor0 fillColor0 : SDL_Color) : grid_t :=
  {| x := x0; y := y0; sx := x0; sy := y0;
     sw := squareWidth; sh := squareHeight;
     cols := cols0; rows := rows0;
     lineColor := lineColor0; fillColor := fillColor0;
     textures := None; textureBuffer := 0;
     spriteSheet := NULL;
     clip := {| rect_x := 0; rect_y := 0; rect_w := 0; rect_h := 0 |};
     spriteSheetCols := 0; spriteSheetRows := 0;
     animation := Some []; animationBuffer := -1;
     isCameraOn := false |}.

(** *** Stds_DrawLineGrid *)

(** The first loop: one horizontal line per row, the cursor goes down. *)
Fixpoint DrawLineGrid_rows (n : nat) (g : grid_t) : M grid_t :=
  match n with
  | O => ret g
  | S n' =>
      emit (Stds_DrawLine (x g) (y g)
              (F32.add (x g) (F32.of_int (u32_mul (sw g) (cols g)))) (y g)
              (lineColor g)) ;;
      DrawLineGrid_rows n' (set_y g (F32.add (y g) (F32.of_int (sh g))))
  end.

(** The second loop: one vertical line per column, the cursor goes right. *)
Fixpoint DrawLineGrid_cols (n : nat) (g : grid_t) : M grid_t :=
  match n with
  | O => ret g
  | S n' =>
      emit (Stds_DrawLine (x g) (y g)
              (x g) (F32.add (y g) (F32.of_int (u32_mul (sh g) (rows g))))
              (lineColor g)) ;;
      DrawLineGrid_cols n' (set_x g (F32.add (x g) (F32.of_int (sw g))))
  end.

Definition Stds_DrawLineGrid (grid : option grid_t) : M (option grid_t) :=
  if Stds_AssertGrid grid then
    g <- deref grid ;;
    let g := set_x g (sx g) in
    let g := set_y g (sy g) in
    g <- DrawLineGrid_rows (Z.to_nat (rows g)) g ;;
    let g := set_y g (sy g) in
    g <- DrawLineGrid_cols (Z.to_nat (cols g)) g ;;
    let g := set_x g (sx g) in
    emit (Stds_DrawLine
            (x g) (F32.add (y g) (F32.of_int (u32_mul (sh g) (rows g))))
            (F32.add (x g) (F32.of_int (u32_mul (sw g) (cols g))))
            (F32.add (y g) (F32.of_int (u32_mul (sh g) (rows g))))
            (lineColor g)) ;;
    emit (Stds_DrawLine
            (F32.add (x g) (F32.of_int (u32_mul (sw g) (cols g)))) (y g)
            (F32.add (x g) (F32.of_int (u32_mul (sw g) (cols g))))
            (F32.add (y g) (F32.of_int (u32_mul (sh g) (rows g))))
            (lineColor g)) ;;
    ret (Some g)
  else ret grid.

(** *** Stds_FillWholeGrid *)

Fixpoint FillWholeGrid_cols (n : nat) (g : grid_t) (fillRect : SDL_FRect)
    : M SDL_FRect :=
  match n with
  | O => ret fillRect
  | S n' =>
      emit (Stds_DrawRectF fillRect (fillColor g) true 0) ;;
      FillWholeGrid_cols n' g
        (set_frect_x fillRect (F32.add (frect_x fillRect) (F32.of_int (sw g))))
  end.

Fixpoint FillWholeGrid_rows (n : nat) (g : grid_t) (fillRect : SDL_FRect)
    : M SDL_FRect :=
  match n with
  | O => ret fillRect
  | S n' =>
      fillRect <- FillWholeGrid_cols (Z.to_nat (cols g)) g fillRect ;;
      let fillRect :=
        set_frect_y fillRect (F32.add (frect_y fillRect) (F32.of_int (sh g))) in
      let fillRect := set_frect_x fillRect (sx g) in
      FillWholeGrid_rows n' g fillRect
  end.

Definition Stds_FillWholeGrid (grid : option grid_t) : M (option grid_t) :=
  if Stds_AssertGrid grid then
    g <- deref grid ;;
    let g := set_x g (sx g) in
    let g := set_y g (sy g) in
    let fillRect :=
      {| frect_x := x g; frect_y := y g;
         frect_w := F32.of_int (sw g); frect_h := F32.of_int (sh g) |} in
    FillWholeGrid_rows (Z.to_nat (rows g)) g fillRect ;;
    ret (Some g)
  else ret grid.

(** *** Stds_FreeGrid *)

Fixpoint FreeGrid_textures (n : nat) (textureIndex : Z) (g : grid_t) : M unit :=
  match n with
  | O => ret tt
  | S n' =>
      t <- array_get (textures g) textureIndex ;;
      emit (SDL_DestroyTexture t) ;;
      FreeGrid_textures n' (textureIndex + 1) g
  end.

(** No test of the pointer: the first statement reads [grid->textures].
    The object is released, nothing is left of it. *)
Definition Stds_FreeGrid (grid : option grid_t) : M unit :=
  g <- deref grid ;;
  (match textures g with
   | Some _ => FreeGrid_textures (Z.to_nat (to_u32 (textureBuffer g))) 0 g
   | None => ret tt
   end) ;;
  (if negb (spriteSheet g =? NULL)
   then emit (SDL_DestroyTexture (Some (spriteSheet g)))
   else ret tt) ;;
  emit (Stds_VectorDestroy (animation g)) ;;
  ret tt.

(** ** The functions of input.c that write the buttons

    [Stds_MousePressed] and [Stds_MouseReleased] set and clear the flag of
    the button of the event in [g_app.mouse.button], the array that the
    click resolver reads. *)

Definition button_write (code v : Z) : M unit :=
  fun w =>
    match array_set (Some (button (mouse w))) code v w with
    | Ok (Some b) _ =>
        Ok tt (set_mouse w {| mouse_x := mouse_x (mouse w);
                              mouse_y := mouse_y (mouse w);
                              button := b |})
    | _ => Fault
    end.

Definition Stds_MousePressed (event_button : Z) : M unit :=
  button_write event_button 1.

Definition Stds_MouseReleased (event_button : Z) : M unit :=
  button_write event_button 0.

(** ** The rest of input.c

    input.c names the state of the engine [g_app] and grid.c names it
    [app]: they are one object here, and [g_app.mouse] is the [mouse] of
    the world. *)

(** The events that [Stds_ProcessInput] tells apart, with the fields that
    input.c reads from them. *)
Inductive SDL_Event :=
| SDL_QUIT
| SDL_KEYDOWN (key_repeat scancode : Z)
| SDL_KEYUP (key_repeat scancode : Z)
| SDL_MOUSEBUTTONDOWN (event_button : Z)
| SDL_MOUSEBUTTONUP (event_button : Z)
| SDL_MOUSEWHEEL (wheel_y : Z)
| SDL_MOUSEMOTION
| SDL_TEXTINPUT (text : string)
| SDL_OTHEREVENT (type : Z).

(** SDL's scancode of the backspace key. *)
Definition SDL_SCANCODE_BACKSPACE : Z := 42.

(** [struct text_field_t]: the flag that input.c tests, and the text, for
    what only [Stds_ReadTextField] reads and writes. *)
Record text_field_t := { toggle_text_input : bool; field_text : string }.

(** [g_app] as input.c sees it: the world of the grid with the pointer and
    the buttons, the wheel and the motion flag of the mouse, the keyboard,
    whether SDL accepts text input, and the list of the text fields, which
    starts with [g_app.text_field_head]. *)
Record app_t := {
  app_world : world;
  mouse_wheel : Z;
  mouse_is_moving : bool;
  keyboard : list Z;
  text_input_on : bool;
  text_field_head : text_field_t;
  text_field_next : list text_field_t
}.

Definition set_app_world (s : app_t) (w : world) : app_t :=
  {| app_world := w; mouse_wheel := mouse_wheel s;
     mouse_is_moving := mouse_is_moving s; keyboard := keyboard s;
     text_input_on := text_input_on s; text_field_head := text_field_head s;
     text_field_next := text_field_next s |}.
Definition set_mouse_wheel (s : app_t) (v : Z) : app_t :=
  {| app_world := app_world s; mouse_wheel := v;
     mouse_is_moving := mouse_is_moving s; keyboard := keyboard s;
     text_input_on := text_input_on s; text_field_head := text_field_head s;
     text_field_next := text_field_next s |}.
Definition set_mouse_is_moving (s : app_t) (b : bool) : app_t :=
  {| app_world := app_world s; mouse_wheel := mouse_wheel s;
     mouse_is_moving := b; keyboard := keyboard s;
     text_input_on := text_input_on s; text_field_head := text_field_head s;
     text_field_next := text_field_next s |}.
Definition set_keyboard (s : app_t) (k : list Z) : app_t :=
  {| app_world := app_world s; mouse_wheel := mouse_wheel s;
     mouse_is_moving := mouse_is_moving s; keyboard := k;
     text_input_on := text_input_on s; text_field_head := text_field_head s;
     text_field_next := text_field_next s |}.
Definition set_text_input_on (s : app_t) (b : bool) : app_t :=
  {| app_world := app_world s; mouse_wheel := mouse_wheel s;
     mouse_is_moving := mouse_is_moving s; keyboard := keyboard s;
     text_input_on := b; text_field_head := text_field_head s;
     text_field_next := text_field_next s |}.
Definition set_text_fields (s : app_t) (head : text_field_t)
    (next : list text_field_t) : app_t :=
  {| app_world := app_world s; mouse_wheel := mouse_wheel s;
     mouse_is_moving := mouse_is_moving s; keyboard := keyboard s;
     text_input_on := text_input_on s; text_field_head := head;
     text_field_next := next |}.

(** How a poll of the events ends: the loop is over and the program goes
    on, or the program has exited, or it has faulted. *)
Inductive polled :=
| Resumes (s : app_t)
| Exits
| Faults.

(** [SDL_StartTextInput] and [SDL_StopTextInput]. *)
Definition SDL_StartTextInput (s : app_t) : app_t := set_text_input_on s true.
Definition SDL_StopTextInput (s : app_t) : app_t := set_text_input_on s false.

(** [Stds_UpdateMouseState]: [SDL_GetMouseState] writes the position of
    the pointer, [pointer] here, and the motion flag is lowered. *)
Definition Stds_UpdateMouseState (pointer : Z * Z) (s : app_t) : app_t :=
  let s :=
    set_app_world s
      (set_mouse (app_world s)
         {| mouse_x := fst pointer; mouse_y := snd pointer;
            button := button (mouse (app_world s)) |}) in
  set_mouse_is_moving s false.

(** [Stds_MouseMoved]. *)
Definition Stds_MouseMoved (s : app_t) : app_t := set_mouse_is_moving s true.

(** A call that runs in the world of the grid, run in [g_app]. *)
Definition in_world (m : M unit) (s : app_t) : option app_t :=
  match m (app_world s) with
  | Ok _ w => Some (set_app_world s w)
  | Fault => None
  end.

(** [g_app.keyboard[i] = v] and [g_app.keyboard[i]]. *)
Definition keyboard_write (i v : Z) (s : app_t) : option app_t :=
  if (0 <=? i) && (i <? Z.of_nat (length (keyboard s)))
  then Some (set_keyboard s (<[Z.to_nat i := v]> (keyboard s)))
  else None.

Definition keyboard_read (i : Z) (s : app_t) : option Z :=
  if 0 <=? i then keyboard s !! Z.to_nat i else None.

Section Input.

(** [MAX_KEYBOARD_KEYS], a constant of a header that is not among the
    sources. *)
Variable MAX_KEYBOARD_KEYS : Z.

(** [Stds_ReadTextField], of another file: what it makes of the field it
    is given for an event. *)
Variable Stds_ReadTextField : text_field_t -> SDL_Event -> text_field_t.

(** The loop of [Stds_UpdateTextFields] over the fields from [tf] on. *)
Fixpoint UpdateTextFields_from (event : SDL_Event) (tfs : list text_field_t)
    (text_input : bool) : list text_field_t * bool :=
  match tfs with
  | [] => ([], text_input)
  | tf :: next =>
      if toggle_text_input tf then
        let text_input := true in
        let tf := Stds_ReadTextField tf event in
        let (next, text_input) := UpdateTextFields_from event next text_input in
        (tf :: next, text_input)
      else
        let text_input := false in
        let (next, text_input) := UpdateTextFields_from event next text_input in
        (tf :: next, text_input)
  end.

Definition Stds_UpdateTextFields (event : SDL_Event) (s : app_t) : app_t :=
  match UpdateTextFields_from event (text_field_head s :: text_field_next s)
          (text_input_on s) with
  | (head :: next, text_input) =>
      set_text_input_on (set_text_fields s head next) text_input
  | ([], text_input) => set_text_input_on s text_input
  end.

(** [Stds_KeyPressed], on the event [SDL_KEYDOWN key_repeat scancode]: the
    only call is that of the case [SDL_KEYDOWN]. *)
Definition Stds_KeyPressed (key_repeat scancode : Z) (s : app_t)
    : option app_t :=
  s ← (if (key_repeat =? 0) && (scancode <? MAX_KEYBOARD_KEYS)
       then keyboard_write scancode 1 s
       else Some s);
  backspace ← keyboard_read SDL_SCANCODE_BACKSPACE s;
  if negb (backspace =? 0)
  then Some (Stds_UpdateTextFields (SDL_KEYDOWN key_repeat scancode) s)
  else Some s.

(** [Stds_KeyReleased]. *)
Definition Stds_KeyReleased (key_repeat scancode : Z) (s : app_t)
    : option app_t :=
  if (key_repeat =? 0) && (scancode <? MAX_KEYBOARD_KEYS)
  then keyboard_write scancode 0 s
  else Some s.

(** The [switch] of [Stds_ProcessInput]. *)
Definition resumes (s : option app_t) : polled :=
  match s with Some s => Resumes s | None => Faults end.

Definition ProcessInput_event (event : SDL_Event) (s : app_t) : polled :=
  match event with
  | SDL_QUIT => Exits
  | SDL_KEYDOWN key_repeat scancode =>
      resumes (Stds_KeyPressed key_repeat scancode s)
  | SDL_KEYUP key_repeat scancode =>
      resumes (Stds_KeyReleased key_repeat scancode s)
  | SDL_MOUSEBUTTONDOWN event_button =>
      resumes (in_world (Stds_MousePressed event_button) s)
  | SDL_MOUSEBUTTONUP event_button =>
      resumes (in_world (Stds_MouseReleased event_button) s)
  | SDL_MOUSEWHEEL wheel_y => Resumes (set_mouse_wheel s wheel_y)
  | SDL_MOUSEMOTION => Resumes (Stds_MouseMoved s)
  | SDL_TEXTINPUT _ => Resumes (Stds_UpdateTextFields event s)
  | SDL_OTHEREVENT _ => Resumes s
  end.

(** The loop of [Stds_ProcessInput] over the events that [SDL_PollEvent]
    hands out, each with the position of the pointer that
    [SDL_GetMouseState] reports when the event is taken. *)
Fixpoint ProcessInput_loop (queue : list (SDL_Event * (Z * Z))) (s : app_t)
    : polled :=
  match queue with
  | [] => Resumes s
  | (event, pointer) :: rest =>
      let s := Stds_UpdateMouseState pointer s in
      match ProcessInput_event event s with
      | Resumes s => ProcessInput_loop rest s
      | Exits => Exits
      | Faults => Faults
      end
  end.

Definition Stds_ProcessInput (queue : list (SDL_Event * (Z * Z))) (s : app_t)
    : polled :=
  let s := SDL_StartTextInput s in
  ProcessInput_loop queue s.

(** What an event of the queue makes of the flag of the button [b], and of
    the flag of the key [k]: a key event counts when it is not a repeat
    and its scancode is below [MAX_KEYBOARD_KEYS]. *)
Definition button_flag (b : Z) (flag : option Z) (e : SDL_Event * (Z * Z))
    : option Z :=
  match fst e with
  | SDL_MOUSEBUTTONDOWN b' => if b' =? b then Some 1 else flag
  | SDL_MOUSEBUTTONUP b' => if b' =? b then Some 0 else flag
  | _ => flag
  end.

Definition key_flag (k : Z) (flag : option Z) (e : SDL_Event * (Z * Z))
    : option Z :=
  match fst e with
  | SDL_KEYDOWN key_repeat scancode =>
      if (key_repeat =? 0) && (scancode <? MAX_KEYBOARD_KEYS) && (scancode =? k)
      then Some 1 else flag
  | SDL_KEYUP key_repeat scancode =>
      if (key_repeat =? 0) && (scancode <? MAX_KEYBOARD_KEYS) && (scancode =? k)
      then Some 0 else flag
  | _ => flag
  end.

(** The event is a motion of the mouse. *)
Definition is_motion (e : SDL_Event) : bool :=
  match e with SDL_MOUSEMOTION => true | _ => false end.

(** The event presses the button [b]. *)
Definition presses (b : Z) (e : SDL_Event * (Z * Z)) : Prop :=
  fst e = SDL_MOUSEBUTTONDOWN b.

(** What [Stds_UpdateTextFields] makes of a field. *)
Definition field_read (event : SDL_Event) (tf : text_field_t) : text_field_t :=
  if toggle_text_input tf then Stds_ReadTextField tf event else tf.

(** The last text field of the list: the head when there is no other. *)
Definition last_field (s : app_t) : text_field_t :=
  default (text_field_head s) (last (text_field_next s)).

End Input.

(** ** A scene

    Collaborators, a grid and worlds to run the calls on: the grid of
    4 columns and 3 rows of 32 by 32 pixels at the origin, with the pointer
    on the pixel (70, 40). *)

Module Scene.

(** Modelled from the spec: [Stds_IsMouseOverRect] is not among the
    sources.  The pointer matches a rectangle when it is strictly inside
    of it; the comparisons are those of [float], the sum is one of
    [int]. *)
Definition Stds_IsMouseOverRect (px py : float) (rect : SDL_Rect) : bool :=
  (F32.ltb (F32.of_int (rect_x rect)) px
   && F32.ltb px (F32.of_int (i32_add (rect_x rect) (rect_w rect))))
  && (F32.ltb (F32.of_int (rect_y rect)) py
      && F32.ltb py (F32.of_int (i32_add (rect_y rect) (rect_h rect)))).

(** A loader that knows a texture by the length of its path, and sheets
    of 128 by 64 pixels. *)
Definition Stds_LoadTexture (path : string) : SDL_Texture :=
  1 + Z.of_nat (String.length path).

Definition SDL_QueryTexture (t : SDL_Texture) : option (Z * Z) :=
  if t =? NULL then None else Some (128, 64).

(** A vector that answers [NULL] out of its range. *)
Definition Stds_VectorGet (v : list Z) (index : Z) : Z :=
  if 0 <=? index then nth (Z.to_nat index) v NULL else NULL.

Definition Stds_AnimationUpdate (a : animation_t) : animation_t :=
  {| pos_x := pos_x a; pos_y := pos_y a;
     dest_width := dest_width a; dest_height := dest_height a;
     anim_flip := anim_flip a; anim_angle := anim_angle a;
     camera := camera a; playback := playback a + 1 |}.

Definition white : SDL_Color :=
  {| col_r := 255; col_g := 255; col_b := 255; col_a := 255 |}.
Definition black : SDL_Color :=
  {| col_r := 0; col_g := 0; col_b := 0; col_a := 255 |}.

Definition grid : grid_t :=
  Stds_CreateGrid (F32.of_int 0) (F32.of_int 0) 32 32 4 3 white black.

(** The grid once 3 texture slots are allocated, once a sheet of 4 by 2
    tiles is attached, and once an animation is registered. *)
Definition grid_textures : grid_t := set_textures grid (malloc_textures 3) 3.

Definition grid_sheet : grid_t :=
  set_sheet grid (Stds_LoadTexture "a.png")
    {| rect_x := 0; rect_y := 0; rect_w := 32; rect_h := 32 |} 4 2.

Definition grid_animation : grid_t := set_animation grid (Some [100]) 0.

Definition animation0 : animation_t :=
  {| pos_x := F32.of_int 0; pos_y := F32.of_int 0;
     dest_width := 0; dest_height := 0;
     anim_flip := SDL_FLIP_NONE; anim_angle := 0;
     camera := false; playback := 0 |}.

(** The pointer on (70, 40); the button 1 is pressed in [world_pressed]
    and released in [world_released]. *)
Definition world_pressed : world :=
  {| mouse := {| mouse_x := 70; mouse_y := 40; button := [0; 1; 0] |};
     onceCall := false;
     trace := [];
     anims := {[ 100 := animation0 ]} |}.

Definition world_released : world :=
  {| mouse := {| mouse_x := 70; mouse_y := 40; button := [0; 0; 0] |};
     onceCall := false;
     trace := [];
     anims := {[ 100 := animation0 ]} |}.

(** The local of a resolver before the call. *)
Definition pair0 : grid_pair_t :=
  {| p_c := 0; p_r := 0; p_x := F32.of_int 0; p_y := F32.of_int 0 |}.

(** The engine of the scene: a keyboard of 64 keys, no key down; a text
    field that is not toggled, the head of the list, and one that is; a
    text field reads a text event by appending its text. *)
Definition MAX_KEYBOARD_KEYS : Z := 64.

Definition Stds_ReadTextField (tf : text_field_t) (event : SDL_Event)
    : text_field_t :=
  match event with
  | SDL_TEXTINPUT text =>
      {| toggle_text_input := toggle_text_input tf;
         field_text := String.append (field_text tf) text |}
  | _ => tf
  end.

Definition g_app : app_t :=
  {| app_world := world_released;
     mouse_wheel := 0;
     mouse_is_moving := false;
     keyboard := replicate 64 0;
     text_input_on := false;
     text_field_head := {| toggle_text_input := false; field_text := "" |};
     text_field_next := [ {| toggle_text_input := true; field_text := "ab" |} ] |}.

(** The world once a grid has been given its textures: the latch is
    closed. *)
Definition world_latched : world :=
  {| mouse := mouse world_released;
     onceCall := true;
     trace := [];
     anims := anims world_released |}.

(** A grid with its three slots and one animation. *)
Definition grid_dressed : grid_t :=
  set_animation grid_textures (Some [100]) 0.

(** A grid of four columns whose cells are given the width -32. *)
Definition grid_leftward : grid_t :=
  Stds_CreateGrid (F32.of_int 0) (F32.of_int 0) (-32) 32 4 1 white black.

(** A grid like that of the scene, half a pixel to the right and down:
    0.5 is 2^23 * 2^-24. *)
Definition half : float := S754_finite false 8388608 (-24).

Definition grid_half : grid_t :=
  Stds_CreateGrid half half 32 32 4 3 white black.

(** The pointer on (32, 5). *)
Definition world_border : world :=
  {| mouse := {| mouse_x := 32; mouse_y := 5; button := [0; 1; 0] |};
     onceCall := false;
     trace := [];
     anims := anims world_released |}.

(** A [malloc] that answers [NULL] whatever the count. *)
Definition malloc_refusing (n : Z) : option (list (option SDL_Texture)) := None.

End Scene.

Section Grid.

(** The collaborators that grid.c calls and that are not part of it. *)

(** [Stds_LoadTexture]: the handle of the texture loaded from a path. *)
Variable Stds_LoadTexture : string -> SDL_Texture.

(** [SDL_QueryTexture]: the pixel width and height of a texture, or
    nothing (the call fails and leaves its outputs as they are). *)
Variable SDL_QueryTexture : SDL_Texture -> option (Z * Z).

(** [Stds_IsMouseOverRect]: whether the point is over the rectangle. *)
Variable Stds_IsMouseOverRect : float -> float -> SDL_Rect -> bool.

(** [Stds_VectorGet]: the pointer that the vector answers for an index. *)
Variable Stds_VectorGet : list Z -> Z -> Z.

(** [Stds_AnimationUpdate]: one tick of the playback of an animation. *)
Variable Stds_AnimationUpdate : animation_t -> animation_t.

(** *** Stds_OnGridHover *)

(** The loops read [app.mouse] and write nothing but their locals: the
    rectangle under test and the pair.  [inl p] is [return p]. *)
Fixpoint OnGridHover_cols (n : nat) (c : Z) (g : grid_t) (m : mouse_t)
    (hoverRect : SDL_Rect) (p : grid_pair_t)
    : grid_pair_t + SDL_Rect * grid_pair_t :=
  match n with
  | O => inr (hoverRect, p)
  | S n' =>
      let p := set_pair_col p (to_i32 c) (F32.of_int (rect_x hoverRect)) in
      if Stds_IsMouseOverRect (F32.of_int (mouse_x m)) (F32.of_int (mouse_y m))
           hoverRect
      then inl p
      else OnGridHover_cols n' (c + 1) g m
             (set_rect_x hoverRect (i32_add (rect_x hoverRect) (sw g))) p
  end.

Fixpoint OnGridHover_rows (n : nat) (r : Z) (g : grid_t) (m : mouse_t)
    (hoverRect : SDL_Rect) (p : grid_pair_t)
    : grid_pair_t + SDL_Rect * grid_pair_t :=
  match n with
  | O => inr (hoverRect, p)
  | S n' =>
      let p := set_pair_row p (to_i32 r) (F32.of_int (rect_y hoverRect)) in
      match OnGridHover_cols (Z.to_nat (cols g)) 0 g m hoverRect p with
      | inl p => inl p
      | inr (hoverRect, p) =>
          let hoverRect :=
            set_rect_y hoverRect (i32_add (rect_y hoverRect) (sh g)) in
          let hoverRect := set_rect_x hoverRect (F32.to_int (sx g)) in
          OnGridHover_rows n' (r + 1) g m hoverRect p
      end
  end.

(** [p] is the local of the function as the call finds it: it is not
    initialised. *)
Definition Stds_OnGridHover (grid : option grid_t) (p : grid_pair_t)
    : M (grid_pair_t * option grid_t) :=
  if Stds_AssertGrid grid then
    g <- deref grid ;;
    let g := set_x g (sx g) in
    let g := set_y g (sy g) in
    let hoverRect :=
      {| rect_x := F32.to_int (x g); rect_y := F32.to_int (y g);
         rect_w := sw g; rect_h := sh g |} in
    w <- get_world ;;
    match OnGridHover_rows (Z.to_nat (rows g)) 0 g (mouse w) hoverRect p with
    | inl p => ret (p, Some g)
    | inr (_, p) => ret (set_pair_cr p (-1) (-1), Some g)
    end
  else ret (set_pair_cr p (-1) (-1), grid).

(** *** Stds_OnGridClicked *)

(** [app.mouse.button[mouseCode]] and [app.mouse.button[mouseCode] = 0]. *)
Definition button_get (mouseCode : Z) : M Z :=
  w <- get_world ;;
  array_get (Some (button (mouse w))) mouseCode.

Definition button_clear (mouseCode : Z) : M unit :=
  w <- get_world ;;
  b <- array_set (Some (button (mouse w))) mouseCode 0 ;;
  match b with
  | Some b =>
      put_world (set_mouse w {| mouse_x := mouse_x (mouse w);
                                mouse_y := mouse_y (mouse w);
                                button := b |})
  | None => fault
  end.

Fixpoint OnGridClicked_cols (n : nat) (c : Z) (g : grid_t) (mouseCode : Z)
    (clickRect : SDL_Rect) (p : grid_pair_t)
    : M (grid_pair_t + SDL_Rect * grid_pair_t) :=
  match n with
  | O => ret (inr (clickRect, p))
  | S n' =>
      let p := set_pair_col p (to_i32 c) (F32.of_int (rect_x clickRect)) in
      w <- get_world ;;
      hit <- (if Stds_IsMouseOverRect (F32.of_int (mouse_x (mouse w)))
                   (F32.of_int (mouse_y (mouse w))) clickRect
              then b <- button_get mouseCode ;; ret (negb (b =? 0))
              else ret false) ;;
      if hit : bool then
        button_clear mouseCode ;;
        ret (inl p)
      else OnGridClicked_cols n' (c + 1) g mouseCode
             (set_rect_x clickRect (i32_add (rect_x clickRect) (sw g))) p
  end.

Fixpoint OnGridClicked_rows (n : nat) (r : Z) (g : grid_t) (mouseCode : Z)
    (clickRect : SDL_Rect) (p : grid_pair_t)
    : M (grid_pair_t + SDL_Rect * grid_pair_t) :=
  match n with
  | O => ret (inr (clickRect, p))
  | S n' =>
      let p := set_pair_row p (to_i32 r) (F32.of_int (rect_y clickRect)) in
      res <- OnGridClicked_cols (Z.to_nat (cols g)) 0 g mouseCode clickRect p ;;
      match res with
      | inl p => ret (inl p)
      | inr (clickRect, p) =>
          let clickRect :=
            set_rect_y clickRect (i32_add (rect_y clickRect) (sh g)) in
          let clickRect := set_rect_x clickRect (F32.to_int (sx g)) in
          OnGridClicked_rows n' (r + 1) g mouseCode clickRect p
      end
  end.

Definition Stds_OnGridClicked (grid : option grid_t) (mouseCode : Z)
    (p : grid_pair_t) : M (grid_pair_t * option grid_t) :=
  if Stds_AssertGrid grid then
    g <- deref grid ;;
    let g := set_x g (sx g) in
    let g := set_y g (sy g) in
    let clickRect :=
      {| rect_x := F32.to_int (x g); rect_y := F32.to_int (y g);
         rect_w := sw g; rect_h := sh g |} in
    res <- OnGridClicked_rows (Z.to_nat (rows g)) 0 g mouseCode clickRect p ;;
    match res with
    | inl p => ret (p, Some g)
    | inr (_, p) => ret (set_pair_cr p (-1) (-1), Some g)
    end
  else ret (set_pair_cr p (-1) (-1), grid).

(** *** Stds_InitializeGridTextures *)

Definition Stds_InitializeGridTextures (grid : option grid_t)
    (textureBuffer0 : Z) : M (option grid_t) :=
  w <- get_world ;;
  if Stds_AssertGrid grid && negb (onceCall w) then
    g <- deref grid ;;
    let g := set_textures g (malloc_textures textureBuffer0) (textureBuffer g) in
    let g := set_textures g (textures g) textureBuffer0 in
    put_world (set_onceCall w true) ;;
    ret (Some g)
  else ret grid.

(** *** Stds_AddGridTexture *)

Definition Stds_AddGridTexture (grid : option grid_t) (filePath : string)
    : M (Z * option grid_t) :=
  if Stds_AssertGrid grid then
    g <- deref grid ;;
    let currentTextureNum := -1 in
    if currentTextureNum <? i32_sub (textureBuffer g) 1 then
      let currentTextureNum := i32_add currentTextureNum 1 in
      ts <- array_set (textures g) currentTextureNum
              (Some (Stds_LoadTexture filePath)) ;;
      let g := set_textures g ts (textureBuffer g) in
      ret (currentTextureNum, Some g)
    else ret (-1, grid)
  else ret (-1, grid).

(** *** Stds_PutGridTexture *)

Definition Stds_PutGridTexture (grid : option grid_t) (col row : Z)
    (index : Z) (flip0 : SDL_RendererFlip) (angle0 : Z) : M (option grid_t) :=
  if Stds_AssertGrid grid then
    g <- deref grid ;;
    if (index <? textureBuffer g) && (-1 <? index) then
      let texturePosition :=
        {| frect_x := F32.add (x g) (F32.of_int (u32_mul col (sw g)));
           frect_y := F32.add (y g) (F32.of_int (u32_mul row (sh g)));
           frect_w := F32.of_int (sw g);
           frect_h := F32.of_int (sh g) |} in
      t <- array_get (textures g) index ;;
      emit (Stds_BlitTexture t None
              (frect_x texturePosition) (frect_y texturePosition)
              (frect_w texturePosition) (frect_h texturePosition)
              angle0 flip0 None (isCameraOn g)) ;;
      ret grid
    else ret grid
  else ret grid.

(** *** Stds_AddSpriteSheetToGrid *)

(** [once_call] is a local of the function, [false] at every call. *)
Definition Stds_AddSpriteSheetToGrid (grid : option grid_t)
    (filePath : string) (cols0 rows0 : Z) : M (option grid_t) :=
  if Stds_AssertGrid grid then
    let once_call := false in
    if Stds_AssertGrid grid && negb once_call then
      g <- deref grid ;;
      let g := set_spriteSheet g (Stds_LoadTexture filePath) in
      let once_call := true in
      let g :=
        match SDL_QueryTexture (spriteSheet g) with
        | Some (w, h) => set_clip g (set_rect_h (set_rect_w (clip g) w) h)
        | None => g
        end in
      if to_u32 cols0 =? 0 then fault else
      let g := set_clip g (set_rect_w (clip g)
                             (to_i32 (u32_div (rect_w (clip g)) cols0))) in
      if to_u32 rows0 =? 0 then fault else
      let g := set_clip g (set_rect_h (clip g)
                             (to_i32 (u32_div (rect_h (clip g)) rows0))) in
      let g := set_sheet_counts g cols0 rows0 in
      ret (Some g)
    else ret grid
  else ret grid.

(** *** Stds_SelectSpriteForGrid *)

Definition Stds_SelectSpriteForGrid (grid : option grid_t)
    (sheetCol sheetRow : Z) : M (option grid_t) :=
  if Stds_AssertGrid grid then
    g <- deref grid ;;
    if (sheetCol <? spriteSheetCols g) && (sheetRow <? spriteSheetRows g) then
      let g := set_clip g (set_rect_x (clip g)
                 (to_i32 (u32_mul sheetCol (rect_w (clip g))))) in
      let g := set_clip g (set_rect_y (clip g)
                 (to_i32 (u32_mul sheetRow (rect_h (clip g))))) in
      ret (Some g)
    else ret grid
  else ret grid.

(** *** Stds_DrawSelectedSpriteOnGrid *)

Definition Stds_DrawSelectedSpriteOnGrid (grid : option grid_t)
    (gridCol gridRow : Z) (flip0 : SDL_RendererFlip) (angle0 : Z)
    : M (option grid_t) :=
  if Stds_AssertGrid grid then
    g <- deref grid ;;
    if (gridCol <? cols g) && (gridRow <? rows g) then
      let position :=
        {| frect_x := F32.add (x g) (F32.of_int (u32_mul gridCol (sw g)));
           frect_y := F32.add (y g) (F32.of_int (u32_mul gridRow (sh g)));
           frect_w := F32.of_int (sw g);
           frect_h := F32.of_int (sh g) |} in
      emit (Stds_BlitTexture (Some (spriteSheet g)) (Some (clip g))
              (frect_x position) (frect_y position)
              (frect_w position) (frect_h position)
              angle0 flip0 None (isCameraOn g)) ;;
      ret grid
    else ret grid
  else ret grid.

(** *** Stds_AddAnimationToGrid *)

(** Modelled from the spec: [Stds_VectorAppend] is not among the sources.
    The pointer is appended to the collection; a [NULL] vector cannot be
    written. *)
Definition Stds_VectorAppend (v : option (list Z)) (item : Z)
    : M (option (list Z)) :=
  match v with
  | Some l => ret (Some (l ++ [item]))
  | None => fault
  end.

Definition Stds_AddAnimationToGrid (grid : option grid_t) (animate : Z)
    : M (Z * option grid_t) :=
  if animate =? NULL then ret (-1, grid)
  else if Stds_AssertGrid grid then
    g <- deref grid ;;
    let g := set_animation g (animation g) (i32_add (animationBuffer g) 1) in
    v <- Stds_VectorAppend (animation g) animate ;;
    let g := set_animation g v (animationBuffer g) in
    ret (animationBuffer g, Some g)
  else ret (-1, grid).

(** *** Stds_RenderAnimationToGrid *)

(** [*editAnim] and the assignment of the object at [editAnim]. *)
Definition anim_load (editAnim : Z) : M animation_t :=
  w <- get_world ;;
  match anims w !! editAnim with
  | Some a => ret a
  | None => fault
  end.

Definition anim_store (editAnim : Z) (a : animation_t) : M unit :=
  w <- get_world ;;
  put_world (set_anims w (<[editAnim := a]> (anims w))).

Definition Stds_RenderAnimationToGrid (grid : option grid_t) (col row : Z)
    (index : Z) (flip0 : SDL_RendererFlip) (angle0 : Z) : M (option grid_t) :=
  if Stds_AssertGrid grid then
    g <- deref grid ;;
    match animation g with
    | Some v =>
        if (col <? cols g) && (row <? rows g) then
          let editAnim := Stds_VectorGet v index in
          a <- anim_load editAnim ;;
          let a :=
            {| pos_x := F32.add (x g) (F32.of_int (u32_mul col (sw g)));
               pos_y := F32.add (y g) (F32.of_int (u32_mul row (sh g)));
               dest_width := sw g;
               dest_height := sh g;
               anim_flip := flip0;
               anim_angle := angle0;
               camera := isCameraOn g;
               playback := playback a |} in
          anim_store editAnim a ;;
          emit (Stds_AnimationDraw a) ;;
          anim_store editAnim (Stds_AnimationUpdate a) ;;
          ret grid
        else ret grid
    | None => ret grid
    end
  else ret grid.

(** *** Stds_AddCollisionToGrid: the body is empty. *)

Definition Stds_AddCollisionToGrid (grid : option grid_t) (col row : Z)
    : M (option grid_t) :=
  if Stds_AssertGrid grid then
    g <- deref grid ;;
    if (col <? cols g) && (row <? rows g) then ret grid else ret grid
  else ret grid.

(** ** The vocabulary of the properties *)

(** A world that differs from [w] by the calls [cs] made after it. *)
Definition after_calls (w : world) (cs : list call) : world :=
  set_trace w (trace w ++ cs).

(** *** The latch and the guard on the pointer *)

(** A sequence of calls of [Stds_InitializeGridTextures], on any grids. *)
Fixpoint initialize_all (calls : list (option grid_t * Z))
    : M (list (option grid_t)) :=
  match calls with
  | [] => ret []
  | (grid, n) :: rest =>
      grid' <- Stds_InitializeGridTextures grid n ;;
      grids <- initialize_all rest ;;
      ret (grid' :: grids)
  end.

(** A call of the grid, with its arguments. *)
Inductive grid_call : Type :=
| Call_DrawLineGrid (grid : option grid_t)
| Call_FillWholeGrid (grid : option grid_t)
| Call_FreeGrid (grid : option grid_t)
| Call_OnGridHover (grid : option grid_t) (p : grid_pair_t)
| Call_OnGridClicked (grid : option grid_t) (mouseCode : Z) (p : grid_pair_t)
| Call_InitializeGridTextures (grid : option grid_t) (textureBuffer0 : Z)
| Call_AddGridTexture (grid : option grid_t) (filePath : string)
| Call_PutGridTexture (grid : option grid_t) (col row index : Z)
    (flip0 : SDL_RendererFlip) (angle0 : Z)
| Call_AddSpriteSheetToGrid (grid : option grid_t) (filePath : string)
    (cols0 rows0 : Z)
| Call_SelectSpriteForGrid (grid : option grid_t) (sheetCol sheetRow : Z)
| Call_DrawSelectedSpriteOnGrid (grid : option grid_t) (gridCol gridRow : Z)
    (flip0 : SDL_RendererFlip) (angle0 : Z)
| Call_AddAnimationToGrid (grid : option grid_t) (animate : Z)
| Call_RenderAnimationToGrid (grid : option grid_t) (col row index : Z)
    (flip0 : SDL_RendererFlip) (angle0 : Z)
| Call_AddCollisionToGrid (grid : option grid_t) (col row : Z).

(** The call made, its answer dropped. *)
Definition run_call (c : grid_call) : M unit :=
  match c with
  | Call_DrawLineGrid grid => Stds_DrawLineGrid grid ;; ret tt
  | Call_FillWholeGrid grid => Stds_FillWholeGrid grid ;; ret tt
  | Call_FreeGrid grid => Stds_FreeGrid grid
  | Call_OnGridHover grid p => Stds_OnGridHover grid p ;; ret tt
  | Call_OnGridClicked grid mouseCode p =>
      Stds_OnGridClicked grid mouseCode p ;; ret tt
  | Call_InitializeGridTextures grid n =>
      Stds_InitializeGridTextures grid n ;; ret tt
  | Call_AddGridTexture grid path => Stds_AddGridTexture grid path ;; ret tt
  | Call_PutGridTexture grid col row index flip0 angle0 =>
      Stds_PutGridTexture grid col row index flip0 angle0 ;; ret tt
  | Call_AddSpriteSheetToGrid grid path cols0 rows0 =>
      Stds_AddSpriteSheetToGrid grid path cols0 rows0 ;; ret tt
  | Call_SelectSpriteForGrid grid sheetCol sheetRow =>
      Stds_SelectSpriteForGrid grid sheetCol sheetRow ;; ret tt
  | Call_DrawSelectedSpriteOnGrid grid gridCol gridRow flip0 angle0 =>
      Stds_DrawSelectedSpriteOnGrid grid gridCol gridRow flip0 angle0 ;; ret tt
  | Call_AddAnimationToGrid grid animate =>
      Stds_AddAnimationToGrid grid animate ;; ret tt
  | Call_RenderAnimationToGrid grid col row index flip0 angle0 =>
      Stds_RenderAnimationToGrid grid col row index flip0 angle0 ;; ret tt
  | Call_AddCollisionToGrid grid col row =>
      Stds_AddCollisionToGrid grid col row ;; ret tt
  end.

(** A program of the engine, as far as the grids go: calls in sequence. *)
Fixpoint run_calls (cs : list grid_call) : M unit :=
  match cs with
  | [] => ret tt
  | c :: rest => run_call c ;; run_calls rest
  end.

(** The computation leaves a closed latch closed. *)
Definition keeps_latch {A} (m : M A) : Prop :=
  forall w a w', m w = Ok a w' -> onceCall w = true -> onceCall w' = true.

(** *** Textures *)

(** The array of the grid holds as many slots as the capacity says: the
    state that [Stds_InitializeGridTextures] leaves. *)
Definition textures_allocated (g : grid_t) (l : list (option SDL_Texture)) : Prop :=
  textures g = Some l /\
  Z.of_nat (length l) = textureBuffer g /\
  textureBuffer g <= INT_MAX.

(** A sequence of calls of [Stds_AddGridTexture] on one grid. *)
Fixpoint add_textures (paths : list string) (grid : option grid_t)
    : M (list Z * option grid_t) :=
  match paths with
  | [] => ret ([], grid)
  | path :: rest =>
      r <- Stds_AddGridTexture grid path ;;
      rs <- add_textures rest (snd r) ;;
      ret (fst r :: fst rs, snd rs)
  end.

(** *** The sprite sheet *)

(** The state that [Stds_AddSpriteSheetToGrid] leaves: the tiles of the
    clip are the pixel size of a sheet divided by the tile counts. *)
Definition sheet_attached (g : grid_t) : Prop :=
  exists W H,
    0 <= W <= INT_MAX /\ 0 <= H <= INT_MAX /\
    0 < spriteSheetCols g <= UINT_MAX /\ 0 < spriteSheetRows g <= UINT_MAX /\
    rect_w (clip g) = W / spriteSheetCols g /\
    rect_h (clip g) = H / spriteSheetRows g.

(** *** Animations *)

(** The animation as [Stds_RenderAnimationToGrid] leaves it before the
    draw: placed on the cell, with the flip, the angle and the camera flag
    of the call. *)
Definition placed (g : grid_t) (col row : Z) (flip0 : SDL_RendererFlip)
    (angle0 : Z) (a : animation_t) : animation_t :=
  {| pos_x := F32.add (x g) (F32.of_int (u32_mul col (sw g)));
     pos_y := F32.add (y g) (F32.of_int (u32_mul row (sh g)));
     dest_width := sw g;
     dest_height := sh g;
     anim_flip := flip0;
     anim_angle := angle0;
     camera := isCameraOn g;
     playback := playback a |}.

(** *** The drawing passes *)

(** The cursor after [n] steps of [d] pixels. *)
Definition advance (n : nat) (v : float) (d : Z) : float :=
  Nat.iter n (fun v => F32.add v (F32.of_int d)) v.

Arguments advance : simpl never.

(** The calls of the two loops of [Stds_DrawLineGrid]. *)
Fixpoint row_lines (n : nat) (g : grid_t) : list call :=
  match n with
  | O => []
  | S n' =>
      Stds_DrawLine (x g) (y g)
        (F32.add (x g) (F32.of_int (u32_mul (sw g) (cols g)))) (y g)
        (lineColor g)
      :: row_lines n' (set_y g (F32.add (y g) (F32.of_int (sh g))))
  end.

Fixpoint col_lines (n : nat) (g : grid_t) : list call :=
  match n with
  | O => []
  | S n' =>
      Stds_DrawLine (x g) (y g)
        (x g) (F32.add (y g) (F32.of_int (u32_mul (sh g) (rows g))))
        (lineColor g)
      :: col_lines n' (set_x g (F32.add (x g) (F32.of_int (sw g))))
  end.

(** The grid with its cursor on the start position. *)
Definition rewound (g : grid_t) : grid_t := set_xy g (sx g) (sy g).

(** The two lines that close the grid, below and on the right. *)
Definition closing_lines (g : grid_t) : list call :=
  [ Stds_DrawLine
      (sx g) (F32.add (sy g) (F32.of_int (u32_mul (sh g) (rows g))))
      (F32.add (sx g) (F32.of_int (u32_mul (sw g) (cols g))))
      (F32.add (sy g) (F32.of_int (u32_mul (sh g) (rows g))))
      (lineColor g);
    Stds_DrawLine
      (F32.add (sx g) (F32.of_int (u32_mul (sw g) (cols g)))) (sy g)
      (F32.add (sx g) (F32.of_int (u32_mul (sw g) (cols g))))
      (F32.add (sy g) (F32.of_int (u32_mul (sh g) (rows g))))
      (lineColor g) ].

(** All the calls of one pass of [Stds_DrawLineGrid]. *)
Definition line_calls (g : grid_t) : list call :=
  row_lines (Z.to_nat (rows g)) (rewound g)
  ++ col_lines (Z.to_nat (cols g)) (rewound g)
  ++ closing_lines g.

(** The calls of the loops of [Stds_FillWholeGrid]. *)
Fixpoint fill_cols_calls (n : nat) (g : grid_t) (fillRect : SDL_FRect)
    : list call :=
  match n with
  | O => []
  | S n' =>
      Stds_DrawRectF fillRect (fillColor g) true 0
      :: fill_cols_calls n' g
           (set_frect_x fillRect
              (F32.add (frect_x fillRect) (F32.of_int (sw g))))
  end.

Fixpoint fill_rows_calls (n : nat) (g : grid_t) (fillRect : SDL_FRect)
    : list call :=
  match n with
  | O => []
  | S n' =>
      fill_cols_calls (Z.to_nat (cols g)) g fillRect
      ++ fill_rows_calls n' g
           {| frect_x := sx g;
              frect_y := F32.add (frect_y fillRect) (F32.of_int (sh g));
              frect_w := frect_w fillRect; frect_h := frect_h fillRect |}
  end.

(** All the calls of one pass of [Stds_FillWholeGrid]. *)
Definition fill_calls (g : grid_t) : list call :=
  fill_rows_calls (Z.to_nat (rows g)) (rewound g)
    {| frect_x := sx g; frect_y := sy g;
       frect_w := F32.of_int (sw g); frect_h := F32.of_int (sh g) |}.

(** *** The resolvers *)

(** The rectangle that the resolvers test for the cell of column [c] and
    row [r]: the start position converted to [int], moved by [c] widths
    and [r] heights in [int] arithmetic. *)
Definition cell_rect (g : grid_t) (c r : Z) : SDL_Rect :=
  {| rect_x := to_i32 (F32.to_int (sx g) + c * sw g);
     rect_y := to_i32 (F32.to_int (sy g) + r * sh g);
     rect_w := sw g;
     rect_h := sh g |}.

(** The answer of the pointer test on a cell. *)
Definition over (g : grid_t) (m : mouse_t) (c r : Z) : bool :=
  Stds_IsMouseOverRect (F32.of_int (mouse_x m)) (F32.of_int (mouse_y m))
    (cell_rect g c r).

(** Row-major order on the cells. *)
Definition before (c' r' c r : Z) : Prop := r' < r \/ (r' = r /\ c' < c).

(** The world once the press of a button is consumed. *)
Definition cleared (mouseCode : Z) (w : world) : world :=
  set_mouse w {| mouse_x := mouse_x (mouse w);
                 mouse_y := mouse_y (mouse w);
                 button := <[Z.to_nat mouseCode := 0]> (button (mouse w)) |}.

(** The button is one of the array and its flag is set. *)
Definition pressed (w : world) (mouseCode : Z) : Prop :=
  0 <= mouseCode /\
  exists b, button (mouse w) !! Z.to_nat mouseCode = Some b /\ b <> 0.

(** What the resolvers answer from the result of their scan. *)
Definition answer (res : grid_pair_t + SDL_Rect * grid_pair_t) : grid_pair_t :=
  match res with
  | inl q => q
  | inr (_, q) => set_pair_cr q (-1) (-1)
  end.

(** The pair that says that no cell matched. *)
Definition sentinel (q : grid_pair_t) : Prop := p_c q = -1 /\ p_r q = -1.

(** *** The geometry of the cells *)

(** The pointer is strictly inside the rectangle. *)
Definition inside (m : mouse_t) (rect : SDL_Rect) : Prop :=
  rect_x rect < mouse_x m < rect_x rect + rect_w rect /\
  rect_y rect < mouse_y m < rect_y rect + rect_h rect.

(** The pointer is outside the rectangle: not inside, not on its border. *)
Definition outside (m : mouse_t) (rect : SDL_Rect) : Prop :=
  ~ (rect_x rect <= mouse_x m <= rect_x rect + rect_w rect /\
     rect_y rect <= mouse_y m <= rect_y rect + rect_h rect).

(** What the grid relies on from [Stds_IsMouseOverRect], on its cells and
    for the pointer as it is: a pointer strictly inside is over the
    rectangle, a pointer outside is not. *)
Definition pointer_test_sound (g : grid_t) (m : mouse_t) : Prop :=
  forall c r, 0 <= c < cols g -> 0 <= r < rows g ->
    (inside m (cell_rect g c r) -> over g m c r = true) /\
    (outside m (cell_rect g c r) -> over g m c r = false).

(** The grid extends to the right and down, within the range of [int]. *)
Definition fits_int (g : grid_t) : Prop :=
  0 <= sw g /\ 0 <= sh g /\
  F32.to_int (sx g) + cols g * sw g <= INT_MAX /\
  F32.to_int (sy g) + rows g * sh g <= INT_MAX.

(** The grid and the pointer are within the pixels that [float] holds
    exactly. *)
Definition screen_range (g : grid_t) (m : mouse_t) : Prop :=
  0 <= sw g /\ 0 <= sh g /\
  - 2 ^ 24 < F32.to_int (sx g) /\ F32.to_int (sx g) + cols g * sw g < 2 ^ 24 /\
  - 2 ^ 24 < F32.to_int (sy g) /\ F32.to_int (sy g) + rows g * sh g < 2 ^ 24 /\
  - 2 ^ 24 < mouse_x m < 2 ^ 24 /\ - 2 ^ 24 < mouse_y m < 2 ^ 24.

(** *** Small integers in single precision

    The integers below 2^24 in absolute value are floats: their sums are
    formed without rounding as long as they stay below 2^24, their order
    is the order of the floats, and the conversions give them back. *)

(** [n] followed by [k] zeros, in binary. *)
Definition pshl (n : positive) (k : nat) : positive := Nat.iter k xO n.

(** The float of a positive integer below 2^24: its digits moved to the
    top of the mantissa. *)
Definition canon (s : bool) (n : positive) : spec_float :=
  S754_finite s (pshl n (Z.to_nat (24 - Z.pos (digits2_pos n))))
    (Z.pos (digits2_pos n) - 24).

(** *** The lines of the grid *)

(** The sum of two integers is formed without rounding in [float]. *)
Definition exact_sum (a b : Z) : Prop :=
  F32.add (F32.of_int a) (F32.of_int b) = F32.of_int (a + b).

(** The grid starts on the pixel (X, Y), its sizes are not negative, and
    its pixels are within the integers that [float] holds exactly. *)
Definition pixel_exact (g : grid_t) (X Y : Z) : Prop :=
  sx g = F32.of_int X /\ sy g = F32.of_int Y /\
  0 <= sw g /\ 0 <= sh g /\ 0 <= cols g /\ 0 <= rows g /\
  - 2 ^ 24 < X /\ - 2 ^ 24 < Y /\
  cols g * sw g < 2 ^ 24 /\ rows g * sh g < 2 ^ 24 /\
  X + cols g * sw g < 2 ^ 24 /\ Y + rows g * sh g < 2 ^ 24.

(** The horizontal line number [k], from the left border to the right
    one, and the vertical line number [k], from the top to the bottom. *)
Definition hline (g : grid_t) (X Y k : Z) : call :=
  Stds_DrawLine (F32.of_int X) (F32.of_int (Y + k * sh g))
    (F32.of_int (X + cols g * sw g)) (F32.of_int (Y + k * sh g))
    (lineColor g).

Definition vline (g : grid_t) (X Y k : Z) : call :=
  Stds_DrawLine (F32.of_int (X + k * sw g)) (F32.of_int Y)
    (F32.of_int (X + k * sw g)) (F32.of_int (Y + rows g * sh g))
    (lineColor g).

(** ** The vocabulary of the further properties *)

(** *** The grid over a program *)

(** What [Stds_CreateGrid] fixes and no call assigns again. *)
Definition same_geometry (g g' : grid_t) : Prop :=
  sx g' = sx g /\ sy g' = sy g /\ sw g' = sw g /\ sh g' = sh g /\
  cols g' = cols g /\ rows g' = rows g /\
  lineColor g' = lineColor g /\ fillColor g' = fillColor g /\
  isCameraOn g' = isCameraOn g.

(** The array of textures has as many slots as the capacity says, or it
    is [NULL] and the capacity is not positive. *)
Definition textures_consistent (g : grid_t) : Prop :=
  INT_MIN <= textureBuffer g <= INT_MAX /\
  match textures g with
  | Some l => Z.of_nat (length l) = textureBuffer g
  | None => textureBuffer g <= 0
  end.

(** The vector of animations is there and [animationBuffer] is the index
    of its last entry, as an [int32_t]. *)
Definition animations_consistent (g : grid_t) : Prop :=
  exists v, animation g = Some v /\
            animationBuffer g = to_i32 (Z.of_nat (length v) - 1).

(** The array of textures, when it is not [NULL], has as many slots as the
    capacity says.  The capacity of a [NULL] array is whatever was
    asked for: [Stds_InitializeGridTextures] stores it without a look at
    what [malloc] answered. *)
Definition textures_fit (g : grid_t) : Prop :=
  INT_MIN <= textureBuffer g <= INT_MAX /\
  forall l, textures g = Some l -> Z.of_nat (length l) = textureBuffer g.

(** The state of a grid between two calls: the cursor is on the start
    position, the array and the vector agree with their counters. *)
Definition grid_ok (g : grid_t) : Prop :=
  x g = sx g /\ y g = sy g /\ textures_fit g /\ animations_consistent g.

(** *** An allocation that can fail

    [malloc], for the array of [n] texture pointers: what it answers is
    not in the hands of the grid.  When it answers an array, the array
    has [n] slots; it may answer [NULL] for any count. *)
Definition allocator_sound
    (malloc : Z -> option (list (option SDL_Texture))) : Prop :=
  forall n l, malloc n = Some l -> Z.of_nat (length l) = n.

(** The allocator serves every positive count. *)
Definition allocator_serves
    (malloc : Z -> option (list (option SDL_Texture))) : Prop :=
  forall n, 0 < n -> is_Some (malloc n).

(** A [NULL] array goes with a capacity that lets no index through. *)
Definition textures_held (g : grid_t) : Prop :=
  textures g = None -> textureBuffer g <= 0.

(** [Stds_InitializeGridTextures] with the answer of [malloc] left open:
    the same statements, [malloc_textures] replaced by [malloc]. *)
Definition InitializeGridTextures_with
    (malloc : Z -> option (list (option SDL_Texture)))
    (grid : option grid_t) (textureBuffer0 : Z) : M (option grid_t) :=
  w <- get_world ;;
  if Stds_AssertGrid grid && negb (onceCall w) then
    g <- deref grid ;;
    let g := set_textures g (malloc textureBuffer0) (textureBuffer g) in
    let g := set_textures g (textures g) textureBuffer0 in
    put_world (set_onceCall w true) ;;
    ret (Some g)
  else ret grid.

(** The call made on another grid. *)
Definition retarget (c : grid_call) (grid : option grid_t) : grid_call :=
  match c with
  | Call_DrawLineGrid _ => Call_DrawLineGrid grid
  | Call_FillWholeGrid _ => Call_FillWholeGrid grid
  | Call_FreeGrid _ => Call_FreeGrid grid
  | Call_OnGridHover _ p => Call_OnGridHover grid p
  | Call_OnGridClicked _ mouseCode p => Call_OnGridClicked grid mouseCode p
  | Call_InitializeGridTextures _ n => Call_InitializeGridTextures grid n
  | Call_AddGridTexture _ path => Call_AddGridTexture grid path
  | Call_PutGridTexture _ col row index flip0 angle0 =>
      Call_PutGridTexture grid col row index flip0 angle0
  | Call_AddSpriteSheetToGrid _ path cols0 rows0 =>
      Call_AddSpriteSheetToGrid grid path cols0 rows0
  | Call_SelectSpriteForGrid _ sheetCol sheetRow =>
      Call_SelectSpriteForGrid grid sheetCol sheetRow
  | Call_DrawSelectedSpriteOnGrid _ gridCol gridRow flip0 angle0 =>
      Call_DrawSelectedSpriteOnGrid grid gridCol gridRow flip0 angle0
  | Call_AddAnimationToGrid _ animate => Call_AddAnimationToGrid grid animate
  | Call_RenderAnimationToGrid _ col row index flip0 angle0 =>
      Call_RenderAnimationToGrid grid col row index flip0 angle0
  | Call_AddCollisionToGrid _ col row => Call_AddCollisionToGrid grid col row
  end.

(** The call made, and the grid as the call leaves it: nothing of it
    after [Stds_FreeGrid]. *)
Definition call_grid (c : grid_call) : M (option grid_t) :=
  match c with
  | Call_DrawLineGrid grid => Stds_DrawLineGrid grid
  | Call_FillWholeGrid grid => Stds_FillWholeGrid grid
  | Call_FreeGrid grid => Stds_FreeGrid grid ;; ret None
  | Call_OnGridHover grid p => r <- Stds_OnGridHover grid p ;; ret (snd r)
  | Call_OnGridClicked grid mouseCode p =>
      r <- Stds_OnGridClicked grid mouseCode p ;; ret (snd r)
  | Call_InitializeGridTextures grid n => Stds_InitializeGridTextures grid n
  | Call_AddGridTexture grid path => r <- Stds_AddGridTexture grid path ;; ret (snd r)
  | Call_PutGridTexture grid col row index flip0 angle0 =>
      Stds_PutGridTexture grid col row index flip0 angle0
  | Call_AddSpriteSheetToGrid grid path cols0 rows0 =>
      Stds_AddSpriteSheetToGrid grid path cols0 rows0
  | Call_SelectSpriteForGrid grid sheetCol sheetRow =>
      Stds_SelectSpriteForGrid grid sheetCol sheetRow
  | Call_DrawSelectedSpriteOnGrid grid gridCol gridRow flip0 angle0 =>
      Stds_DrawSelectedSpriteOnGrid grid gridCol gridRow flip0 angle0
  | Call_AddAnimationToGrid grid animate =>
      r <- Stds_AddAnimationToGrid grid animate ;; ret (snd r)
  | Call_RenderAnimationToGrid grid col row index flip0 angle0 =>
      Stds_RenderAnimationToGrid grid col row index flip0 angle0
  | Call_AddCollisionToGrid grid col row => Stds_AddCollisionToGrid grid col row
  end.

(** A program on one grid: every call is made on the grid as the call
    before left it. *)
Fixpoint run_on (cs : list grid_call) (grid : option grid_t)
    : M (option grid_t) :=
  match cs with
  | [] => ret grid
  | c :: rest => grid' <- call_grid (retarget c grid) ;; run_on rest grid'
  end.

(** The same with the answer of [malloc] left open. *)
Definition call_grid_with (malloc : Z -> option (list (option SDL_Texture)))
    (c : grid_call) : M (option grid_t) :=
  match c with
  | Call_InitializeGridTextures grid n =>
      InitializeGridTextures_with malloc grid n
  | _ => call_grid c
  end.

Fixpoint run_on_with (malloc : Z -> option (list (option SDL_Texture)))
    (cs : list grid_call) (grid : option grid_t) : M (option grid_t) :=
  match cs with
  | [] => ret grid
  | c :: rest =>
      grid' <- call_grid_with malloc (retarget c grid) ;;
      run_on_with malloc rest grid'
  end.

(** The capacity given to [Stds_InitializeGridTextures] is an [int32_t]. *)
Definition typed_call (c : grid_call) : Prop :=
  match c with
  | Call_InitializeGridTextures _ n => INT_MIN <= n <= INT_MAX
  | _ => True
  end.

Definition is_free (c : grid_call) : Prop :=
  match c with Call_FreeGrid _ => True | _ => False end.

(** *** The teardown *)

(** The calls of [Stds_FreeGrid]: every slot of the array, the sheet if
    there is one, the vector. *)
Definition free_calls (g : grid_t) : list call :=
  map SDL_DestroyTexture (default [] (textures g)) ++
  (if spriteSheet g =? NULL then []
   else [SDL_DestroyTexture (Some (spriteSheet g))]) ++
  [Stds_VectorDestroy (animation g)].

(** *** The cells on the screen *)

(** The rectangle that fills the cell of column [c] and row [r] of a grid
    that starts on the pixel (X, Y). *)
Definition cell_frect (g : grid_t) (X Y c r : Z) : SDL_FRect :=
  {| frect_x := F32.of_int (X + c * sw g);
     frect_y := F32.of_int (Y + r * sh g);
     frect_w := F32.of_int (sw g);
     frect_h := F32.of_int (sh g) |}.

Definition cell_fill (g : grid_t) (X Y c r : Z) : call :=
  Stds_DrawRectF (cell_frect g X Y c r) (fillColor g) true 0.

(** A texture drawn on a rectangle. *)
Definition blit_on (g : grid_t) (t : option SDL_Texture)
    (cl : option SDL_Rect) (rect : SDL_FRect) (flip0 : SDL_RendererFlip)
    (angle0 : Z) : call :=
  Stds_BlitTexture t cl (frect_x rect) (frect_y rect) (frect_w rect)
    (frect_h rect) angle0 flip0 None (isCameraOn g).

(** The rectangle that the calls that draw on a cell compute: the cursor
    moved by [col] widths and [row] heights, in [uint32_t] and then in
    [float]. *)
Definition cursor_frect (g : grid_t) (col row : Z) : SDL_FRect :=
  {| frect_x := F32.add (x g) (F32.of_int (u32_mul col (sw g)));
     frect_y := F32.add (y g) (F32.of_int (u32_mul row (sh g)));
     frect_w := F32.of_int (sw g);
     frect_h := F32.of_int (sh g) |}.

(** The tile of column [c] and row [r] of a sheet of W by H pixels cut in
    C by R tiles. *)
Definition tile (W H C R c r : Z) : SDL_Rect :=
  {| rect_x := c * (W / C); rect_y := r * (H / R);
     rect_w := W / C; rect_h := H / R |}.

(** *** Animations *)

(** A sequence of calls of [Stds_AddAnimationToGrid] on one grid. *)
Fixpoint add_animations (animates : list Z) (grid : option grid_t)
    : M (list Z * option grid_t) :=
  match animates with
  | [] => ret ([], grid)
  | animate :: rest =>
      r <- Stds_AddAnimationToGrid grid animate ;;
      rs <- add_animations rest (snd r) ;;
      ret (fst r :: fst rs, snd rs)
  end.

(** What the grid relies on from [Stds_VectorGet]: within the vector it
    answers the entry of the index. *)
Definition vector_get_sound : Prop :=
  forall (v : list Z) (i : nat) (a : Z),
    v !! i = Some a -> Stds_VectorGet v (Z.of_nat i) = a.

(** *** The resolvers *)

(** Some cell of the grid is under the pointer. *)
Definition over_some (g : grid_t) (m : mouse_t) : Prop :=
  exists c r, 0 <= c < cols g /\ 0 <= r < rows g /\ over g m c r = true.

(** The pair is that of a cell under the pointer, with the corner of its
    rectangle. *)
Definition names_cell (g : grid_t) (m : mouse_t) (q : grid_pair_t) : Prop :=
  exists c r, 0 <= c < cols g /\ 0 <= r < rows g /\
    over g m c r = true /\
    p_c q = to_i32 c /\ p_r q = to_i32 r /\
    p_x q = F32.of_int (rect_x (cell_rect g c r)) /\
    p_y q = F32.of_int (rect_y (cell_rect g c r)).

(** The calls that reach nothing but the grid and what it owns: not the
    click, which indexes the buttons by the code of its caller, not the
    rendering of an animation, which follows a pointer of the vector, not
    the teardown; the tile counts of a sheet are not zero, and the
    capacity is an [int32_t] above [INT_MIN]. *)
Definition guarded_call (c : grid_call) : Prop :=
  match c with
  | Call_OnGridClicked _ _ _ => False
  | Call_RenderAnimationToGrid _ _ _ _ _ _ => False
  | Call_FreeGrid _ => False
  | Call_AddSpriteSheetToGrid _ _ cols0 rows0 =>
      to_u32 cols0 <> 0 /\ to_u32 rows0 <> 0
  | Call_InitializeGridTextures _ n => INT_MIN < n <= INT_MAX
  | _ => True
  end.

(** *** The calls of the passes *)

(** A line in the colour [col]; a filled rectangle of the size of a cell
    in the fill colour. *)
Definition is_line (col : SDL_Color) (c : call) : Prop :=
  exists x1 y1 x2 y2, c = Stds_DrawLine x1 y1 x2 y2 col.

Definition is_cell_fill (g : grid_t) (c : call) : Prop :=
  exists rect,
    c = Stds_DrawRectF rect (fillColor g) true 0 /\
    frect_w rect = F32.of_int (sw g) /\ frect_h rect = F32.of_int (sh g).

(** The fills of the cells, row after row. *)
Definition cell_fills (g : grid_t) (X Y : Z) : list call :=
  flat_map (fun r => map (fun c => cell_fill g X Y c r) (seqZ 0 (cols g)))
    (seqZ 0 (rows g)).

(** The code names no button of the array. *)
Definition unknown_button (w : world) (mouseCode : Z) : Prop :=
  mouseCode < 0 \/ Z.of_nat (length (button (mouse w))) <= mouseCode.

(** ** Properties *)

Lemma after_calls_nil w : after_calls w [] = w.
Proof. destruct w; unfold after_calls, set_trace; simpl. by rewrite app_nil_r. Qed.

Lemma after_calls_app w cs ds :
  after_calls (after_calls w cs) ds = after_calls w (cs ++ ds).
Proof. unfold after_calls, set_trace; simpl. by rewrite app_assoc. Qed.

Lemma bind_Ok {A B} (m : M A) (k : A -> M B) w a w' :
  m w = Ok a w' -> bind m k w = k a w'.
Proof. intros H. unfold bind. by rewrite H. Qed.

Lemma bind_ext {A B} (m : M A) (k1 k2 : A -> M B) w :
  (forall a w', k1 a w' = k2 a w') -> bind m k1 w = bind m k2 w.
Proof. intros H. unfold bind. destruct (m w); [apply H|reflexivity]. Qed.

Lemma emit_after c w : emit c w = Ok tt (after_calls w [c]).
Proof. reflexivity. Qed.

(** *** The latch and the guard on the pointer *)

Lemma InitializeGridTextures_latched grid n w :
  onceCall w = true -> Stds_InitializeGridTextures grid n w = Ok grid w.
Proof.
  intros H. unfold Stds_InitializeGridTextures, bind, get_world.
  rewrite H, andb_false_r. reflexivity.
Qed.

Lemma initialize_all_latched calls w :
  onceCall w = true -> initialize_all calls w = Ok (map fst calls) w.
Proof.
  intros H. induction calls as [|[grid n] rest IH]; simpl; [reflexivity|].
  rewrite (bind_Ok _ _ _ _ _ (InitializeGridTextures_latched grid n w H)).
  rewrite (bind_Ok _ _ _ _ _ IH). reflexivity.
Qed.

(** No statement of the grid opens the latch. *)

Lemma keeps_ret {A} (a : A) : keeps_latch (ret a).
Proof. by intros w a' w' [= _ <-]. Qed.

Lemma keeps_fault {A} : keeps_latch (@fault A).
Proof. intros w a w' H. discriminate. Qed.

Lemma keeps_bind {A B} (m : M A) (k : A -> M B) :
  keeps_latch m -> (forall a, keeps_latch (k a)) -> keeps_latch (bind m k).
Proof.
  intros Hm Hk w b w' H Hw. unfold bind in H.
  destruct (m w) as [a w1|] eqn:E; [|discriminate].
  eapply Hk; [exact H|]. eapply Hm; [exact E|exact Hw].
Qed.

Lemma keeps_emit c : keeps_latch (emit c).
Proof. by intros w a w' [= _ <-]. Qed.

Lemma keeps_get_world : keeps_latch get_world.
Proof. by intros w a w' [= _ <-]. Qed.

Lemma keeps_deref grid : keeps_latch (deref grid).
Proof. destruct grid; [apply keeps_ret|apply keeps_fault]. Qed.

Lemma keeps_array_get {A} (a : option (list A)) i : keeps_latch (array_get a i).
Proof.
  unfold array_get. destruct a as [l|]; [|apply keeps_fault].
  destruct (0 <=? i); [|apply keeps_fault].
  destruct (l !! Z.to_nat i); [apply keeps_ret|apply keeps_fault].
Qed.

Lemma keeps_array_set {A} (a : option (list A)) i v :
  keeps_latch (array_set a i v).
Proof.
  unfold array_set. destruct a as [l|]; [|apply keeps_fault].
  destruct (_ && _); [apply keeps_ret|apply keeps_fault].
Qed.

Lemma keeps_button_get mouseCode : keeps_latch (button_get mouseCode).
Proof.
  apply keeps_bind; [apply keeps_get_world|]. intros w. apply keeps_array_get.
Qed.

Lemma keeps_button_clear mouseCode : keeps_latch (button_clear mouseCode).
Proof.
  intros w a w' H Hw. unfold button_clear, bind, get_world in H.
  destruct (array_set _ mouseCode 0 w) as [[b|] w1|] eqn:E; try discriminate.
  pose proof (keeps_array_set _ _ _ _ _ _ E Hw) as Hw1.
  by injection H as _ <-.
Qed.

Lemma keeps_anim_load editAnim : keeps_latch (anim_load editAnim).
Proof.
  apply keeps_bind; [apply keeps_get_world|]. intros w.
  destruct (anims w !! editAnim); [apply keeps_ret|apply keeps_fault].
Qed.

Lemma keeps_anim_store editAnim a : keeps_latch (anim_store editAnim a).
Proof. by intros w u w' [= _ <-]. Qed.

Lemma keeps_InitializeGridTextures grid n :
  keeps_latch (Stds_InitializeGridTextures grid n).
Proof.
  intros w a w' H Hw.
  rewrite (InitializeGridTextures_latched grid n w Hw) in H.
  by injection H as _ <-.
Qed.

Create HintDb latch.
#[local] Hint Resolve keeps_ret keeps_fault keeps_emit keeps_get_world keeps_deref
  keeps_array_get keeps_array_set keeps_button_get keeps_button_clear
  keeps_anim_load keeps_anim_store keeps_InitializeGridTextures : latch.

(** The statements of a body, one after the other. *)
Ltac keeps_step :=
  match goal with
  | |- keeps_latch (bind _ _) => apply keeps_bind; [|intros ?]
  | |- keeps_latch (if ?b then _ else _) => destruct b
  | |- keeps_latch (match ?x with _ => _ end) => destruct x
  | |- keeps_latch (let _ := _ in _) => cbv zeta
  | |- keeps_latch _ => solve [auto with latch]
  end.

Lemma keeps_DrawLineGrid_rows n : forall g, keeps_latch (DrawLineGrid_rows n g).
Proof. induction n; intros g; cbn [DrawLineGrid_rows]; repeat keeps_step; auto. Qed.

Lemma keeps_DrawLineGrid_cols n : forall g, keeps_latch (DrawLineGrid_cols n g).
Proof. induction n; intros g; cbn [DrawLineGrid_cols]; repeat keeps_step; auto. Qed.

Lemma keeps_FillWholeGrid_cols n : forall g r, keeps_latch (FillWholeGrid_cols n g r).
Proof. induction n; intros g r; cbn [FillWholeGrid_cols]; repeat keeps_step; auto. Qed.

Lemma keeps_FillWholeGrid_rows n : forall g r, keeps_latch (FillWholeGrid_rows n g r).
Proof.
  induction n; intros g r; cbn [FillWholeGrid_rows]; repeat keeps_step; auto.
  apply keeps_FillWholeGrid_cols.
Qed.

Lemma keeps_FreeGrid_textures n : forall i g, keeps_latch (FreeGrid_textures n i g).
Proof. induction n; intros i g; cbn [FreeGrid_textures]; repeat keeps_step; auto. Qed.

Lemma keeps_OnGridClicked_cols n : forall c g mouseCode rect p,
  keeps_latch (OnGridClicked_cols n c g mouseCode rect p).
Proof.
  induction n; intros c g mouseCode rect p; cbn [OnGridClicked_cols];
    repeat keeps_step; auto.
Qed.

Lemma keeps_OnGridClicked_rows n : forall r g mouseCode rect p,
  keeps_latch (OnGridClicked_rows n r g mouseCode rect p).
Proof.
  induction n; intros r g mouseCode rect p; cbn [OnGridClicked_rows];
    repeat keeps_step; auto.
  apply keeps_OnGridClicked_cols.
Qed.

#[local] Hint Resolve keeps_DrawLineGrid_rows keeps_DrawLineGrid_cols
  keeps_FillWholeGrid_rows keeps_FreeGrid_textures keeps_OnGridClicked_rows
  : latch.

Lemma keeps_run_call c : keeps_latch (run_call c).
Proof.
  destruct c; cbn [run_call];
    unfold Stds_DrawLineGrid, Stds_FillWholeGrid, Stds_FreeGrid,
      Stds_OnGridHover, Stds_OnGridClicked, Stds_AddGridTexture,
      Stds_PutGridTexture, Stds_AddSpriteSheetToGrid, Stds_SelectSpriteForGrid,
      Stds_DrawSelectedSpriteOnGrid, Stds_AddAnimationToGrid, Stds_VectorAppend,
      Stds_RenderAnimationToGrid, Stds_AddCollisionToGrid;
    repeat keeps_step.
Qed.

Lemma keeps_run_calls cs : keeps_latch (run_calls cs).
Proof.
  induction cs as [|c rest IH]; cbn [run_calls]; [apply keeps_ret|].
  apply keeps_bind; [apply keeps_run_call|intros _; exact IH].
Qed.

(** C4: the first call of [Stds_InitializeGridTextures] on a grid that is
    not [NULL] allocates the array, sets the capacity and closes the latch
    [onceCall]; after it every call, on this grid or on any other one,
    leaves the grid it is given (array and capacity included) and the world
    as they are, and so it is after any further calls of the grid
    functions: nothing opens the latch again. *)
Theorem InitializeGridTextures_once (g : grid_t) (n : Z) (w : world) :
  onceCall w = false ->
  exists g1 w1,
    Stds_InitializeGridTextures (Some g) n w = Ok (Some g1) w1 /\
    textures g1 = malloc_textures n /\
    textureBuffer g1 = n /\
    onceCall w1 = true /\
    (forall grid m, Stds_InitializeGridTextures grid m w1 = Ok grid w1) /\
    (forall calls, initialize_all calls w1 = Ok (map fst calls) w1) /\
    (forall cs w2, run_calls cs w1 = Ok tt w2 ->
       forall grid m, Stds_InitializeGridTextures grid m w2 = Ok grid w2).
Proof.
  intros H.
  exists (set_textures g (malloc_textures n) n), (set_onceCall w true).
  split.
  { unfold Stds_InitializeGridTextures, bind, get_world. rewrite H. reflexivity. }
  repeat split.
  - intros grid m. by apply InitializeGridTextures_latched.
  - intros calls. by apply initialize_all_latched.
  - intros cs w2 Hrun grid m. apply InitializeGridTextures_latched.
    by apply (keeps_run_calls cs _ _ _ Hrun).
Qed.

(** C10: on the [NULL] grid every operation but the teardown changes
    nothing and answers its sentinel: -1 for the calls that answer an
    index, the pair (-1, -1) for the resolvers, nothing for the others.
    [Stds_FreeGrid] has no guard and dereferences [NULL]. *)
Theorem null_grid_guarded (w : world) :
  Stds_DrawLineGrid None w = Ok None w /\
  Stds_FillWholeGrid None w = Ok None w /\
  (forall p, Stds_OnGridHover None p w = Ok (set_pair_cr p (-1) (-1), None) w) /\
  (forall code p,
     Stds_OnGridClicked None code p w = Ok (set_pair_cr p (-1) (-1), None) w) /\
  (forall n, Stds_InitializeGridTextures None n w = Ok None w) /\
  (forall path, Stds_AddGridTexture None path w = Ok (-1, None) w) /\
  (forall c r i f a, Stds_PutGridTexture None c r i f a w = Ok None w) /\
  (forall path c r, Stds_AddSpriteSheetToGrid None path c r w = Ok None w) /\
  (forall c r, Stds_SelectSpriteForGrid None c r w = Ok None w) /\
  (forall c r f a, Stds_DrawSelectedSpriteOnGrid None c r f a w = Ok None w) /\
  (forall animate, Stds_AddAnimationToGrid None animate w = Ok (-1, None) w) /\
  (forall c r i f a, Stds_RenderAnimationToGrid None c r i f a w = Ok None w) /\
  (forall c r, Stds_AddCollisionToGrid None c r w = Ok None w) /\
  Stds_FreeGrid None w = Fault.
Proof.
  repeat split; try reflexivity.
  intros animate. unfold Stds_AddAnimationToGrid.
  destruct (animate =? NULL); reflexivity.
Qed.

(** *** Machine integers in their range *)

Lemma to_i32_small z : INT_MIN <= z <= INT_MAX -> to_i32 z = z.
Proof.
  unfold to_i32, INT_MIN, INT_MAX. intros H.
  rewrite Z.mod_small by lia. lia.
Qed.

Lemma to_u32_small z : 0 <= z <= UINT_MAX -> to_u32 z = z.
Proof. unfold to_u32, UINT_MAX. intros H. apply Z.mod_small. lia. Qed.

Lemma to_i32_add_l a b : to_i32 (to_i32 a + b) = to_i32 (a + b).
Proof.
  unfold to_i32.
  replace ((a + 2 ^ 31) mod 2 ^ 32 - 2 ^ 31 + b + 2 ^ 31)
    with ((a + 2 ^ 31) mod 2 ^ 32 + b) by lia.
  rewrite Zplus_mod_idemp_l. do 2 f_equal. lia.
Qed.

Lemma u32_mul_small a b :
  0 <= a -> 0 <= b -> a * b <= UINT_MAX -> u32_mul a b = a * b.
Proof.
  intros Ha Hb Hab. unfold u32_mul.
  destruct (Z.eq_dec a 0) as [->|Ha0]; [reflexivity|].
  destruct (Z.eq_dec b 0) as [->|Hb0].
  { change (to_u32 0) with 0. by rewrite !Z.mul_0_r. }
  assert (a <= UINT_MAX) by nia. assert (b <= UINT_MAX) by nia.
  rewrite (to_u32_small a), (to_u32_small b) by lia.
  apply to_u32_small. lia.
Qed.

(** *** Textures *)

Lemma InitializeGridTextures_allocates (g : grid_t) (n : Z) :
  0 <= n <= INT_MAX ->
  textures_allocated (set_textures g (malloc_textures n) n)
    (replicate (Z.to_nat n) None).
Proof.
  intros H. unfold textures_allocated, malloc_textures; simpl.
  destruct (Z.leb_spec 0 n); [|lia].
  rewrite length_replicate. repeat split; lia.
Qed.

Lemma AddGridTexture_first_slot g l path w :
  textures_allocated g l -> 0 < textureBuffer g ->
  Stds_AddGridTexture (Some g) path w =
    Ok (0, Some (set_textures g
                   (Some (<[0%nat := Some (Stds_LoadTexture path)]> l))
                   (textureBuffer g))) w.
Proof.
  intros (Ht & Hl & Hmax) Hpos.
  unfold Stds_AddGridTexture; simpl. unfold bind at 1; simpl.
  unfold i32_sub. rewrite to_i32_small by (unfold INT_MIN; lia).
  destruct (Z.ltb_spec (-1) (textureBuffer g - 1)); [|lia].
  change (i32_add (-1) 1) with 0.
  unfold bind, array_set. rewrite Ht.
  destruct (Z.ltb_spec 0 (Z.of_nat (length l))); [|lia].
  reflexivity.
Qed.

Lemma add_textures_all_zero paths : forall g l path w,
  textures_allocated g l -> 0 < textureBuffer g ->
  add_textures (paths ++ [path]) (Some g) w =
    Ok (map (fun _ => 0) (paths ++ [path]),
        Some (set_textures g
                (Some (<[0%nat := Some (Stds_LoadTexture path)]> l))
                (textureBuffer g))) w.
Proof.
  induction paths as [|q rest IH]; intros g l path w Hal Hpos; simpl.
  - rewrite (bind_Ok _ _ _ _ _ (AddGridTexture_first_slot g l path w Hal Hpos)).
    reflexivity.
  - rewrite (bind_Ok _ _ _ _ _ (AddGridTexture_first_slot g l q w Hal Hpos)).
    simpl.
    set (g1 := set_textures g _ _).
    assert (Hal1 : textures_allocated g1 (<[0%nat := Some (Stds_LoadTexture q)]> l)).
    { destruct Hal as (Ht & Hl & Hmax). unfold textures_allocated, g1; simpl.
      rewrite length_insert. auto. }
    rewrite (bind_Ok _ _ _ _ _ (IH g1 _ path w Hal1 Hpos)). simpl.
    unfold g1; simpl. rewrite list_insert_insert_eq. reflexivity.
Qed.


(** *** The sprite sheet *)

Lemma tile_size_small W n : 0 <= W <= INT_MAX -> 0 < n ->
  0 <= W / n <= INT_MAX.
Proof.
  intros HW Hn. split; [apply Z.div_pos; lia|].
  transitivity W; [|lia]. apply Z.div_le_upper_bound; nia.
Qed.

Lemma u32_div_small W n : 0 <= W <= INT_MAX -> 0 < n <= UINT_MAX ->
  to_i32 (u32_div W n) = W / n.
Proof.
  intros HW Hn. unfold u32_div.
  rewrite (to_u32_small W), (to_u32_small n)
    by (unfold UINT_MAX, INT_MAX in *; lia).
  apply to_i32_small. pose proof (tile_size_small W n HW).
  unfold INT_MIN, INT_MAX in *. lia.
Qed.

(** Every call that does not fault loads the texture again and assigns the
    handle, the tile size and the tile counts. *)
Lemma AddSpriteSheetToGrid_assigns g path c r w W H :
  SDL_QueryTexture (Stds_LoadTexture path) = Some (W, H) ->
  0 <= W <= INT_MAX -> 0 <= H <= INT_MAX ->
  0 < c <= UINT_MAX -> 0 < r <= UINT_MAX ->
  Stds_AddSpriteSheetToGrid (Some g) path c r w =
    Ok (Some (set_sheet g (Stds_LoadTexture path)
                {| rect_x := rect_x (clip g); rect_y := rect_y (clip g);
                   rect_w := W / c; rect_h := H / r |} c r)) w.
Proof.
  intros HQ HW HH Hc Hr.
  unfold Stds_AddSpriteSheetToGrid; simpl. unfold bind at 1; simpl.
  rewrite HQ; simpl.
  rewrite (to_u32_small c), (to_u32_small r) by lia.
  destruct (Z.eqb_spec c 0); [lia|]. destruct (Z.eqb_spec r 0); [lia|].
  rewrite !u32_div_small by lia. reflexivity.
Qed.

Lemma AddSpriteSheetToGrid_attaches g path c r w W H :
  SDL_QueryTexture (Stds_LoadTexture path) = Some (W, H) ->
  0 <= W <= INT_MAX -> 0 <= H <= INT_MAX ->
  0 < c <= UINT_MAX -> 0 < r <= UINT_MAX ->
  exists g', Stds_AddSpriteSheetToGrid (Some g) path c r w = Ok (Some g') w /\
             sheet_attached g'.
Proof.
  intros HQ HW HH Hc Hr. eexists. split.
  - by eapply AddSpriteSheetToGrid_assigns.
  - exists W, H. simpl. repeat split; auto; lia.
Qed.

Lemma tile_origin_small W n c : 0 <= W <= INT_MAX -> 0 < n -> 0 <= c < n ->
  0 <= c * (W / n) <= INT_MAX.
Proof.
  intros HW Hn Hc. pose proof (tile_size_small W n HW Hn).
  split; [nia|].
  assert (n * (W / n) <= W) by (apply Z.mul_div_le; lia).
  nia.
Qed.

(** C6: on a grid with a sprite sheet attached, [Stds_SelectSpriteForGrid]
    with a column and a row of the sheet puts the origin of the clip at
    (column * clip width, row * clip height) and changes nothing else;
    with a column or a row beyond the sheet the grid is as it was. *)
Theorem SelectSpriteForGrid_clip_origin (g : grid_t) (c r : Z) (w : world) :
  (sheet_attached g ->
   0 <= c < spriteSheetCols g -> 0 <= r < spriteSheetRows g ->
   Stds_SelectSpriteForGrid (Some g) c r w =
     Ok (Some (set_clip g
                 {| rect_x := c * rect_w (clip g);
                    rect_y := r * rect_h (clip g);
                    rect_w := rect_w (clip g);
                    rect_h := rect_h (clip g) |})) w) /\
  (spriteSheetCols g <= c \/ spriteSheetRows g <= r ->
   Stds_SelectSpriteForGrid (Some g) c r w = Ok (Some g) w).
Proof.
  split.
  - intros (W & H & HW & HH & HC & HR & Hw & Hh) Hc Hr.
    unfold Stds_SelectSpriteForGrid; simpl. unfold bind, deref, ret; simpl.
    destruct (Z.ltb_spec c (spriteSheetCols g)); [|lia].
    destruct (Z.ltb_spec r (spriteSheetRows g)); [|lia]. simpl.
    pose proof (tile_size_small W _ HW (proj1 HC)).
    pose proof (tile_size_small H _ HH (proj1 HR)).
    pose proof (tile_origin_small W _ c HW (proj1 HC) Hc).
    pose proof (tile_origin_small H _ r HH (proj1 HR) Hr).
    rewrite <- Hw in *. rewrite <- Hh in *.
    rewrite !u32_mul_small by (unfold UINT_MAX, INT_MAX in *; lia).
    rewrite !to_i32_small by (unfold INT_MIN, INT_MAX in *; lia).
    reflexivity.
  - intros Hout. unfold Stds_SelectSpriteForGrid; simpl.
    unfold bind, deref, ret; simpl.
    destruct (Z.ltb_spec c (spriteSheetCols g)); simpl; [|reflexivity].
    destruct (Z.ltb_spec r (spriteSheetRows g)); simpl; [lia|reflexivity].
Qed.

(** *** Animations *)

Lemma snoc_neq {A} (l : list A) (a : A) : l ++ [a] <> l.
Proof.
  intros H. apply (f_equal length) in H.
  rewrite length_app in H. simpl in H. lia.
Qed.

(** C9: once the grid, the vector and the cell have passed the guards,
    [Stds_RenderAnimationToGrid] dereferences whatever pointer the vector
    answers for the index, and no relation between the index and the size
    of the vector is asked for.  If the pointer designates no animation
    the call faults; if it does, the animation is placed, drawn, and then
    advanced.  In no case is the call a guarded no-op, whereas
    [Stds_PutGridTexture] is one when its index is out of the range of
    the textures. *)
Theorem RenderAnimationToGrid_index_unchecked (g : grid_t) (v : list Z)
    (col row index : Z) (flip0 : SDL_RendererFlip) (angle0 : Z) (w : world) :
  animation g = Some v -> col < cols g -> row < rows g ->
  (anims w !! Stds_VectorGet v index = None ->
     Stds_RenderAnimationToGrid (Some g) col row index flip0 angle0 w = Fault) /\
  (forall a, anims w !! Stds_VectorGet v index = Some a ->
     exists w',
       Stds_RenderAnimationToGrid (Some g) col row index flip0 angle0 w
         = Ok (Some g) w' /\
       trace w' = trace w ++ [Stds_AnimationDraw (placed g col row flip0 angle0 a)] /\
       anims w' !! Stds_VectorGet v index
         = Some (Stds_AnimationUpdate (placed g col row flip0 angle0 a))) /\
  Stds_RenderAnimationToGrid (Some g) col row index flip0 angle0 w
    <> Ok (Some g) w /\
  (index <= -1 \/ textureBuffer g <= index ->
     Stds_PutGridTexture (Some g) col row index flip0 angle0 w = Ok (Some g) w).
Proof.
  intros Hv Hc Hr.
  assert (Hrun : Stds_RenderAnimationToGrid (Some g) col row index flip0 angle0 w =
            match anims w !! Stds_VectorGet v index with
            | Some a =>
                Ok (Some g)
                  (set_anims
                     (after_calls
                        (set_anims w (<[Stds_VectorGet v index :=
                                         placed g col row flip0 angle0 a]> (anims w)))
                        [Stds_AnimationDraw (placed g col row flip0 angle0 a)])
                     (<[Stds_VectorGet v index :=
                         Stds_AnimationUpdate (placed g col row flip0 angle0 a)]>
                        (<[Stds_VectorGet v index :=
                            placed g col row flip0 angle0 a]> (anims w))))
            | None => Fault
            end).
  { unfold Stds_RenderAnimationToGrid; simpl. unfold bind at 1; simpl.
    rewrite Hv.
    destruct (Z.ltb_spec col (cols g)); [|lia].
    destruct (Z.ltb_spec row (rows g)); [|lia]. simpl.
    unfold bind at 1. unfold anim_load, bind, get_world.
    destruct (anims w !! Stds_VectorGet v index); reflexivity. }
  repeat split.
  - intros Hnone. rewrite Hrun, Hnone. reflexivity.
  - intros a Ha. rewrite Hrun, Ha. eexists. split; [reflexivity|]. simpl.
    split; [reflexivity|]. apply lookup_insert_eq.
  - rewrite Hrun. destruct (anims w !! Stds_VectorGet v index); [|discriminate].
    intros Heq. injection Heq as Heq. apply (f_equal trace) in Heq.
    simpl in Heq. by apply snoc_neq in Heq.
  - intros Hout. unfold Stds_PutGridTexture; simpl. unfold bind at 1; simpl.
    destruct (Z.ltb_spec index (textureBuffer g)); simpl; [|reflexivity].
    destruct (Z.ltb_spec (-1) index); [lia|reflexivity].
Qed.

(** *** The drawing passes *)

Lemma advance_S n v d :
  advance (S n) v d = advance n (F32.add v (F32.of_int d)) d.
Proof. unfold advance. by rewrite Nat.iter_succ_r. Qed.

Lemma DrawLineGrid_rows_run n : forall g w,
  DrawLineGrid_rows n g w =
    Ok (set_y g (advance n (y g) (sh g))) (after_calls w (row_lines n g)).
Proof.
  induction n as [|n IH]; intros g w; simpl.
  - rewrite after_calls_nil. by destruct g.
  - unfold bind at 1. rewrite emit_after, IH, after_calls_app, advance_S.
    reflexivity.
Qed.

Lemma DrawLineGrid_cols_run n : forall g w,
  DrawLineGrid_cols n g w =
    Ok (set_x g (advance n (x g) (sw g))) (after_calls w (col_lines n g)).
Proof.
  induction n as [|n IH]; intros g w; simpl.
  - rewrite after_calls_nil. by destruct g.
  - unfold bind at 1. rewrite emit_after, IH, after_calls_app, advance_S.
    reflexivity.
Qed.

Lemma DrawLineGrid_run g w :
  Stds_DrawLineGrid (Some g) w = Ok (Some (rewound g)) (after_calls w (line_calls g)).
Proof.
  unfold Stds_DrawLineGrid; simpl. unfold bind at 1; simpl.
  unfold bind at 1. rewrite DrawLineGrid_rows_run; simpl.
  unfold bind at 1. rewrite DrawLineGrid_cols_run; simpl.
  unfold bind, emit, ret; simpl.
  unfold line_calls, after_calls, set_trace; simpl.
  rewrite <- !app_assoc. reflexivity.
Qed.

Lemma FillWholeGrid_cols_run n : forall g fillRect w,
  FillWholeGrid_cols n g fillRect w =
    Ok (set_frect_x fillRect (advance n (frect_x fillRect) (sw g)))
       (after_calls w (fill_cols_calls n g fillRect)).
Proof.
  induction n as [|n IH]; intros g fillRect w; simpl.
  - rewrite after_calls_nil. by destruct fillRect.
  - unfold bind at 1. rewrite emit_after, IH, after_calls_app, advance_S.
    reflexivity.
Qed.

Lemma FillWholeGrid_rows_run n : forall g fillRect w,
  exists fillRect',
    FillWholeGrid_rows n g fillRect w =
      Ok fillRect' (after_calls w (fill_rows_calls n g fillRect)).
Proof.
  induction n as [|n IH]; intros g fillRect w; simpl.
  - exists fillRect. by rewrite after_calls_nil.
  - unfold bind at 1. rewrite FillWholeGrid_cols_run. simpl.
    edestruct IH as [r' Hr']. rewrite Hr'. exists r'.
    by rewrite after_calls_app.
Qed.

Lemma FillWholeGrid_run g w :
  Stds_FillWholeGrid (Some g) w = Ok (Some (rewound g)) (after_calls w (fill_calls g)).
Proof.
  unfold Stds_FillWholeGrid; simpl. unfold bind at 1; simpl.
  unfold bind at 1.
  edestruct FillWholeGrid_rows_run as [r' Hr']. rewrite Hr'. reflexivity.
Qed.

(** *** The resolvers *)

Lemma to_int_range f : INT_MIN <= F32.to_int f <= INT_MAX.
Proof.
  unfold F32.to_int. destruct f as [s| | |s m e];
    try (unfold INT_MIN, INT_MAX; lia).
  cbv zeta.
  destruct (Z.leb_spec INT_MIN (cond_Zopp s (Z.shiftl (Z.pos m) e)));
    destruct (Z.leb_spec (cond_Zopp s (Z.shiftl (Z.pos m) e)) INT_MAX);
    simpl; unfold INT_MIN, INT_MAX in *; lia.
Qed.

Lemma cell_rect_origin g :
  {| rect_x := F32.to_int (sx g); rect_y := F32.to_int (sy g);
     rect_w := sw g; rect_h := sh g |} = cell_rect g 0 0.
Proof.
  unfold cell_rect. rewrite !Z.mul_0_l, !Z.add_0_r.
  by rewrite !to_i32_small by apply to_int_range.
Qed.

Lemma cell_rect_right g c r :
  set_rect_x (cell_rect g c r) (i32_add (rect_x (cell_rect g c r)) (sw g))
  = cell_rect g (c + 1) r.
Proof.
  unfold cell_rect, set_rect_x, i32_add; simpl.
  rewrite to_i32_add_l. do 2 f_equal. lia.
Qed.

Lemma cell_rect_down g c r :
  set_rect_x
    (set_rect_y (cell_rect g c r) (i32_add (rect_y (cell_rect g c r)) (sh g)))
    (F32.to_int (sx g))
  = cell_rect g 0 (r + 1).
Proof.
  unfold cell_rect, set_rect_x, set_rect_y, i32_add; simpl.
  rewrite to_i32_add_l, Z.add_0_r.
  rewrite (to_i32_small (F32.to_int (sx g))) by apply to_int_range.
  do 2 f_equal. lia.
Qed.

(** One row of the scan: it returns at the first column of the row that
    the pointer is over, and goes through the row if there is none. *)
Lemma OnGridHover_cols_spec g m r n : forall c p,
  match OnGridHover_cols n c g m (cell_rect g c r) p with
  | inl q =>
      exists k, c <= k < c + Z.of_nat n /\
        over g m k r = true /\
        (forall j, c <= j < k -> over g m j r = false) /\
        q = set_pair_col p (to_i32 k) (F32.of_int (rect_x (cell_rect g k r)))
  | inr (rect', q) =>
      (forall j, c <= j < c + Z.of_nat n -> over g m j r = false) /\
      rect' = cell_rect g (c + Z.of_nat n) r /\
      p_r q = p_r p /\ p_y q = p_y p
  end.
Proof.
  induction n as [|n IH]; intros c p.
  - simpl. rewrite Z.add_0_r. repeat split. intros j Hj. lia.
  - cbn [OnGridHover_cols].
    destruct (Stds_IsMouseOverRect _ _ (cell_rect g c r)) eqn:E.
    + exists c. repeat split; [lia|lia|exact E|]. intros j Hj. lia.
    + rewrite cell_rect_right.
      specialize (IH (c + 1)
        (set_pair_col p (to_i32 c) (F32.of_int (rect_x (cell_rect g c r))))).
      destruct (OnGridHover_cols n (c + 1) g m (cell_rect g (c + 1) r) _)
        as [q|[rect' q]].
      * destruct IH as (k & Hk & Hov & Hbefore & ->).
        exists k. repeat split; [lia|lia|exact Hov|].
        intros j Hj. destruct (Z.eq_dec j c) as [->|]; [exact E|].
        apply Hbefore. lia.
      * destruct IH as (Hnone & -> & Hr & Hy).
        repeat split; [|f_equal; lia|exact Hr|exact Hy].
        intros j Hj. destruct (Z.eq_dec j c) as [->|]; [exact E|].
        apply Hnone. lia.
Qed.

(** The scan: it returns at the first cell in row-major order that the
    pointer is over, with the indices and the corner of this cell, and
    goes through the grid if there is none. *)
Lemma OnGridHover_rows_spec g m n : forall r p,
  match OnGridHover_rows n r g m (cell_rect g 0 r) p with
  | inl q =>
      exists k j, 0 <= k < cols g /\ r <= j < r + Z.of_nat n /\
        over g m k j = true /\
        (forall k' j', 0 <= k' < cols g -> r <= j' ->
           before k' j' k j -> over g m k' j' = false) /\
        p_c q = to_i32 k /\ p_r q = to_i32 j /\
        p_x q = F32.of_int (rect_x (cell_rect g k j)) /\
        p_y q = F32.of_int (rect_y (cell_rect g k j))
  | inr _ =>
      forall k j, 0 <= k < cols g -> r <= j < r + Z.of_nat n ->
        over g m k j = false
  end.
Proof.
  induction n as [|n IH]; intros r p.
  - simpl. intros k j Hk Hj. lia.
  - cbn [OnGridHover_rows].
    pose proof (OnGridHover_cols_spec g m r (Z.to_nat (cols g)) 0
      (set_pair_row p (to_i32 r) (F32.of_int (rect_y (cell_rect g 0 r)))))
      as Hrow.
    destruct (OnGridHover_cols (Z.to_nat (cols g)) 0 g m (cell_rect g 0 r) _)
      as [q|[rect' q]].
    + destruct Hrow as (k & Hk & Hov & Hbefore & ->).
      exists k, r. repeat split; try lia; try exact Hov.
      intros k' j' Hk' Hj' [Hlt|[-> Hlt]]; [lia|]. apply Hbefore. lia.
    + destruct Hrow as (Hnone & -> & _ & _).
      rewrite cell_rect_down. specialize (IH (r + 1) q).
      destruct (OnGridHover_rows n (r + 1) g m (cell_rect g 0 (r + 1)) q)
        as [q'|s].
      * destruct IH as (k & j & Hk & Hj & Hov & Hbefore & Hq).
        exists k, j. repeat split; try lia; try exact Hov; try apply Hq.
        intros k' j' Hk' Hj' Hb.
        destruct (Z.eq_dec j' r) as [->|]; [apply Hnone; lia|].
        apply Hbefore; [lia|lia|exact Hb].
      * intros k j Hk Hj.
        destruct (Z.eq_dec j r) as [->|]; [apply Hnone; lia|].
        apply IH; lia.
Qed.

Lemma button_get_run mouseCode b w :
  0 <= mouseCode -> button (mouse w) !! Z.to_nat mouseCode = Some b ->
  button_get mouseCode w = Ok b w.
Proof.
  intros H0 Hb. unfold button_get, bind, get_world, array_get.
  destruct (Z.leb_spec 0 mouseCode); [|lia]. by rewrite Hb.
Qed.

Lemma button_clear_run mouseCode b w :
  0 <= mouseCode -> button (mouse w) !! Z.to_nat mouseCode = Some b ->
  button_clear mouseCode w = Ok tt (cleared mouseCode w).
Proof.
  intros H0 Hb. apply lookup_lt_Some in Hb.
  unfold button_clear, bind, get_world, array_set.
  destruct (Z.leb_spec 0 mouseCode); [|lia].
  destruct (Z.ltb_spec mouseCode (Z.of_nat (length (button (mouse w)))));
    [|lia].
  reflexivity.
Qed.

(** A press makes the button pressed, whatever its flag was. *)
Lemma MousePressed_pressed event_button w :
  0 <= event_button < Z.of_nat (length (button (mouse w))) ->
  exists w', Stds_MousePressed event_button w = Ok tt w' /\
             pressed w' event_button /\
             mouse_x (mouse w') = mouse_x (mouse w) /\
             mouse_y (mouse w') = mouse_y (mouse w).
Proof.
  intros H. unfold Stds_MousePressed, button_write, array_set.
  destruct (Z.leb_spec 0 event_button); [|lia].
  destruct (Z.ltb_spec event_button (Z.of_nat (length (button (mouse w)))));
    [|lia].
  eexists. split; [reflexivity|]. repeat split; [lia|].
  exists 1. split; [|lia]. simpl. apply list_lookup_insert_eq. lia.
Qed.

Section Click.

Variable g : grid_t.
Variable mouseCode : Z.

(** Where the scan of the hover finds nothing, so does the scan of the
    click, and it does not read the button. *)
Lemma OnGridClicked_cols_miss n : forall c rect p w s,
  OnGridHover_cols n c g (mouse w) rect p = inr s ->
  OnGridClicked_cols n c g mouseCode rect p w = Ok (inr s) w.
Proof.
  induction n as [|n IH]; intros c rect p w s; cbn [OnGridHover_cols OnGridClicked_cols].
  - intros [= <-]. reflexivity.
  - unfold bind at 1, get_world. unfold bind at 1.
    destruct (Stds_IsMouseOverRect _ _ rect); [discriminate|].
    intros H. unfold ret at 1. by apply IH.
Qed.

Lemma OnGridClicked_rows_miss n : forall r rect p w s,
  OnGridHover_rows n r g (mouse w) rect p = inr s ->
  OnGridClicked_rows n r g mouseCode rect p w = Ok (inr s) w.
Proof.
  induction n as [|n IH]; intros r rect p w s; cbn [OnGridHover_rows OnGridClicked_rows].
  - intros [= <-]. reflexivity.
  - destruct (OnGridHover_cols _ 0 g (mouse w) rect _) as [q|[rect' q]] eqn:E;
      [discriminate|].
    intros H. unfold bind at 1.
    rewrite (OnGridClicked_cols_miss _ _ _ _ _ _ E). by apply IH.
Qed.

(** With the button pressed the scan of the click returns where the
    scan of the hover does, and clears the flag. *)
Lemma OnGridClicked_cols_hit n : forall c rect p w q,
  pressed w mouseCode ->
  OnGridHover_cols n c g (mouse w) rect p = inl q ->
  OnGridClicked_cols n c g mouseCode rect p w = Ok (inl q) (cleared mouseCode w).
Proof.
  induction n as [|n IH]; intros c rect p w q Hp; cbn [OnGridHover_cols OnGridClicked_cols].
  - discriminate.
  - destruct Hp as (H0 & b & Hb & Hnz).
    unfold bind at 1, get_world. unfold bind at 1.
    destruct (Stds_IsMouseOverRect _ _ rect).
    + intros [= <-]. unfold bind at 1.
      rewrite (button_get_run _ _ _ H0 Hb). unfold ret at 1.
      destruct (Z.eqb_spec b 0); [contradiction|]. simpl.
      unfold bind at 1. rewrite (button_clear_run _ _ _ H0 Hb). reflexivity.
    + intros H. unfold ret at 1. apply IH; [|exact H]. split; eauto.
Qed.

Lemma OnGridClicked_rows_hit n : forall r rect p w q,
  pressed w mouseCode ->
  OnGridHover_rows n r g (mouse w) rect p = inl q ->
  OnGridClicked_rows n r g mouseCode rect p w = Ok (inl q) (cleared mouseCode w).
Proof.
  induction n as [|n IH]; intros r rect p w q Hp; cbn [OnGridHover_rows OnGridClicked_rows].
  - discriminate.
  - destruct (OnGridHover_cols _ 0 g (mouse w) rect _) as [q'|[rect' q']] eqn:E.
    + intros [= <-]. unfold bind at 1.
      by rewrite (OnGridClicked_cols_hit _ _ _ _ _ _ Hp E).
    + intros H. unfold bind at 1.
      rewrite (OnGridClicked_cols_miss _ _ _ _ _ _ E). by apply IH.
Qed.

(** With the button released the scan of the click finds nothing. *)
Lemma OnGridClicked_cols_released n : forall c rect p w,
  0 <= mouseCode -> button (mouse w) !! Z.to_nat mouseCode = Some 0 ->
  exists s, OnGridClicked_cols n c g mouseCode rect p w = Ok (inr s) w.
Proof.
  induction n as [|n IH]; intros c rect p w H0 Hb; cbn [OnGridClicked_cols].
  - eexists. reflexivity.
  - unfold bind at 1, get_world. unfold bind at 1.
    destruct (Stds_IsMouseOverRect _ _ rect).
    + unfold bind at 1. rewrite (button_get_run _ _ _ H0 Hb).
      unfold ret at 1. simpl. by apply IH.
    + unfold ret at 1. by apply IH.
Qed.

Lemma OnGridClicked_rows_released n : forall r rect p w,
  0 <= mouseCode -> button (mouse w) !! Z.to_nat mouseCode = Some 0 ->
  exists s, OnGridClicked_rows n r g mouseCode rect p w = Ok (inr s) w.
Proof.
  induction n as [|n IH]; intros r rect p w H0 Hb; cbn [OnGridClicked_rows].
  - eexists. reflexivity.
  - unfold bind at 1.
    edestruct OnGridClicked_cols_released as [[rect' q] Hs]; [exact H0|exact Hb|].
    rewrite Hs. by apply IH.
Qed.

(** A scan of the click that returns a cell has read a flag of the
    array and cleared it; one that goes through the grid has changed
    nothing. *)
Lemma OnGridClicked_cols_inv n : forall c rect p w res w',
  OnGridClicked_cols n c g mouseCode rect p w = Ok res w' ->
  match res with
  | inl _ => 0 <= mouseCode /\
             is_Some (button (mouse w) !! Z.to_nat mouseCode) /\
             w' = cleared mouseCode w
  | inr _ => w' = w
  end.
Proof.
  induction n as [|n IH]; intros c rect p w res w'; cbn [OnGridClicked_cols].
  - intros [= <- <-]. reflexivity.
  - unfold bind at 1, get_world. unfold bind at 1.
    destruct (Stds_IsMouseOverRect _ _ rect).
    + unfold bind at 1. unfold button_get, bind, get_world, array_get.
      destruct (Z.leb_spec 0 mouseCode) as [H0|]; [|discriminate].
      destruct (button (mouse w) !! Z.to_nat mouseCode) as [b|] eqn:Hb;
        [|discriminate].
      unfold ret at 1 2. destruct (negb (b =? 0)).
      * rewrite (button_clear_run _ _ _ H0 Hb).
        intros [= <- <-]. repeat split; [exact H0|by eexists].
      * intros H. apply IH in H. destruct res; [|exact H].
        destruct H as (_ & _ & ->). repeat split; [exact H0|by eexists].
    + unfold ret at 1. apply IH.
Qed.

Lemma OnGridClicked_rows_inv n : forall r rect p w res w',
  OnGridClicked_rows n r g mouseCode rect p w = Ok res w' ->
  match res with
  | inl _ => 0 <= mouseCode /\
             is_Some (button (mouse w) !! Z.to_nat mouseCode) /\
             w' = cleared mouseCode w
  | inr _ => w' = w
  end.
Proof.
  induction n as [|n IH]; intros r rect p w res w'; cbn [OnGridClicked_rows].
  - intros [= <- <-]. reflexivity.
  - unfold bind at 1.
    destruct (OnGridClicked_cols _ 0 g mouseCode rect _ w)
      as [[q|[rect' q]] w1|] eqn:E; [| |discriminate].
    + apply OnGridClicked_cols_inv in E. intros [= <- <-]. exact E.
    + apply OnGridClicked_cols_inv in E. subst w1. apply IH.
Qed.

End Click.

(** The scans do not read the cursor of the grid. *)
Lemma OnGridHover_cols_cursor g m vx vy n : forall c rect p,
  OnGridHover_cols n c (set_xy g vx vy) m rect p = OnGridHover_cols n c g m rect p.
Proof.
  induction n as [|n IH]; intros c rect p; cbn [OnGridHover_cols]; [reflexivity|].
  destruct (Stds_IsMouseOverRect _ _ rect); [reflexivity|]. apply IH.
Qed.

Lemma OnGridHover_rows_cursor g m vx vy n : forall r rect p,
  OnGridHover_rows n r (set_xy g vx vy) m rect p = OnGridHover_rows n r g m rect p.
Proof.
  induction n as [|n IH]; intros r rect p; cbn [OnGridHover_rows]; [reflexivity|].
  rewrite OnGridHover_cols_cursor.
  change (cols (set_xy g vx vy)) with (cols g).
  destruct (OnGridHover_cols _ 0 g m rect _) as [q|[rect' q]]; [reflexivity|].
  apply IH.
Qed.

Lemma OnGridClicked_cols_cursor g mouseCode vx vy n : forall c rect p w,
  OnGridClicked_cols n c (set_xy g vx vy) mouseCode rect p w
  = OnGridClicked_cols n c g mouseCode rect p w.
Proof.
  induction n as [|n IH]; intros c rect p w; cbn [OnGridClicked_cols]; [reflexivity|].
  apply bind_ext; intros w0 w1. apply bind_ext; intros hit w2.
  destruct hit; [reflexivity|apply IH].
Qed.

Lemma OnGridClicked_rows_cursor g mouseCode vx vy n : forall r rect p w,
  OnGridClicked_rows n r (set_xy g vx vy) mouseCode rect p w
  = OnGridClicked_rows n r g mouseCode rect p w.
Proof.
  induction n as [|n IH]; intros r rect p w; cbn [OnGridClicked_rows]; [reflexivity|].
  change (cols (set_xy g vx vy)) with (cols g).
  unfold bind at 1 2. rewrite OnGridClicked_cols_cursor.
  destruct (OnGridClicked_cols _ 0 g mouseCode rect _ w) as [[q|[rect' q]] w1|];
    [reflexivity|apply IH|reflexivity].
Qed.

Lemma OnGridHover_run g p w :
  Stds_OnGridHover (Some g) p w =
    Ok (answer (OnGridHover_rows (Z.to_nat (rows g)) 0 g (mouse w)
                  (cell_rect g 0 0) p),
        Some (rewound g)) w.
Proof.
  change (Stds_OnGridHover (Some g) p w) with
    (match OnGridHover_rows (Z.to_nat (rows g)) 0 (rewound g) (mouse w)
             {| rect_x := F32.to_int (sx g); rect_y := F32.to_int (sy g);
                rect_w := sw g; rect_h := sh g |} p with
     | inl q => ret (q, Some (rewound g))
     | inr (_, q) => ret (set_pair_cr q (-1) (-1), Some (rewound g))
     end w).
  rewrite cell_rect_origin. unfold rewound at 1.
  rewrite OnGridHover_rows_cursor.
  destruct (OnGridHover_rows _ 0 g (mouse w) _ p) as [q|[rect' q]]; reflexivity.
Qed.

Lemma OnGridClicked_run g mouseCode p w :
  Stds_OnGridClicked (Some g) mouseCode p w =
    match OnGridClicked_rows (Z.to_nat (rows g)) 0 g mouseCode
            (cell_rect g 0 0) p w with
    | Ok res w' => Ok (answer res, Some (rewound g)) w'
    | Fault => Fault
    end.
Proof.
  change (Stds_OnGridClicked (Some g) mouseCode p w) with
    (match OnGridClicked_rows (Z.to_nat (rows g)) 0 (rewound g) mouseCode
             {| rect_x := F32.to_int (sx g); rect_y := F32.to_int (sy g);
                rect_w := sw g; rect_h := sh g |} p w with
     | Ok res w' =>
         match res with
         | inl q => ret (q, Some (rewound g))
         | inr (_, q) => ret (set_pair_cr q (-1) (-1), Some (rewound g))
         end w'
     | Fault => Fault
     end).
  rewrite cell_rect_origin. unfold rewound at 1.
  rewrite OnGridClicked_rows_cursor.
  destruct (OnGridClicked_rows _ 0 g mouseCode _ p w) as [[q|[rect' q]] w1|];
    reflexivity.
Qed.

Lemma answer_miss s : sentinel (answer (inr s)).
Proof. destruct s. split; reflexivity. Qed.

Lemma OnGridHover_rows_first g m p c r :
  0 <= c < cols g -> 0 <= r < rows g ->
  over g m c r = true ->
  (forall c' r', 0 <= c' < cols g -> 0 <= r' < rows g ->
     before c' r' c r -> over g m c' r' = false) ->
  exists q,
    OnGridHover_rows (Z.to_nat (rows g)) 0 g m (cell_rect g 0 0) p = inl q /\
    p_c q = to_i32 c /\ p_r q = to_i32 r.
Proof.
  intros Hc Hr Hov Hfirst.
  pose proof (OnGridHover_rows_spec g m (Z.to_nat (rows g)) 0 p) as Hspec.
  destruct (OnGridHover_rows _ 0 g m _ p) as [q|s].
  - destruct Hspec as (k & j & Hk & Hj & Hov' & Hbefore & Hqc & Hqr & _).
    exists q. split; [reflexivity|].
    assert (~ before k j c r) as N1.
    { intros Hb. rewrite (Hfirst k j) in Hov'; [discriminate|lia|lia|exact Hb]. }
    assert (~ before c r k j) as N2.
    { intros Hb. rewrite (Hbefore c r) in Hov; [discriminate|lia|lia|exact Hb]. }
    unfold before in N1, N2.
    assert (k = c) by lia. assert (j = r) by lia. subst. auto.
  - rewrite (Hspec c r) in Hov; [discriminate|lia|lia].
Qed.

Lemma OnGridHover_rows_none g m p :
  (forall c r, 0 <= c < cols g -> 0 <= r < rows g -> over g m c r = false) ->
  exists s, OnGridHover_rows (Z.to_nat (rows g)) 0 g m (cell_rect g 0 0) p = inr s.
Proof.
  intros Hnone.
  pose proof (OnGridHover_rows_spec g m (Z.to_nat (rows g)) 0 p) as Hspec.
  destruct (OnGridHover_rows _ 0 g m _ p) as [q|s]; [|by exists s].
  destruct Hspec as (k & j & Hk & Hj & Hov' & _).
  rewrite (Hnone k j) in Hov'; [discriminate|lia|lia].
Qed.

(** *** The geometry of the cells *)

Lemma cell_rect_exact g c r :
  fits_int g -> 0 <= c <= cols g -> 0 <= r <= rows g ->
  cell_rect g c r =
    {| rect_x := F32.to_int (sx g) + c * sw g;
       rect_y := F32.to_int (sy g) + r * sh g;
       rect_w := sw g; rect_h := sh g |}.
Proof.
  intros (Hw & Hh & Hx & Hy) Hc Hr. unfold cell_rect.
  pose proof (to_int_range (sx g)). pose proof (to_int_range (sy g)).
  rewrite !to_i32_small; [reflexivity| |]; split; nia.
Qed.

Lemma inside_first g m c r :
  fits_int g -> pointer_test_sound g m ->
  0 <= c < cols g -> 0 <= r < rows g ->
  inside m (cell_rect g c r) ->
  over g m c r = true /\
  (forall c' r', 0 <= c' < cols g -> 0 <= r' < rows g ->
     before c' r' c r -> over g m c' r' = false) /\
  to_i32 c = c /\ to_i32 r = r.
Proof.
  intros Hfit Hsound Hc Hr Hin.
  split; [by apply Hsound|].
  pose proof Hin as Hin'.
  rewrite cell_rect_exact in Hin' by (auto; lia).
  destruct Hin' as [Hx Hy]; simpl in Hx, Hy.
  pose proof (to_int_range (sx g)). pose proof (to_int_range (sy g)).
  destruct Hfit as (Hw & Hh & Hfx & Hfy).
  split.
  - intros c' r' Hc' Hr' Hb. apply Hsound; [lia|lia|].
    rewrite cell_rect_exact by (unfold fits_int; auto; lia).
    unfold outside; simpl. destruct Hb as [Hb|[-> Hb]]; nia.
  - unfold INT_MIN, INT_MAX in *.
    split; apply to_i32_small; unfold INT_MIN, INT_MAX; nia.
Qed.

Lemma hover_hit g p w q :
  OnGridHover_rows (Z.to_nat (rows g)) 0 g (mouse w) (cell_rect g 0 0) p = inl q ->
  Stds_OnGridHover (Some g) p w = Ok (q, Some (rewound g)) w.
Proof. intros H. by rewrite OnGridHover_run, H. Qed.

Lemma click_hit g mouseCode p w q :
  pressed w mouseCode ->
  OnGridHover_rows (Z.to_nat (rows g)) 0 g (mouse w) (cell_rect g 0 0) p = inl q ->
  Stds_OnGridClicked (Some g) mouseCode p w
    = Ok (q, Some (rewound g)) (cleared mouseCode w).
Proof.
  intros Hp H.
  by rewrite OnGridClicked_run, (OnGridClicked_rows_hit _ _ _ _ _ _ _ _ Hp H).
Qed.

Lemma hover_miss g p w s :
  OnGridHover_rows (Z.to_nat (rows g)) 0 g (mouse w) (cell_rect g 0 0) p = inr s ->
  Stds_OnGridHover (Some g) p w = Ok (answer (inr s), Some (rewound g)) w.
Proof. intros H. by rewrite OnGridHover_run, H. Qed.

Lemma click_miss g mouseCode p w s :
  OnGridHover_rows (Z.to_nat (rows g)) 0 g (mouse w) (cell_rect g 0 0) p = inr s ->
  Stds_OnGridClicked (Some g) mouseCode p w
    = Ok (answer (inr s), Some (rewound g)) w.
Proof.
  intros H.
  by rewrite OnGridClicked_run, (OnGridClicked_rows_miss _ _ _ _ _ _ _ _ H).
Qed.

(** With a button of the array, the click returns. *)
Lemma OnGridClicked_returns g mouseCode p w :
  0 <= mouseCode < Z.of_nat (length (button (mouse w))) ->
  exists q w',
    Stds_OnGridClicked (Some g) mouseCode p w = Ok (q, Some (rewound g)) w'.
Proof.
  intros H.
  destruct (button (mouse w) !! Z.to_nat mouseCode) as [b|] eqn:Hb.
  2: { apply lookup_ge_None in Hb. lia. }
  destruct (Z.eq_dec b 0) as [->|Hnz].
  - rewrite OnGridClicked_run.
    edestruct (OnGridClicked_rows_released g mouseCode) as [s Hs];
      [|exact Hb|]; [lia|].
    rewrite Hs. eauto.
  - destruct (OnGridHover_rows (Z.to_nat (rows g)) 0 g (mouse w)
                (cell_rect g 0 0) p) as [q|s] eqn:E.
    + eexists _, _. apply click_hit; [|exact E]. split; [lia|eauto].
    + eexists _, _. apply click_miss. exact E.
Qed.

(** C1, as the code has it: [Stds_OnGridHover], and [Stds_OnGridClicked]
    when the queried button is pressed, scan the cells row by row and
    answer the first cell that the pointer is over: the first cell for
    which [Stds_IsMouseOverRect] accepts the pointer, converted to
    [float], on the rectangle that the code tests, [cell_rect], whose
    corner is computed in [int] from the start position converted to
    [int].  With a pointer test that is sound on these rectangles, on a
    grid that extends to the right and down within the range of [int], a
    pointer strictly inside the rectangle of the cell (c, r) gives
    (c, r); with a sound pointer test, a pointer outside of all the
    rectangles gives the sentinel (-1, -1), for the click whatever the
    button. *)
Theorem resolvers_first_match (g : grid_t) (w : world) (p : grid_pair_t)
    (mouseCode : Z) :
  (forall c r, 0 <= c < cols g -> 0 <= r < rows g ->
     over g (mouse w) c r = true ->
     (forall c' r', 0 <= c' < cols g -> 0 <= r' < rows g ->
        before c' r' c r -> over g (mouse w) c' r' = false) ->
     (exists q, Stds_OnGridHover (Some g) p w = Ok (q, Some (rewound g)) w /\
                p_c q = to_i32 c /\ p_r q = to_i32 r) /\
     (pressed w mouseCode ->
      exists q, Stds_OnGridClicked (Some g) mouseCode p w
                  = Ok (q, Some (rewound g)) (cleared mouseCode w) /\
                p_c q = to_i32 c /\ p_r q = to_i32 r)) /\
  (forall c r, 0 <= c < cols g -> 0 <= r < rows g ->
     pointer_test_sound g (mouse w) -> fits_int g ->
     inside (mouse w) (cell_rect g c r) ->
     (exists q, Stds_OnGridHover (Some g) p w = Ok (q, Some (rewound g)) w /\
                p_c q = c /\ p_r q = r) /\
     (pressed w mouseCode ->
      exists q, Stds_OnGridClicked (Some g) mouseCode p w
                  = Ok (q, Some (rewound g)) (cleared mouseCode w) /\
                p_c q = c /\ p_r q = r)) /\
  (pointer_test_sound g (mouse w) ->
   (forall c r, 0 <= c < cols g -> 0 <= r < rows g ->
      outside (mouse w) (cell_rect g c r)) ->
   (exists q, Stds_OnGridHover (Some g) p w = Ok (q, Some (rewound g)) w /\
              sentinel q) /\
   (exists q, Stds_OnGridClicked (Some g) mouseCode p w
                = Ok (q, Some (rewound g)) w /\
              sentinel q)).
Proof.
  assert (Hfirst : forall c r, 0 <= c < cols g -> 0 <= r < rows g ->
     over g (mouse w) c r = true ->
     (forall c' r', 0 <= c' < cols g -> 0 <= r' < rows g ->
        before c' r' c r -> over g (mouse w) c' r' = false) ->
     (exists q, Stds_OnGridHover (Some g) p w = Ok (q, Some (rewound g)) w /\
                p_c q = to_i32 c /\ p_r q = to_i32 r) /\
     (pressed w mouseCode ->
      exists q, Stds_OnGridClicked (Some g) mouseCode p w
                  = Ok (q, Some (rewound g)) (cleared mouseCode w) /\
                p_c q = to_i32 c /\ p_r q = to_i32 r)).
  { intros c r Hc Hr Hov Hbefore.
    destruct (OnGridHover_rows_first g (mouse w) p c r Hc Hr Hov Hbefore)
      as (q & Hq & Hqc & Hqr).
    split.
    - exists q. split; [by apply hover_hit|auto].
    - intros Hp. exists q. split; [by apply click_hit|auto]. }
  split; [exact Hfirst|]. split.
  - intros c r Hc Hr Hsound Hfit Hin.
    destruct (inside_first g (mouse w) c r Hfit Hsound Hc Hr Hin)
      as (Hov & Hbefore & Hci & Hri).
    destruct (Hfirst c r Hc Hr Hov Hbefore) as [Hh Hk].
    rewrite Hci, Hri in Hh, Hk. split; assumption.
  - intros Hsound Hout.
    destruct (OnGridHover_rows_none g (mouse w) p) as [s Hs].
    { intros c r Hc Hr. apply Hsound; auto. }
    split; exists (answer (inr s)).
    + split; [by apply hover_miss|apply answer_miss].
    + split; [by apply click_miss|apply answer_miss].
Qed.

(** C2: a call of [Stds_OnGridClicked] that answers a cell has cleared
    the flag of the queried button and left the pointer where it was;
    the next call for this button, on this grid or on any other one,
    answers the sentinel and changes nothing.  One press gives one click
    at most. *)
Theorem click_consumes_press (g : grid_t) (mouseCode : Z) (p : grid_pair_t)
    (w w' : world) (q : grid_pair_t) (grid' : option grid_t) :
  Stds_OnGridClicked (Some g) mouseCode p w = Ok (q, grid') w' ->
  ~ sentinel q ->
  button (mouse w') !! Z.to_nat mouseCode = Some 0 /\
  mouse_x (mouse w') = mouse_x (mouse w) /\
  mouse_y (mouse w') = mouse_y (mouse w) /\
  (forall grid2 p2, exists q2 grid2',
     Stds_OnGridClicked grid2 mouseCode p2 w' = Ok (q2, grid2') w' /\
     sentinel q2).
Proof.
  rewrite OnGridClicked_run.
  destruct (OnGridClicked_rows _ 0 g mouseCode _ p w) as [res w1|] eqn:E;
    [|discriminate].
  intros [= <- <- <-] Hhit.
  apply OnGridClicked_rows_inv in E.
  destruct res as [q|s]; [|destruct Hhit; apply answer_miss].
  destruct E as (H0 & [b Hb] & ->).
  assert (Hzero : button (mouse (cleared mouseCode w)) !! Z.to_nat mouseCode
                  = Some 0).
  { simpl. apply list_lookup_insert_eq. by apply lookup_lt_Some in Hb. }
  repeat split; [exact Hzero|].
  intros [g2|] p2.
  - rewrite OnGridClicked_run.
    edestruct (OnGridClicked_rows_released g2 mouseCode) as [s Hs];
      [exact H0|exact Hzero|].
    rewrite Hs. eexists _, _. split; [reflexivity|apply answer_miss].
  - eexists _, _. split; [reflexivity|]. split; reflexivity.
Qed.

(** C7: every pass puts the cursor on the start position first.  The
    calls of a line pass and of a fill pass are those of the start
    position, the sizes and the colours: the pass leaves the cursor on
    the start position, a second pass right after it makes the same
    calls, and so does a pass from any other cursor.  The resolvers
    answer the same from any cursor and leave it on the start position. *)
Theorem passes_rewind_cursor (g : grid_t) (w : world) :
  (exists cs,
     Stds_DrawLineGrid (Some g) w = Ok (Some (rewound g)) (after_calls w cs) /\
     Stds_DrawLineGrid (Some (rewound g)) (after_calls w cs)
       = Ok (Some (rewound g)) (after_calls (after_calls w cs) cs) /\
     forall vx vy w0,
       Stds_DrawLineGrid (Some (set_xy g vx vy)) w0
         = Ok (Some (rewound g)) (after_calls w0 cs)) /\
  (exists cs,
     Stds_FillWholeGrid (Some g) w = Ok (Some (rewound g)) (after_calls w cs) /\
     Stds_FillWholeGrid (Some (rewound g)) (after_calls w cs)
       = Ok (Some (rewound g)) (after_calls (after_calls w cs) cs) /\
     forall vx vy w0,
       Stds_FillWholeGrid (Some (set_xy g vx vy)) w0
         = Ok (Some (rewound g)) (after_calls w0 cs)) /\
  (forall p,
     (exists q, Stds_OnGridHover (Some g) p w = Ok (q, Some (rewound g)) w) /\
     forall vx vy,
       Stds_OnGridHover (Some (set_xy g vx vy)) p w
         = Stds_OnGridHover (Some g) p w) /\
  (forall mouseCode p,
     (0 <= mouseCode < Z.of_nat (length (button (mouse w))) ->
      exists q w',
        Stds_OnGridClicked (Some g) mouseCode p w
          = Ok (q, Some (rewound g)) w') /\
     (forall q grid' w',
        Stds_OnGridClicked (Some g) mouseCode p w = Ok (q, grid') w' ->
        grid' = Some (rewound g)) /\
     forall vx vy,
       Stds_OnGridClicked (Some (set_xy g vx vy)) mouseCode p w
         = Stds_OnGridClicked (Some g) mouseCode p w).
Proof.
  split; [|split; [|split]].
  - exists (line_calls g). split; [apply DrawLineGrid_run|].
    split; [apply (DrawLineGrid_run (rewound g))|].
    intros vx vy w0. apply (DrawLineGrid_run (set_xy g vx vy)).
  - exists (fill_calls g). split; [apply FillWholeGrid_run|].
    split; [apply (FillWholeGrid_run (rewound g))|].
    intros vx vy w0. apply (FillWholeGrid_run (set_xy g vx vy)).
  - intros p. split.
    + eexists. apply OnGridHover_run.
    + intros vx vy. rewrite !OnGridHover_run.
      change (rows (set_xy g vx vy)) with (rows g).
      change (cell_rect (set_xy g vx vy) 0 0) with (cell_rect g 0 0).
      rewrite OnGridHover_rows_cursor. reflexivity.
  - intros mouseCode p. split; [apply OnGridClicked_returns|]. split.
    + intros q grid' w'. rewrite OnGridClicked_run.
      destruct (OnGridClicked_rows _ 0 g mouseCode _ p w); [|discriminate].
      by intros [= _ <- _].
    + intros vx vy. rewrite !OnGridClicked_run.
      change (rows (set_xy g vx vy)) with (rows g).
      change (cell_rect (set_xy g vx vy) 0 0) with (cell_rect g 0 0).
      rewrite OnGridClicked_rows_cursor. reflexivity.
Qed.

(** *** Small integers in single precision

    The integers below 2^24 in absolute value are floats: their sums are
    formed without rounding as long as they stay below 2^24, their order
    is the order of the floats, and the conversions give them back. *)

Lemma pshl_S n k : pshl n (S k) = xO (pshl n k).
Proof. reflexivity. Qed.

Lemma pshl_add n j k : pshl (pshl n j) k = pshl n (j + k).
Proof. unfold pshl. rewrite Nat.add_comm. by rewrite Nat.iter_add. Qed.

Lemma Pos_iter_pshl n p : Pos.iter xO n p = pshl n (Pos.to_nat p).
Proof. unfold pshl. apply Pos2Nat.inj_iter. Qed.

Lemma pshl_val n k : Z.pos (pshl n k) = Z.pos n * 2 ^ Z.of_nat k.
Proof.
  induction k as [|k IH]; [simpl; lia|].
  rewrite pshl_S, Pos2Z.inj_xO, IH, Nat2Z.inj_succ, Z.pow_succ_r by lia. lia.
Qed.

Lemma pshl_digits n k :
  Z.pos (digits2_pos (pshl n k)) = Z.pos (digits2_pos n) + Z.of_nat k.
Proof.
  induction k as [|k IH]; [simpl; lia|].
  rewrite pshl_S. cbn [digits2_pos]. rewrite Pos2Z.inj_succ, IH. lia.
Qed.

Lemma iter_pos_nat {A} (f : A -> A) p : forall a,
  SpecFloat.iter_pos f p a = Nat.iter (Pos.to_nat p) f a.
Proof.
  induction p as [p IH|p IH|]; intros a; cbn [SpecFloat.iter_pos].
  - rewrite !IH, Pos2Nat.inj_xI. 
    replace (S (2 * Pos.to_nat p))%nat with (Pos.to_nat p + (Pos.to_nat p + 1))%nat by lia.
    rewrite !Nat.iter_add. simpl. reflexivity.
  - rewrite !IH, Pos2Nat.inj_xO.
    replace (2 * Pos.to_nat p)%nat with (Pos.to_nat p + Pos.to_nat p)%nat by lia.
    by rewrite Nat.iter_add.
  - reflexivity.
Qed.

Lemma shr_pshl m k :
  Nat.iter k shr_1 {| shr_m := Z.pos (pshl m k); shr_r := false; shr_s := false |}
  = {| shr_m := Z.pos m; shr_r := false; shr_s := false |}.
Proof.
  induction k as [|k IH]; [reflexivity|].
  rewrite Nat.iter_succ_r, pshl_S. cbn [shr_1 orb]. exact IH.
Qed.

Lemma digits_lower n : 2 ^ (Z.pos (digits2_pos n) - 1) <= Z.pos n.
Proof.
  induction n as [n IH|n IH|]; cbn [digits2_pos]; [| |simpl; lia].
  - rewrite Pos2Z.inj_succ, (Pos2Z.inj_xI n).
    replace (Z.succ (Z.pos (digits2_pos n)) - 1) with (Z.succ (Z.pos (digits2_pos n) - 1)) by lia.
    rewrite Z.pow_succ_r by lia. lia.
  - rewrite Pos2Z.inj_succ, (Pos2Z.inj_xO n).
    replace (Z.succ (Z.pos (digits2_pos n)) - 1) with (Z.succ (Z.pos (digits2_pos n) - 1)) by lia.
    rewrite Z.pow_succ_r by lia. lia.
Qed.

Lemma digits_small n : Z.pos n < 2 ^ 24 -> Z.pos (digits2_pos n) <= 24.
Proof.
  intros H. pose proof (digits_lower n) as Hl.
  destruct (Z_le_gt_dec (Z.pos (digits2_pos n)) 24) as [|Hgt]; [assumption|].
  assert (2 ^ 24 <= 2 ^ (Z.pos (digits2_pos n) - 1)) by (apply Z.pow_le_mono_r; lia).
  lia.
Qed.

(** A mantissa of 24 digits is left as it is. *)
Lemma round_aux_normal s m e :
  Z.pos (digits2_pos m) = 24 -> -149 <= e <= 104 ->
  binary_round_aux 24 128 s (Z.pos m) e loc_Exact = S754_finite s m e.
Proof.
  intros Hd He. unfold binary_round_aux, shr_fexp.
  cbn [Zdigits2 shr_record_of_loc]. rewrite Hd.
  unfold fexp, emin.
  replace (Z.max (24 + e - 24) (3 - 128 - 24) - e) with 0 by lia.
  cbn [shr loc_of_shr_record shr_m round_nearest_even Zdigits2 shr_record_of_loc].
  rewrite Hd.
  replace (Z.max (24 + e - 24) (3 - 128 - 24) - e) with 0 by lia.
  cbn [shr shr_m].
  destruct (Z.leb_spec e (128 - 24)); [reflexivity|lia].
Qed.

(** A mantissa of 24 digits followed by [k] zeros loses the zeros. *)
Lemma round_aux_shift s m k e :
  Z.pos (digits2_pos m) = 24 -> -149 <= e -> e + Z.of_nat k <= 104 ->
  binary_round_aux 24 128 s (Z.pos (pshl m k)) e loc_Exact
  = S754_finite s m (e + Z.of_nat k).
Proof.
  intros Hd He Hek. destruct k as [|k].
  { simpl. rewrite Z.add_0_r. apply round_aux_normal; [assumption|lia]. }
  unfold binary_round_aux, shr_fexp.
  cbn [Zdigits2 shr_record_of_loc]. rewrite pshl_digits, Hd.
  unfold fexp, emin.
  replace (Z.max (24 + Z.of_nat (S k) + e - 24) (3 - 128 - 24) - e)
    with (Z.pos (Pos.of_succ_nat k)) by lia.
  cbn [shr]. rewrite iter_pos_nat, SuccNat2Pos.id_succ, shr_pshl.
  cbn [loc_of_shr_record shr_m round_nearest_even Zdigits2 shr_record_of_loc].
  rewrite Hd.
  replace (Z.max (24 + (e + Z.pos (Pos.of_succ_nat k)) - 24) (3 - 128 - 24)
           - (e + Z.pos (Pos.of_succ_nat k))) with 0 by lia.
  cbn [shr shr_m].
  destruct (Z.leb_spec (e + Z.pos (Pos.of_succ_nat k)) (128 - 24)); [|lia].
  reflexivity.
Qed.

Lemma round_canon s n t :
  Z.pos (digits2_pos n) <= 24 -> (t <= 23)%nat ->
  binary_round 24 128 s (pshl n t) (- Z.of_nat t) = canon s n.
Proof.
  intros Hd Ht. unfold binary_round, canon.
  rewrite pshl_digits. unfold fexp at 1, emin.
  set (d := Z.pos (digits2_pos n)) in *.
  assert (1 <= d) by (unfold d; lia).
  replace (Z.max (d + Z.of_nat t + - Z.of_nat t - 24) (3 - 128 - 24))
    with (d - 24) by lia.
  unfold shl_align.
  destruct (d - 24 - - Z.of_nat t) as [|k|k] eqn:Hk.
  - (* the mantissa has 24 digits already *)
    rewrite round_aux_normal.
    + f_equal; [f_equal|]; lia.
    + rewrite pshl_digits. fold d. lia.
    + lia.
  - (* zeros to remove *)
    replace t with (Z.to_nat (24 - d) + Pos.to_nat k)%nat by lia.
    rewrite <- pshl_add.
    rewrite round_aux_shift.
    + f_equal. lia.
    + rewrite pshl_digits. fold d. lia.
    + lia.
    + lia.
  - (* zeros to add *)
    rewrite Pos_iter_pshl, pshl_add.
    rewrite round_aux_normal.
    + f_equal. f_equal. lia.
    + rewrite pshl_digits. fold d. lia.
    + lia.
Qed.

Lemma of_int_pos n : Z.pos n < 2 ^ 24 -> F32.of_int (Z.pos n) = canon false n.
Proof.
  intros H. unfold F32.of_int, F32.prec, F32.emax, binary_normalize.
  apply (round_canon false n 0); [by apply digits_small|lia].
Qed.

Lemma of_int_neg n : Z.pos n < 2 ^ 24 -> F32.of_int (Z.neg n) = canon true n.
Proof.
  intros H. unfold F32.of_int, F32.prec, F32.emax, binary_normalize.
  apply (round_canon true n 0); [by apply digits_small|lia].
Qed.

Lemma normalize_shifted z t :
  - 2 ^ 24 < z < 2 ^ 24 -> (t <= 23)%nat ->
  binary_normalize 24 128 (z * 2 ^ Z.of_nat t) (- Z.of_nat t) false = F32.of_int z.
Proof.
  intros Hz Ht. destruct z as [|n|n].
  - reflexivity.
  - rewrite <- pshl_val. rewrite of_int_pos by lia. cbn [binary_normalize].
    apply round_canon; [apply digits_small; lia|assumption].
  - replace (Z.neg n * 2 ^ Z.of_nat t) with (Z.neg (pshl n t))
      by (rewrite <- Pos2Z.opp_pos, pshl_val; lia).
    rewrite of_int_neg by lia. cbn [binary_normalize].
    apply round_canon; [apply digits_small; lia|assumption].
Qed.

Lemma align_canon n ez :
  ez <= Z.pos (digits2_pos n) - 24 -> Z.pos (digits2_pos n) <= 24 ->
  fst (shl_align (pshl n (Z.to_nat (24 - Z.pos (digits2_pos n))))
         (Z.pos (digits2_pos n) - 24) ez)
  = pshl n (Z.to_nat (- ez)).
Proof.
  intros He Hd. unfold shl_align.
  destruct (ez - (Z.pos (digits2_pos n) - 24)) as [|k|k] eqn:Hk; cbn [fst].
  - f_equal. lia.
  - lia.
  - rewrite Pos_iter_pshl, pshl_add. f_equal. lia.
Qed.

Lemma canon_add sa na sb nb :
  Z.pos na < 2 ^ 24 -> Z.pos nb < 2 ^ 24 ->
  - 2 ^ 24 < cond_Zopp sa (Z.pos na) + cond_Zopp sb (Z.pos nb) < 2 ^ 24 ->
  SFadd 24 128 (canon sa na) (canon sb nb)
  = F32.of_int (cond_Zopp sa (Z.pos na) + cond_Zopp sb (Z.pos nb)).
Proof.
  intros Ha Hb Hab. unfold canon. cbn [SFadd].
  pose proof (digits_small na Ha) as Hda. pose proof (digits_small nb Hb) as Hdb.
  set (da := Z.pos (digits2_pos na)) in *.
  set (db := Z.pos (digits2_pos nb)) in *.
  assert (1 <= da) by (unfold da; lia). assert (1 <= db) by (unfold db; lia).
  set (ez := Z.min (da - 24) (db - 24)).
  unfold da, db. rewrite !align_canon by (fold da db; lia). 
  set (t := Z.to_nat (- ez)).
  replace ez with (- Z.of_nat t) by lia.
  replace (cond_Zopp sa (Z.pos (pshl na t)) + cond_Zopp sb (Z.pos (pshl nb t)))
    with ((cond_Zopp sa (Z.pos na) + cond_Zopp sb (Z.pos nb)) * 2 ^ Z.of_nat t).
  - apply normalize_shifted; [assumption|lia].
  - rewrite !pshl_val. destruct sa, sb; cbn [cond_Zopp]; ring.
Qed.

Lemma of_int_canon z : z <> 0 -> - 2 ^ 24 < z < 2 ^ 24 ->
  exists s n, z = cond_Zopp s (Z.pos n) /\ Z.pos n < 2 ^ 24 /\ F32.of_int z = canon s n.
Proof.
  intros Hz Hb. destruct z as [|n|n]; [contradiction| |].
  - exists false, n. repeat split; [lia|]. apply of_int_pos. lia.
  - exists true, n. repeat split; [lia|]. apply of_int_neg. lia.
Qed.

Lemma of_int_add_exact a b :
  - 2 ^ 24 < a < 2 ^ 24 -> - 2 ^ 24 < b < 2 ^ 24 -> - 2 ^ 24 < a + b < 2 ^ 24 ->
  F32.add (F32.of_int a) (F32.of_int b) = F32.of_int (a + b).
Proof.
  intros Ha Hb Hab.
  destruct (Z.eq_dec a 0) as [->|Ha0].
  { rewrite Z.add_0_l. destruct (Z.eq_dec b 0) as [->|Hb0]; [reflexivity|].
    destruct (of_int_canon b Hb0 Hb) as (s & n & _ & _ & ->). reflexivity. }
  destruct (Z.eq_dec b 0) as [->|Hb0].
  { rewrite Z.add_0_r. unfold F32.of_int at 2. cbn [binary_normalize].
    destruct (of_int_canon a Ha0 Ha) as (s & n & _ & _ & ->). reflexivity. }
  destruct (of_int_canon a Ha0 Ha) as (sa & na & -> & Hna & ->).
  destruct (of_int_canon b Hb0 Hb) as (sb & nb & -> & Hnb & ->).
  by apply canon_add.
Qed.

Lemma digits_upper n : Z.pos n < 2 ^ Z.pos (digits2_pos n).
Proof.
  induction n as [n IH|n IH|]; cbn [digits2_pos]; [| |simpl; lia].
  - rewrite Pos2Z.inj_succ, (Pos2Z.inj_xI n), Z.pow_succ_r by lia. lia.
  - rewrite Pos2Z.inj_succ, (Pos2Z.inj_xO n), Z.pow_succ_r by lia. lia.
Qed.

Lemma digits_lt na nb :
  Z.pos (digits2_pos na) < Z.pos (digits2_pos nb) -> Z.pos na < Z.pos nb.
Proof.
  intros H. pose proof (digits_upper na). pose proof (digits_lower nb).
  assert (2 ^ Z.pos (digits2_pos na) <= 2 ^ (Z.pos (digits2_pos nb) - 1))
    by (apply Z.pow_le_mono_r; lia).
  lia.
Qed.

(** The order of two floats of positive integers is the order of the
    integers. *)
Lemma canon_compare na nb :
  Z.pos (digits2_pos na) <= 24 -> Z.pos (digits2_pos nb) <= 24 ->
  match Z.pos (digits2_pos na) - 24 ?= Z.pos (digits2_pos nb) - 24 with
  | Lt => Lt
  | Gt => Gt
  | Eq => Pos.compare_cont Eq
            (pshl na (Z.to_nat (24 - Z.pos (digits2_pos na))))
            (pshl nb (Z.to_nat (24 - Z.pos (digits2_pos nb))))
  end = (Z.pos na ?= Z.pos nb).
Proof.
  intros Ha Hb.
  destruct (Z.compare_spec (Z.pos (digits2_pos na) - 24)
              (Z.pos (digits2_pos nb) - 24)) as [Heq|Hlt|Hgt].
  - change (Pos.compare_cont Eq ?a ?b) with (Z.pos a ?= Z.pos b).
    rewrite !pshl_val.
    replace (Z.pos (digits2_pos na)) with (Z.pos (digits2_pos nb)) by lia.
    assert (0 < 2 ^ Z.of_nat (Z.to_nat (24 - Z.pos (digits2_pos nb))))
      by (apply Z.pow_pos_nonneg; lia).
    destruct (Z.compare_spec (Z.pos na) (Z.pos nb));
      [apply Z.compare_eq_iff|apply Z.compare_lt_iff|apply Z.compare_gt_iff]; nia.
  - symmetry. apply Z.compare_lt_iff. apply digits_lt. lia.
  - symmetry. apply Z.compare_gt_iff. apply digits_lt. lia.
Qed.

Lemma of_int_ltb a b :
  - 2 ^ 24 < a < 2 ^ 24 -> - 2 ^ 24 < b < 2 ^ 24 ->
  F32.ltb (F32.of_int a) (F32.of_int b) = (a <? b).
Proof.
  intros Ha Hb. unfold F32.ltb, SFltb.
  destruct a as [|na|na], b as [|nb|nb];
    rewrite ?of_int_pos, ?of_int_neg by lia; try reflexivity.
  - unfold canon. cbn [SFcompare].
    rewrite canon_compare by (apply digits_small; lia).
    unfold Z.ltb. reflexivity.
  - unfold canon. cbn [SFcompare].
    replace (match Z.pos (digits2_pos na) - 24 ?= Z.pos (digits2_pos nb) - 24 with
             | Eq => CompOpp (Pos.compare_cont Eq
                        (pshl na (Z.to_nat (24 - Z.pos (digits2_pos na))))
                        (pshl nb (Z.to_nat (24 - Z.pos (digits2_pos nb)))))
             | Lt => Gt
             | Gt => Lt
             end)
      with (CompOpp (Z.pos na ?= Z.pos nb)).
    + unfold Z.ltb. cbn [Z.compare]. reflexivity.
    + rewrite <- canon_compare by (apply digits_small; lia).
      destruct (Z.pos (digits2_pos na) - 24 ?= Z.pos (digits2_pos nb) - 24);
        reflexivity.
Qed.

Lemma to_int_of_int z : - 2 ^ 24 < z < 2 ^ 24 -> F32.to_int (F32.of_int z) = z.
Proof.
  intros Hz.
  assert (Hshift : forall n, Z.pos n < 2 ^ 24 ->
            Z.shiftl (Z.pos (pshl n (Z.to_nat (24 - Z.pos (digits2_pos n)))))
              (Z.pos (digits2_pos n) - 24) = Z.pos n).
  { intros n Hn. pose proof (digits_small n Hn).
    rewrite <- Z.shiftr_opp_r, Z.shiftr_div_pow2, pshl_val by lia.
    replace (- (Z.pos (digits2_pos n) - 24))
      with (Z.of_nat (Z.to_nat (24 - Z.pos (digits2_pos n)))) by lia.
    apply Z.div_mul. apply Z.pow_nonzero; lia. }
  destruct z as [|n|n]; [reflexivity| |].
  - rewrite of_int_pos by lia. unfold canon, F32.to_int. cbv zeta.
    rewrite Hshift by lia. cbn [cond_Zopp].
    unfold INT_MIN, INT_MAX.
    destruct (Z.leb_spec (- 2 ^ 31) (Z.pos n)); [|lia].
    destruct (Z.leb_spec (Z.pos n) (2 ^ 31 - 1)); [reflexivity|lia].
  - rewrite of_int_neg by lia. unfold canon, F32.to_int. cbv zeta.
    rewrite Hshift by lia. cbn [cond_Zopp].
    unfold INT_MIN, INT_MAX.
    destruct (Z.leb_spec (- 2 ^ 31) (- Z.pos n)); [|lia].
    destruct (Z.leb_spec (- Z.pos n) (2 ^ 31 - 1)); [reflexivity|lia].
Qed.

(** *** The lines of the grid *)

Lemma seqZ_S_cons k0 n : seqZ k0 (Z.of_nat (S n)) = k0 :: seqZ (k0 + 1) (Z.of_nat n).
Proof.
  rewrite seqZ_cons by lia. do 2 f_equal; lia.
Qed.

Lemma row_lines_exact g0 X Y n : forall g k0,
  sh g = sh g0 -> lineColor g = lineColor g0 ->
  x g = F32.of_int X ->
  F32.add (x g) (F32.of_int (u32_mul (sw g) (cols g)))
    = F32.of_int (X + cols g0 * sw g0) ->
  y g = F32.of_int (Y + k0 * sh g0) ->
  (forall k, k0 <= k < k0 + Z.of_nat n -> exact_sum (Y + k * sh g0) (sh g0)) ->
  row_lines n g = map (hline g0 X Y) (seqZ k0 (Z.of_nat n)).
Proof.
  induction n as [|n IH]; intros g k0 Hsh Hlc Hx Hxr Hy Hex; [reflexivity|].
  rewrite seqZ_S_cons. cbn [row_lines map]. f_equal.
  - unfold hline. by rewrite Hxr, Hx, Hy, Hlc.
  - apply IH; try assumption.
    + simpl. rewrite Hy, Hsh. rewrite (Hex k0) by lia. f_equal. lia.
    + intros k Hk. apply Hex. lia.
Qed.

Lemma col_lines_exact g0 X Y n : forall g k0,
  sw g = sw g0 -> lineColor g = lineColor g0 ->
  y g = F32.of_int Y ->
  F32.add (y g) (F32.of_int (u32_mul (sh g) (rows g)))
    = F32.of_int (Y + rows g0 * sh g0) ->
  x g = F32.of_int (X + k0 * sw g0) ->
  (forall k, k0 <= k < k0 + Z.of_nat n -> exact_sum (X + k * sw g0) (sw g0)) ->
  col_lines n g = map (vline g0 X Y) (seqZ k0 (Z.of_nat n)).
Proof.
  induction n as [|n IH]; intros g k0 Hsw Hlc Hy Hyb Hx Hex; [reflexivity|].
  rewrite seqZ_S_cons. cbn [col_lines map]. f_equal.
  - unfold vline. by rewrite Hyb, Hx, Hy, Hlc.
  - apply IH; try assumption.
    + simpl. rewrite Hx, Hsw. rewrite (Hex k0) by lia. f_equal. lia.
    + intros k Hk. apply Hex. lia.
Qed.

Lemma line_calls_exact g X Y :
  pixel_exact g X Y ->
  line_calls g =
    map (hline g X Y) (seqZ 0 (rows g)) ++
    map (vline g X Y) (seqZ 0 (cols g)) ++
    [hline g X Y (rows g); vline g X Y (cols g)].
Proof.
  intros (Hsx & Hsy & Hw & Hh & Hc & Hr & HX & HY & Hcw & Hrh & Hxr & Hyb).
  assert (Hrows : forall k, 0 <= k < rows g -> exact_sum (Y + k * sh g) (sh g)).
  { intros k Hk. apply of_int_add_exact; nia. }
  assert (Hcols : forall k, 0 <= k < cols g -> exact_sum (X + k * sw g) (sw g)).
  { intros k Hk. apply of_int_add_exact; nia. }
  assert (Hright : F32.add (sx g) (F32.of_int (u32_mul (sw g) (cols g)))
                   = F32.of_int (X + cols g * sw g)).
  { rewrite u32_mul_small, Hsx, (Z.mul_comm (sw g)) by (unfold UINT_MAX; lia).
    apply of_int_add_exact; nia. }
  assert (Hbottom : F32.add (sy g) (F32.of_int (u32_mul (sh g) (rows g)))
                    = F32.of_int (Y + rows g * sh g)).
  { rewrite u32_mul_small, Hsy, (Z.mul_comm (sh g)) by (unfold UINT_MAX; lia).
    apply of_int_add_exact; nia. }
  unfold line_calls. f_equal; [|f_equal].
  - rewrite <- (Z2Nat.id (rows g)) at 2 by lia.
    apply row_lines_exact; try reflexivity; simpl; try assumption.
    + rewrite Hsy. f_equal. lia.
    + intros k Hk. apply Hrows. lia.
  - rewrite <- (Z2Nat.id (cols g)) at 2 by lia.
    apply col_lines_exact; try reflexivity; simpl; try assumption.
    + rewrite Hsx. f_equal. lia.
    + intros k Hk. apply Hcols. lia.
  - unfold closing_lines, hline, vline.
    by rewrite Hright, Hbottom, Hsx, Hsy.
Qed.

Lemma seqZ_snoc n : 0 <= n -> seqZ 0 (n + 1) = seqZ 0 n ++ [n].
Proof. intros H. rewrite seqZ_app by lia. reflexivity. Qed.

(** C8, as the code has it: on a grid that starts on an integer pixel,
    with sizes and counts that are not negative and pixels that [float]
    holds exactly ([pixel_exact]), a line pass draws,
    all in the line colour, the [rows] horizontal lines at y = sy + k * sh
    for k < rows, the [cols] vertical lines at x = sx + k * sw for k < cols,
    then the horizontal line at y = sy + rows * sh and the vertical line
    at x = sx + cols * sw: the rows + 1 horizontal lines of length
    cols * sw and the cols + 1 vertical lines of length rows * sh, and
    nothing else. *)
Theorem DrawLineGrid_lines (g : grid_t) (X Y : Z) (w : world) :
  pixel_exact g X Y ->
  exists cs,
    Stds_DrawLineGrid (Some g) w = Ok (Some (rewound g)) (after_calls w cs) /\
    cs = map (hline g X Y) (seqZ 0 (rows g)) ++
         map (vline g X Y) (seqZ 0 (cols g)) ++
         [hline g X Y (rows g); vline g X Y (cols g)] /\
    Permutation cs
      (map (hline g X Y) (seqZ 0 (rows g + 1)) ++
       map (vline g X Y) (seqZ 0 (cols g + 1))) /\
    Z.of_nat (length cs) = (rows g + 1) + (cols g + 1).
Proof.
  intros Hex. exists (line_calls g).
  split; [apply DrawLineGrid_run|].
  pose proof (line_calls_exact g X Y Hex) as Hcs.
  destruct Hex as (_ & _ & _ & _ & Hc & Hr & _).
  split; [exact Hcs|]. rewrite Hcs. split.
  - rewrite !seqZ_snoc, !map_app by lia. simpl.
    rewrite <- app_assoc. apply Permutation_app_head.
    simpl. symmetry. apply Permutation_middle.
  - rewrite !length_app, !length_map, !length_seqZ. simpl. lia.
Qed.

(** ** Further properties *)

(** *** The teardown *)

Lemma FreeGrid_textures_run g l : forall pre w,
  textures g = Some (pre ++ l) ->
  FreeGrid_textures (length l) (Z.of_nat (length pre)) g w =
    Ok tt (after_calls w (map SDL_DestroyTexture l)).
Proof.
  induction l as [|t l IH]; intros pre w Ht; cbn [FreeGrid_textures length map].
  - by rewrite after_calls_nil.
  - assert (Hget : array_get (textures g) (Z.of_nat (length pre)) w = Ok t w).
    { unfold array_get. rewrite Ht.
      destruct (Z.leb_spec 0 (Z.of_nat (length pre))); [|lia].
      rewrite Nat2Z.id, lookup_app_r, Nat.sub_diag by lia. reflexivity. }
    rewrite (bind_Ok _ _ _ _ _ Hget).
    rewrite (bind_Ok _ _ _ _ _ (emit_after _ _)).
    replace (Z.of_nat (length pre) + 1) with (Z.of_nat (length (pre ++ [t])))
      by (rewrite length_app; simpl; lia).
    rewrite IH by (by rewrite <- app_assoc).
    by rewrite after_calls_app.
Qed.

Lemma FreeGrid_run g w :
  textures_consistent g ->
  Stds_FreeGrid (Some g) w = Ok tt (after_calls w (free_calls g)).
Proof.
  intros (Hrange & Hl). unfold Stds_FreeGrid, free_calls.
  cbn [deref]. unfold bind at 1, ret at 1.
  assert (Hfirst :
    (match textures g with
     | Some _ => FreeGrid_textures (Z.to_nat (to_u32 (textureBuffer g))) 0 g
     | None => ret tt
     end) w = Ok tt (after_calls w (map SDL_DestroyTexture (default [] (textures g))))).
  { destruct (textures g) as [l|] eqn:Ht; simpl.
    - rewrite to_u32_small by (unfold UINT_MAX, INT_MAX in *; lia).
      rewrite <- Hl, Nat2Z.id.
      apply (FreeGrid_textures_run g l [] w). exact Ht.
    - by rewrite after_calls_nil. }
  rewrite (bind_Ok _ _ _ _ _ Hfirst).
  destruct (spriteSheet g =? NULL); simpl.
  - unfold bind at 1, ret at 1.
    rewrite (bind_Ok _ _ _ _ _ (emit_after _ _)).
    unfold ret. by rewrite after_calls_app.
  - rewrite (bind_Ok _ _ _ _ _ (emit_after _ _)).
    rewrite (bind_Ok _ _ _ _ _ (emit_after _ _)).
    unfold ret. by rewrite !after_calls_app.
Qed.

(** X1: the teardown of a grid whose array agrees with its capacity
    releases every slot of the array in the order of the indices, those that
    no texture was stored in as well, then the sprite sheet if there is one,
    then the vector of animations, and it makes no other call. *)
Theorem FreeGrid_releases (g : grid_t) (w : world) :
  textures_consistent g ->
  Stds_FreeGrid (Some g) w = Ok tt (after_calls w (free_calls g)) /\
  length (free_calls g) =
    (Z.to_nat (textureBuffer g) +
     (if (spriteSheet g =? NULL)%Z then 0 else 1) + 1)%nat.
Proof.
  intros Hc. split; [by apply FreeGrid_run|].
  destruct Hc as (Hrange & Hl). unfold free_calls.
  rewrite !length_app, length_map.
  destruct (textures g) as [l|]; simpl.
  - rewrite <- Hl, Nat2Z.id. destruct (spriteSheet g =? NULL); simpl; lia.
  - replace (Z.to_nat (textureBuffer g)) with 0%nat by lia.
    destruct (spriteSheet g =? NULL); simpl; lia.
Qed.

Lemma textures_allocated_consistent g l :
  textures_allocated g l -> textures_consistent g.
Proof.
  intros (Ht & Hl & Hmax). unfold textures_consistent. rewrite Ht.
  unfold INT_MIN. split; [lia|exact Hl].
Qed.

(** X2: of all the textures that [Stds_AddGridTexture] loaded for a grid,
    the teardown releases the last one only: the others were overwritten in
    slot 0 and no call holds their handles any more. *)
Theorem FreeGrid_releases_last_texture (g : grid_t)
    (l : list (option SDL_Texture)) (paths : list string) (path : string)
    (w : world) :
  textures_allocated g l -> 0 < textureBuffer g ->
  exists g1 cs,
    add_textures (paths ++ [path]) (Some g) w
      = Ok (map (fun _ => 0) (paths ++ [path]), Some g1) w /\
    Stds_FreeGrid (Some g1) w = Ok tt (after_calls w cs) /\
    cs = SDL_DestroyTexture (Some (Stds_LoadTexture path))
         :: map SDL_DestroyTexture (tail l)
         ++ (if spriteSheet g =? NULL then []
             else [SDL_DestroyTexture (Some (spriteSheet g))])
         ++ [Stds_VectorDestroy (animation g)] /\
    forall q, q ∈ paths ->
      Stds_LoadTexture q <> Stds_LoadTexture path ->
      Some (Stds_LoadTexture q) ∉ l ->
      Stds_LoadTexture q <> spriteSheet g ->
      SDL_DestroyTexture (Some (Stds_LoadTexture q)) ∉ cs.
Proof.
  intros Hal Hpos.
  set (g1 := set_textures g (Some (<[0%nat := Some (Stds_LoadTexture path)]> l))
               (textureBuffer g)).
  assert (Hal1 : textures_allocated g1
                   (<[0%nat := Some (Stds_LoadTexture path)]> l)).
  { destruct Hal as (Ht & Hl & Hmax). unfold textures_allocated, g1; simpl.
    rewrite length_insert. auto. }
  assert (Hcs : free_calls g1 =
            SDL_DestroyTexture (Some (Stds_LoadTexture path))
            :: map SDL_DestroyTexture (tail l)
            ++ (if spriteSheet g =? NULL then []
                else [SDL_DestroyTexture (Some (spriteSheet g))])
            ++ [Stds_VectorDestroy (animation g)]).
  { unfold free_calls, g1; simpl.
    destruct Hal as (Ht & Hl & Hmax).
    destruct l as [|t l]; [simpl in Hl; lia|]. reflexivity. }
  exists g1, (free_calls g1). split; [by apply add_textures_all_zero|].
  split; [apply FreeGrid_run; by eapply textures_allocated_consistent|].
  split; [exact Hcs|].
  intros q _ Hne Hnl Hns. rewrite Hcs.
  rewrite not_elem_of_cons, !not_elem_of_app. repeat split.
  - congruence.
  - intros Hin. apply list_elem_of_In, in_map_iff in Hin as (t & Heq & Hin).
    injection Heq as ->. apply Hnl.
    destruct l; [destruct Hin|]. by apply list_elem_of_further, list_elem_of_In.
  - destruct (spriteSheet g =? NULL); [apply not_elem_of_nil|].
    rewrite list_elem_of_singleton. congruence.
  - rewrite list_elem_of_singleton. discriminate.
Qed.

(** *** The grid over a program *)

Lemma same_geometry_refl g : same_geometry g g.
Proof. unfold same_geometry. repeat split; reflexivity. Qed.

Lemma same_geometry_trans g1 g2 g3 :
  same_geometry g1 g2 -> same_geometry g2 g3 -> same_geometry g1 g3.
Proof.
  intros (? & ? & ? & ? & ? & ? & ? & ? & ?) (? & ? & ? & ? & ? & ? & ? & ? & ?).
  repeat split; etransitivity; eassumption.
Qed.

Lemma CreateGrid_ok x0 y0 squareWidth squareHeight cols0 rows0 lc fc :
  grid_ok (Stds_CreateGrid x0 y0 squareWidth squareHeight cols0 rows0 lc fc).
Proof.
  unfold grid_ok, textures_fit, animations_consistent; simpl.
  split; [reflexivity|]. split; [reflexivity|]. split.
  - split; [unfold INT_MIN, INT_MAX; lia|]. intros l Hl. discriminate Hl.
  - exists []. split; reflexivity.
Qed.

(** The four parts of the state of a grid. *)
Ltac grid_ok_parts := split; [|split; [|split]].

Lemma grid_ok_rewound g : grid_ok g -> grid_ok (rewound g).
Proof. intros (_ & _ & Ht & Ha). grid_ok_parts; try assumption; reflexivity. Qed.

Lemma grid_ok_set_sheet g t cl sc sr : grid_ok g -> grid_ok (set_sheet g t cl sc sr).
Proof. intros (Hx & Hy & Ht & Ha). grid_ok_parts; assumption. Qed.

Lemma grid_ok_allocate malloc g n :
  allocator_sound malloc -> grid_ok g -> INT_MIN <= n <= INT_MAX ->
  grid_ok (set_textures g (malloc n) n).
Proof.
  intros Hm (Hx & Hy & _ & Ha) Hn. grid_ok_parts; try assumption.
  split; simpl; [lia|]. intros l Hl. exact (Hm n l Hl).
Qed.

Lemma grid_ok_store g l i t :
  grid_ok g -> textures g = Some l ->
  grid_ok (set_textures g (Some (<[i := t]> l)) (textureBuffer g)).
Proof.
  intros (Hx & Hy & (Hr & Hl) & Ha) Ht.
  grid_ok_parts; try assumption.
  split; simpl; [lia|]. intros l' [= <-]. rewrite length_insert.
  exact (Hl l Ht).
Qed.

Lemma grid_ok_append g v a :
  grid_ok g -> animation g = Some v ->
  grid_ok (set_animation g (Some (v ++ [a])) (i32_add (animationBuffer g) 1)).
Proof.
  intros (Hx & Hy & Ht & (v' & Hv & Hb)) Ha.
  rewrite Ha in Hv. injection Hv as <-.
  grid_ok_parts; try assumption.
  exists (v ++ [a]). split; [reflexivity|]. simpl.
  unfold i32_add. rewrite Hb, to_i32_add_l, length_app. simpl.
  f_equal. lia.
Qed.

Lemma textures_fit_held g :
  textures_fit g -> textures_held g -> textures_consistent g.
Proof.
  intros (Hr & Hl) Hh. unfold textures_held in Hh. split; [exact Hr|].
  destruct (textures g) as [l|].
  - exact (Hl l eq_refl).
  - exact (Hh eq_refl).
Qed.

Lemma bind_inv {A B} (m : M A) (k : A -> M B) w b w' :
  bind m k w = Ok b w' -> exists a w1, m w = Ok a w1 /\ k a w1 = Ok b w'.
Proof.
  unfold bind. destruct (m w) as [a w1|]; [|discriminate].
  intros H. by exists a, w1.
Qed.

(** The answer of a call that is over. *)
Ltac returned H :=
  unfold ret in H; injection H as <- <-.

Ltac geometry_kept := unfold same_geometry; simpl; repeat split; reflexivity.

Ltac kept_as g :=
  right; exists g; split; [reflexivity|split; [|geometry_kept]].

(** With [malloc_textures] for [malloc], the calls are those of the
    functions as they are. *)
Lemma call_grid_with_malloc_textures c :
  call_grid_with malloc_textures c = call_grid c.
Proof. destruct c; reflexivity. Qed.

Lemma run_on_with_malloc_textures cs : forall grid w,
  run_on_with malloc_textures cs grid w = run_on cs grid w.
Proof.
  induction cs as [|c rest IH]; intros grid w; [reflexivity|].
  cbn [run_on_with run_on]. rewrite call_grid_with_malloc_textures.
  unfold bind. destruct (call_grid (retarget c grid) w); [apply IH|reflexivity].
Qed.

Lemma malloc_textures_sound : allocator_sound malloc_textures.
Proof.
  intros n l. unfold malloc_textures.
  destruct (Z.leb_spec 0 n); [|discriminate].
  intros [= <-]. rewrite length_replicate. lia.
Qed.

Lemma malloc_textures_serves : allocator_serves malloc_textures.
Proof.
  intros n Hn. unfold malloc_textures.
  destruct (Z.leb_spec 0 n); [by eexists|lia].
Qed.

(** Every call that returns leaves the grid in its state, with the
    geometry it had, whatever [malloc] answered; only the teardown leaves
    no grid. *)
Lemma call_grid_with_ok malloc c g w grid' w' :
  allocator_sound malloc -> grid_ok g -> typed_call c ->
  call_grid_with malloc (retarget c (Some g)) w = Ok grid' w' ->
  (is_free c /\ grid' = None) \/
  (exists g', grid' = Some g' /\ grid_ok g' /\ same_geometry g g').
Proof.
  intros Hm Hok Hty H.
  destruct c; cbn [retarget call_grid_with call_grid typed_call is_free] in *.
  - rewrite DrawLineGrid_run in H. injection H as <- <-.
    kept_as (rewound g). by apply grid_ok_rewound.
  - rewrite FillWholeGrid_run in H. injection H as <- <-.
    kept_as (rewound g). by apply grid_ok_rewound.
  - left. split; [exact I|].
    apply bind_inv in H as (u & w1 & _ & H). by returned H.
  - rewrite (bind_Ok _ _ _ _ _ (OnGridHover_run g p w)) in H. returned H.
    kept_as (rewound g). by apply grid_ok_rewound.
  - apply bind_inv in H as (r & w1 & Hr & H). returned H.
    rewrite OnGridClicked_run in Hr.
    destruct (OnGridClicked_rows _ _ _ _ _ _ _); [|discriminate].
    injection Hr as <- <-.
    kept_as (rewound g). by apply grid_ok_rewound.
  - unfold InitializeGridTextures_with, bind, get_world in H.
    destruct (onceCall w); simpl in H.
    + returned H. by kept_as g.
    + injection H as <- <-. right. eexists. split; [reflexivity|].
      split; [exact (grid_ok_allocate malloc g _ Hm Hok Hty)|]. geometry_kept.
  - apply bind_inv in H as (r & w1 & Hr & H). returned H.
    unfold Stds_AddGridTexture in Hr. simpl in Hr.
    unfold bind at 1 in Hr. simpl in Hr.
    destruct (-1 <? i32_sub (textureBuffer g) 1).
    + unfold bind, array_set in Hr.
      destruct (textures g) as [l|] eqn:Ht; [|discriminate].
      destruct (_ && _); [|discriminate]. injection Hr as <- <-.
      right. eexists. split; [reflexivity|].
      split; [by apply grid_ok_store|]. geometry_kept.
    + injection Hr as <- <-. by kept_as g.
  - unfold Stds_PutGridTexture in H. simpl in H. unfold bind at 1 in H.
    simpl in H.
    destruct (_ && _).
    + unfold bind in H.
      destruct (array_get _ _ _); [|discriminate]. simpl in H. returned H.
      by kept_as g.
    + returned H. by kept_as g.
  - unfold Stds_AddSpriteSheetToGrid in H. simpl in H.
    unfold bind at 1 in H. simpl in H.
    destruct (to_u32 cols0 =? 0); [discriminate|].
    destruct (to_u32 rows0 =? 0); [discriminate|].
    destruct (SDL_QueryTexture (Stds_LoadTexture filePath)) as [[W0 H0]|];
      returned H; (right; eexists; split; [reflexivity|]);
      (split; [by repeat apply grid_ok_set_sheet|geometry_kept]).
  - unfold Stds_SelectSpriteForGrid in H. simpl in H.
    unfold bind at 1 in H. simpl in H.
    destruct (_ && _).
    + returned H. right. eexists. split; [reflexivity|].
      split; [by repeat apply grid_ok_set_sheet|]. geometry_kept.
    + returned H. by kept_as g.
  - unfold Stds_DrawSelectedSpriteOnGrid in H. simpl in H.
    unfold bind at 1 in H. simpl in H.
    destruct (_ && _).
    + unfold bind in H. simpl in H. returned H. by kept_as g.
    + returned H. by kept_as g.
  - apply bind_inv in H as (r & w1 & Hr & H). returned H.
    unfold Stds_AddAnimationToGrid in Hr.
    destruct (animate =? NULL).
    + injection Hr as <- <-. by kept_as g.
    + simpl in Hr. unfold bind at 1 in Hr. simpl in Hr.
      unfold bind, Stds_VectorAppend in Hr.
      destruct (animation g) as [v|] eqn:Hv; [|discriminate].
      injection Hr as <- <-. right. eexists. split; [reflexivity|].
      split; [exact (grid_ok_append g v _ Hok Hv)|]. geometry_kept.
  - unfold Stds_RenderAnimationToGrid in H. simpl in H.
    unfold bind at 1 in H. simpl in H.
    destruct (animation g); [|returned H; by kept_as g].
    destruct (_ && _); [|returned H; by kept_as g].
    unfold bind at 1 in H.
    destruct (anim_load _ _); [|discriminate].
    unfold bind, anim_store, emit, get_world, put_world in H.
    returned H. by kept_as g.
  - unfold Stds_AddCollisionToGrid in H. simpl in H.
    unfold bind in H. simpl in H.
    destruct (_ && _); returned H; by kept_as g.
Qed.

Lemma call_grid_None c w grid' w' :
  call_grid (retarget c None) w = Ok grid' w' -> grid' = None.
Proof.
  destruct c; cbn [retarget call_grid]; try (by intros [= <- _]).
  unfold Stds_AddAnimationToGrid, bind.
  destruct (animate =? NULL); by intros [= <- _].
Qed.

Lemma run_on_None cs : forall w grid' w',
  run_on cs None w = Ok grid' w' -> grid' = None.
Proof.
  induction cs as [|c rest IH]; intros w grid' w' H; cbn [run_on] in H.
  - by returned H.
  - apply bind_inv in H as (grid1 & w1 & Hc & H).
    apply call_grid_None in Hc as ->. by eapply IH.
Qed.

Lemma call_grid_with_None malloc c w grid' w' :
  call_grid_with malloc (retarget c None) w = Ok grid' w' -> grid' = None.
Proof.
  destruct c; try exact (call_grid_None _ w grid' w').
  cbn [retarget call_grid_with]. by intros [= <- _].
Qed.

Lemma run_on_with_None malloc cs : forall w grid' w',
  run_on_with malloc cs None w = Ok grid' w' -> grid' = None.
Proof.
  induction cs as [|c rest IH]; intros w grid' w' H; cbn [run_on_with] in H.
  - by returned H.
  - apply bind_inv in H as (grid1 & w1 & Hc & H).
    apply call_grid_with_None in Hc as ->. by eapply IH.
Qed.

Lemma run_on_with_ok malloc cs : forall g w grid' w',
  allocator_sound malloc -> grid_ok g -> Forall typed_call cs ->
  run_on_with malloc cs (Some g) w = Ok grid' w' ->
  match grid' with
  | Some g' => grid_ok g' /\ same_geometry g g'
  | None => Exists is_free cs
  end.
Proof.
  induction cs as [|c rest IH]; intros g w grid' w' Hm Hok Hty H;
    cbn [run_on_with] in H.
  - returned H. split; [exact Hok|apply same_geometry_refl].
  - apply bind_inv in H as (grid1 & w1 & Hc & H).
    apply Forall_cons in Hty as (Hc_ty & Hty).
    destruct (call_grid_with_ok _ _ _ _ _ _ Hm Hok Hc_ty Hc)
      as [(Hfree & ->)|(g1 & -> & Hok1 & Hgeo1)].
    + apply run_on_with_None in H as ->. by apply Exists_cons_hd.
    + specialize (IH g1 w1 grid' w' Hm Hok1 Hty H).
      destruct grid' as [g'|].
      * destruct IH as (Hok' & Hgeo'). split; [exact Hok'|].
        by eapply same_geometry_trans.
      * by apply Exists_cons_tl.
Qed.

(** X3: whatever calls a program makes on a grid that [Stds_CreateGrid]
    returned, and whatever [malloc] answers to
    [Stds_InitializeGridTextures], an array of the count asked for or
    [NULL], as long as the calls return, the grid keeps the position, the
    cell sizes, the counts, the colours and the camera flag of its
    creation, its cursor is back on the start position, the array of
    textures, when it is not [NULL], has as many slots as the capacity
    says, and [animationBuffer] is the index of the last entry of the
    vector; the grid is gone only if the program freed it. *)
Theorem created_grid_stays_ok
    (malloc : Z -> option (list (option SDL_Texture)))
    (x0 y0 : float) (squareWidth squareHeight : Z)
    (cols0 rows0 : Z) (lc fc : SDL_Color) (cs : list grid_call)
    (w w' : world) (grid' : option grid_t) :
  allocator_sound malloc ->
  Forall typed_call cs ->
  run_on_with malloc cs
    (Some (Stds_CreateGrid x0 y0 squareWidth squareHeight cols0 rows0 lc fc)) w
    = Ok grid' w' ->
  match grid' with
  | Some g' =>
      x g' = sx g' /\ y g' = sy g' /\
      INT_MIN <= textureBuffer g' <= INT_MAX /\
      (forall l, textures g' = Some l -> Z.of_nat (length l) = textureBuffer g') /\
      (exists v, animation g' = Some v /\
                 animationBuffer g' = to_i32 (Z.of_nat (length v) - 1)) /\
      same_geometry
        (Stds_CreateGrid x0 y0 squareWidth squareHeight cols0 rows0 lc fc) g'
  | None => Exists is_free cs
  end.
Proof.
  intros Hm Hty H.
  pose proof (run_on_with_ok malloc cs _ w grid' w' Hm
                (CreateGrid_ok x0 y0 squareWidth squareHeight cols0 rows0 lc fc)
                Hty H) as Hrun.
  destruct grid' as [g'|]; [|exact Hrun].
  destruct Hrun as ((Hx & Hy & (Hr & Hl) & Ha) & Hgeo).
  repeat (split; [assumption|]). exact Hgeo.
Qed.

Lemma guarded_typed c : guarded_call c -> typed_call c.
Proof. destruct c; simpl; intros H; try exact H; try exact I. lia. Qed.

Ltac runs_with Hmin Hheld :=
  eexists _, _; split; [reflexivity|split; [exact Hmin|exact Hheld]].

(** With an allocator that serves, a guarded call on a grid in its state
    returns, the capacity stays above [INT_MIN], and a [NULL] array stays
    without capacity. *)
Lemma call_grid_with_guarded malloc c g w :
  allocator_serves malloc ->
  grid_ok g -> textures_held g -> INT_MIN < textureBuffer g ->
  guarded_call c ->
  exists g' w',
    call_grid_with malloc (retarget c (Some g)) w = Ok (Some g') w' /\
    INT_MIN < textureBuffer g' /\ textures_held g'.
Proof.
  intros Hserves (Hx & Hy & (Hrange & Hl) & (v & Hv & Hb)) Hheld Hmin Hg.
  unfold textures_held in Hheld.
  destruct c; cbn [retarget call_grid_with call_grid guarded_call] in *;
    try contradiction.
  - rewrite DrawLineGrid_run. runs_with Hmin Hheld.
  - rewrite FillWholeGrid_run. runs_with Hmin Hheld.
  - rewrite (bind_Ok _ _ _ _ _ (OnGridHover_run g p w)). runs_with Hmin Hheld.
  - unfold InitializeGridTextures_with, bind, get_world.
    destruct (onceCall w); simpl.
    + runs_with Hmin Hheld.
    + eexists _, _. split; [reflexivity|]. split; [simpl; lia|].
      unfold textures_held. simpl. intros Hnone.
      destruct (Z.ltb_spec 0 textureBuffer0) as [Hpos|]; [|lia].
      destruct (Hserves _ Hpos) as (l & Hsome). rewrite Hsome in Hnone.
      discriminate Hnone.
  - unfold Stds_AddGridTexture. simpl. unfold bind at 2. simpl.
    unfold i32_sub. rewrite to_i32_small by (unfold INT_MIN, INT_MAX in *; lia).
    destruct (Z.ltb_spec (-1) (textureBuffer g - 1)).
    + change (i32_add (-1) 1) with 0.
      destruct (textures g) as [l|] eqn:Ht; [|specialize (Hheld eq_refl); lia].
      specialize (Hl l eq_refl).
      unfold bind, array_set.
      destruct (Z.ltb_spec 0 (Z.of_nat (length l))); [|lia]. simpl.
      eexists _, _. split; [reflexivity|]. split; [simpl; lia|].
      unfold textures_held. simpl. intros Hnone. discriminate Hnone.
    + unfold bind. simpl. runs_with Hmin Hheld.
  - unfold Stds_PutGridTexture. simpl. unfold bind at 1. simpl.
    destruct (Z.ltb_spec index (textureBuffer g));
      [|simpl; runs_with Hmin Hheld].
    destruct (Z.ltb_spec (-1) index); [|simpl; runs_with Hmin Hheld]. simpl.
    destruct (textures g) as [l|] eqn:Ht; [|specialize (Hheld eq_refl); lia].
    specialize (Hl l eq_refl).
    destruct (lookup_lt_is_Some_2 l (Z.to_nat index)) as (t & Hget); [lia|].
    unfold bind, array_get.
    destruct (Z.leb_spec 0 index); [|lia]. rewrite Hget. simpl.
    eexists _, _. split; [reflexivity|]. split; [exact Hmin|].
    unfold textures_held. rewrite Ht. intros Hnone. discriminate Hnone.
  - destruct Hg as (Hc & Hr).
    unfold Stds_AddSpriteSheetToGrid. simpl. unfold bind at 1. simpl.
    destruct (Z.eqb_spec (to_u32 cols0) 0); [contradiction|].
    destruct (Z.eqb_spec (to_u32 rows0) 0); [contradiction|].
    destruct (SDL_QueryTexture _) as [[W0 H0]|]; runs_with Hmin Hheld.
  - unfold Stds_SelectSpriteForGrid. simpl. unfold bind at 1. simpl.
    destruct (_ && _); runs_with Hmin Hheld.
  - unfold Stds_DrawSelectedSpriteOnGrid. simpl. unfold bind at 1. simpl.
    destruct (_ && _); [unfold bind; simpl|]; runs_with Hmin Hheld.
  - unfold Stds_AddAnimationToGrid.
    destruct (animate =? NULL).
    + unfold bind. simpl. runs_with Hmin Hheld.
    + simpl. unfold bind at 2. simpl. rewrite Hv. unfold bind. simpl.
      runs_with Hmin Hheld.
  - unfold Stds_AddCollisionToGrid. simpl. unfold bind. simpl.
    destruct (_ && _); runs_with Hmin Hheld.
Qed.

Lemma run_on_with_guarded malloc cs : forall g w,
  allocator_sound malloc -> allocator_serves malloc ->
  grid_ok g -> textures_held g -> INT_MIN < textureBuffer g ->
  Forall guarded_call cs ->
  exists g' w',
    run_on_with malloc cs (Some g) w = Ok (Some g') w' /\
    grid_ok g' /\ textures_held g'.
Proof.
  induction cs as [|c rest IH]; intros g w Hm Hs Hok Hheld Hmin Hg;
    cbn [run_on_with].
  - by exists g, w.
  - apply Forall_cons in Hg as (Hc & Hg).
    destruct (call_grid_with_guarded malloc c g w Hs Hok Hheld Hmin Hc)
      as (g1 & w1 & Hrun & Hmin1 & Hheld1).
    destruct (call_grid_with_ok _ _ _ _ _ _ Hm Hok (guarded_typed _ Hc) Hrun)
      as [(_ & [=])|(g1' & [= <-] & Hok1 & _)].
    rewrite (bind_Ok _ _ _ _ _ Hrun). by apply IH.
Qed.

(** The allocation is not tested: when [malloc] answers [NULL] for a
    positive count, the capacity is stored all the same, and the next
    [Stds_AddGridTexture] writes through [NULL]. *)
Lemma refused_allocation_faults malloc g n path w :
  malloc n = None -> 0 < n <= INT_MAX -> onceCall w = false ->
  run_on_with malloc
    [Call_InitializeGridTextures None n; Call_AddGridTexture None path]
    (Some g) w = Fault.
Proof.
  intros Hnone Hn Honce.
  cbn [run_on_with retarget call_grid_with call_grid].
  unfold InitializeGridTextures_with, bind at 1 2, get_world.
  rewrite Honce, Hnone. simpl.
  unfold Stds_AddGridTexture. simpl. unfold bind at 3. simpl.
  unfold i32_sub. rewrite to_i32_small by (unfold INT_MIN, INT_MAX in *; lia).
  destruct (Z.ltb_spec (-1) (n - 1)); [|lia].
  reflexivity.
Qed.

(** X4: when [malloc] serves every positive count with an array of that
    many slots, a program of guarded calls on a grid that
    [Stds_CreateGrid] returned never reads or writes outside of the array
    of textures and never dereferences [NULL]: every call returns, and so
    does the teardown after the last of them.  The condition on [malloc]
    is needed: [Stds_InitializeGridTextures] stores the capacity without a
    test of the array, and after a [malloc] that answered [NULL] for a
    positive count, [Stds_AddGridTexture] writes through [NULL]. *)
Theorem created_grid_never_faults
    (malloc : Z -> option (list (option SDL_Texture)))
    (x0 y0 : float)
    (squareWidth squareHeight : Z) (cols0 rows0 : Z) (lc fc : SDL_Color)
    (cs : list grid_call) (w : world) :
  allocator_sound malloc -> allocator_serves malloc ->
  Forall guarded_call cs ->
  (exists g' w',
     run_on_with malloc cs
       (Some (Stds_CreateGrid x0 y0 squareWidth squareHeight cols0 rows0 lc fc))
       w = Ok (Some g') w' /\
     Stds_FreeGrid (Some g') w' = Ok tt (after_calls w' (free_calls g'))) /\
  (forall (refusing : Z -> option (list (option SDL_Texture))) (n : Z)
          (path : string),
     refusing n = None -> 0 < n <= INT_MAX -> onceCall w = false ->
     guarded_call (Call_InitializeGridTextures None n) /\
     guarded_call (Call_AddGridTexture None path) /\
     run_on_with refusing
       [Call_InitializeGridTextures None n; Call_AddGridTexture None path]
       (Some (Stds_CreateGrid x0 y0 squareWidth squareHeight cols0 rows0 lc fc))
       w = Fault).
Proof.
  intros Hm Hs Hg. split.
  - destruct (run_on_with_guarded malloc cs _ w Hm Hs
                (CreateGrid_ok x0 y0 squareWidth squareHeight cols0 rows0 lc fc))
      as (g' & w' & Hrun & Hok & Hheld); [| |exact Hg|].
    { intros _. simpl. lia. }
    { simpl. unfold INT_MIN. lia. }
    exists g', w'. split; [exact Hrun|].
    apply FreeGrid_run. apply textures_fit_held; [apply Hok|exact Hheld].
  - intros refusing n path Hnone Hn Honce.
    split; [simpl; unfold INT_MIN; lia|]. split; [exact I|].
    by apply refused_allocation_faults.
Qed.

(** *** The fill of the grid *)

Lemma fill_cols_calls_exact g X Y r n : forall rect k0,
  frect_x rect = F32.of_int (X + k0 * sw g) ->
  frect_y rect = F32.of_int (Y + r * sh g) ->
  frect_w rect = F32.of_int (sw g) -> frect_h rect = F32.of_int (sh g) ->
  (forall k, k0 <= k < k0 + Z.of_nat n -> exact_sum (X + k * sw g) (sw g)) ->
  fill_cols_calls n g rect
    = map (fun c => cell_fill g X Y c r) (seqZ k0 (Z.of_nat n)).
Proof.
  induction n as [|n IH]; intros rect k0 Hx Hy Hw Hh Hex; [reflexivity|].
  rewrite seqZ_S_cons. cbn [fill_cols_calls map]. f_equal.
  - unfold cell_fill, cell_frect. rewrite <- Hx, <- Hy, <- Hw, <- Hh.
    by destruct rect.
  - apply IH; try assumption.
    + simpl. rewrite Hx. rewrite (Hex k0) by lia. f_equal. lia.
    + intros k Hk. apply Hex. lia.
Qed.

Lemma fill_rows_calls_exact g X Y n : forall rect r0,
  sx g = F32.of_int X -> 0 <= cols g ->
  frect_x rect = F32.of_int X ->
  frect_y rect = F32.of_int (Y + r0 * sh g) ->
  frect_w rect = F32.of_int (sw g) -> frect_h rect = F32.of_int (sh g) ->
  (forall k, 0 <= k < cols g -> exact_sum (X + k * sw g) (sw g)) ->
  (forall k, r0 <= k < r0 + Z.of_nat n -> exact_sum (Y + k * sh g) (sh g)) ->
  fill_rows_calls n g rect
    = flat_map (fun r => map (fun c => cell_fill g X Y c r) (seqZ 0 (cols g)))
        (seqZ r0 (Z.of_nat n)).
Proof.
  induction n as [|n IH]; intros rect r0 Hsx Hc Hx Hy Hw Hh Hcols Hrows;
    [reflexivity|].
  rewrite seqZ_S_cons. cbn [fill_rows_calls flat_map]. f_equal.
  - rewrite <- (Z2Nat.id (cols g)) at 2 by lia.
    apply fill_cols_calls_exact; try assumption.
    + rewrite Hx. f_equal. lia.
    + intros k Hk. apply Hcols. lia.
  - apply IH; try assumption; simpl; try assumption.
    + rewrite Hy. rewrite (Hrows r0) by lia. f_equal. lia.
    + intros k Hk. apply Hrows. lia.
Qed.

Lemma fill_calls_exact g X Y : pixel_exact g X Y -> fill_calls g = cell_fills g X Y.
Proof.
  intros (Hsx & Hsy & Hw & Hh & Hc & Hr & HX & HY & Hcw & Hrh & Hxr & Hyb).
  unfold fill_calls, cell_fills.
  rewrite <- (Z2Nat.id (rows g)) at 2 by lia.
  apply (fill_rows_calls_exact (rewound g) X Y); simpl; try assumption;
    try reflexivity.
  - rewrite Hsy. f_equal. lia.
  - intros k Hk. apply of_int_add_exact; nia.
  - intros k Hk. apply of_int_add_exact; nia.
Qed.

Lemma cell_fills_length g X Y :
  0 <= cols g -> 0 <= rows g ->
  Z.of_nat (length (cell_fills g X Y)) = rows g * cols g.
Proof.
  intros Hc Hr. unfold cell_fills.
  rewrite (flat_map_constant_length (c := Z.to_nat (cols g))).
  - rewrite length_seqZ. nia.
  - intros r _. by rewrite length_map, length_seqZ.
Qed.

Lemma cell_fills_lookup g X Y c r :
  0 <= c < cols g -> 0 <= r < rows g ->
  cell_fills g X Y !! Z.to_nat (r * cols g + c) = Some (cell_fill g X Y c r).
Proof.
  intros Hcr Hrr.
  assert (Hlen : forall r0 n,
            length (flat_map (fun r => map (fun c => cell_fill g X Y c r)
                                         (seqZ 0 (cols g))) (seqZ r0 n))
            = (Z.to_nat n * Z.to_nat (cols g))%nat).
  { intros r0 n. rewrite (flat_map_constant_length (c := Z.to_nat (cols g))).
    - by rewrite length_seqZ.
    - intros r' _. by rewrite length_map, length_seqZ. }
  unfold cell_fills.
  replace (rows g) with (r + (1 + (rows g - r - 1))) by lia.
  rewrite seqZ_app by lia. rewrite flat_map_app.
  rewrite lookup_app_r by (rewrite Hlen; nia).
  rewrite Hlen.
  replace (Z.to_nat (r * cols g + c) - Z.to_nat r * Z.to_nat (cols g))%nat
    with (Z.to_nat c) by nia.
  rewrite seqZ_app by lia. rewrite flat_map_app.
  rewrite lookup_app_l by (rewrite Hlen; nia).
  rewrite (seqZ_cons _ 1) by lia. simpl. rewrite app_nil_r.
  rewrite list_lookup_fmap. rewrite lookup_seqZ_lt by lia. simpl.
  do 3 f_equal. lia.
Qed.

(** X5: on a grid of pixels that [float] holds exactly, a fill pass draws
    one filled rectangle per cell, row after row and from left to right in
    each row, in the fill colour: the rectangle of the cell (c, r) has its
    corner on (sx + c * sw, sy + r * sh) and the size of a cell; it draws
    rows * cols of them and nothing else. *)
Theorem FillWholeGrid_cells (g : grid_t) (X Y : Z) (w : world) :
  pixel_exact g X Y ->
  Stds_FillWholeGrid (Some g) w
    = Ok (Some (rewound g)) (after_calls w (cell_fills g X Y)) /\
  Z.of_nat (length (cell_fills g X Y)) = rows g * cols g /\
  forall c r, 0 <= c < cols g -> 0 <= r < rows g ->
    cell_fills g X Y !! Z.to_nat (r * cols g + c) = Some (cell_fill g X Y c r).
Proof.
  intros Hex. rewrite FillWholeGrid_run, (fill_calls_exact g X Y Hex).
  split; [reflexivity|].
  destruct Hex as (_ & _ & _ & _ & Hc & Hr & _).
  split; [by apply cell_fills_length|].
  intros c r. apply cell_fills_lookup.
Qed.

(** X6: whatever the position and the sizes of the grid, a line pass makes
    rows + cols + 2 calls, all of them lines in the line colour, and a fill
    pass makes rows * cols calls, all of them filled rectangles of the size
    of a cell in the fill colour. *)
Theorem passes_call_counts (g : grid_t) (w : world) :
  exists cs ds,
    Stds_DrawLineGrid (Some g) w = Ok (Some (rewound g)) (after_calls w cs) /\
    length cs = (Z.to_nat (rows g) + Z.to_nat (cols g) + 2)%nat /\
    Forall (is_line (lineColor g)) cs /\
    Stds_FillWholeGrid (Some g) w = Ok (Some (rewound g)) (after_calls w ds) /\
    length ds = (Z.to_nat (rows g) * Z.to_nat (cols g))%nat /\
    Forall (is_cell_fill g) ds.
Proof.
  exists (line_calls g), (fill_calls g).
  assert (Hrow : forall n g0, length (row_lines n g0) = n /\
                   Forall (is_line (lineColor g0)) (row_lines n g0)).
  { induction n as [|n IH]; intros g0; cbn [row_lines]; [by split|].
    destruct (IH (set_y g0 (F32.add (y g0) (F32.of_int (sh g0))))) as (Hl & Hf).
    split; [cbn [length]; by rewrite Hl|].
    constructor; [by eexists _, _, _, _|exact Hf]. }
  assert (Hcol : forall n g0, length (col_lines n g0) = n /\
                   Forall (is_line (lineColor g0)) (col_lines n g0)).
  { induction n as [|n IH]; intros g0; cbn [col_lines]; [by split|].
    destruct (IH (set_x g0 (F32.add (x g0) (F32.of_int (sw g0))))) as (Hl & Hf).
    split; [cbn [length]; by rewrite Hl|].
    constructor; [by eexists _, _, _, _|exact Hf]. }
  assert (Hfc : forall n rect,
            frect_w rect = F32.of_int (sw g) -> frect_h rect = F32.of_int (sh g) ->
            length (fill_cols_calls n (rewound g) rect) = n /\
            Forall (is_cell_fill g) (fill_cols_calls n (rewound g) rect)).
  { induction n as [|n IH]; intros rect Hw Hh; cbn [fill_cols_calls]; [by split|].
    destruct (IH (set_frect_x rect
                    (F32.add (frect_x rect) (F32.of_int (sw (rewound g))))))
      as (Hl & Hf); [exact Hw|exact Hh|].
    split; [cbn [length]; by rewrite Hl|].
    constructor; [by exists rect|exact Hf]. }
  assert (Hfr : forall n rect,
            frect_w rect = F32.of_int (sw g) -> frect_h rect = F32.of_int (sh g) ->
            length (fill_rows_calls n (rewound g) rect)
              = (n * Z.to_nat (cols g))%nat /\
            Forall (is_cell_fill g) (fill_rows_calls n (rewound g) rect)).
  { induction n as [|n IH]; intros rect Hw Hh; cbn [fill_rows_calls]; [by split|].
    change (cols (rewound g)) with (cols g).
    destruct (Hfc (Z.to_nat (cols g)) rect Hw Hh) as (Hl1 & Hf1).
    destruct (IH {| frect_x := sx (rewound g);
                    frect_y := F32.add (frect_y rect) (F32.of_int (sh (rewound g)));
                    frect_w := frect_w rect; frect_h := frect_h rect |} Hw Hh)
      as (Hl2 & Hf2).
    split.
    - rewrite length_app, Hl1, Hl2. lia.
    - apply Forall_app. split; [exact Hf1|exact Hf2]. }
  split; [apply DrawLineGrid_run|].
  split; [|split; [|split; [apply FillWholeGrid_run|]]].
  - unfold line_calls. rewrite !length_app.
    rewrite (proj1 (Hrow _ _)), (proj1 (Hcol _ _)). simpl. lia.
  - unfold line_calls. rewrite !Forall_app. repeat split.
    + apply (Hrow _ (rewound g)).
    + apply (Hcol _ (rewound g)).
    + unfold closing_lines. repeat constructor; by eexists _, _, _, _.
  - unfold fill_calls. split; by apply Hfr.
Qed.

(** *** What the resolvers answer *)

Lemma OnGridClicked_cols_pressed g mouseCode n : forall c rect p w q w',
  OnGridClicked_cols n c g mouseCode rect p w = Ok (inl q) w' ->
  pressed w mouseCode.
Proof.
  induction n as [|n IH]; intros c rect p w q w'; cbn [OnGridClicked_cols].
  - discriminate.
  - unfold bind at 1, get_world. unfold bind at 1.
    destruct (Stds_IsMouseOverRect _ _ rect).
    + unfold bind at 1. unfold button_get, bind, get_world, array_get.
      destruct (Z.leb_spec 0 mouseCode) as [H0|]; [|discriminate].
      destruct (button (mouse w) !! Z.to_nat mouseCode) as [b|] eqn:Hb;
        [|discriminate].
      unfold ret at 1 2. destruct (Z.eqb_spec b 0) as [->|Hnz]; simpl.
      * intros H. apply IH in H. destruct H as (_ & b' & Hb' & Hnz').
        congruence.
      * intros _. split; [exact H0|]. by exists b.
    + unfold ret at 1. apply IH.
Qed.

Lemma OnGridClicked_rows_pressed g mouseCode n : forall r rect p w q w',
  OnGridClicked_rows n r g mouseCode rect p w = Ok (inl q) w' ->
  pressed w mouseCode.
Proof.
  induction n as [|n IH]; intros r rect p w q w' H; cbn [OnGridClicked_rows] in H.
  - discriminate.
  - apply bind_inv in H as (res & w1 & Hc & H).
    destruct res as [q1|[rect1 p1]].
    + by eapply OnGridClicked_cols_pressed.
    + apply OnGridClicked_cols_inv in Hc. subst w1. by eapply IH.
Qed.

Lemma names_cell_scan g m p q :
  OnGridHover_rows (Z.to_nat (rows g)) 0 g m (cell_rect g 0 0) p = inl q ->
  names_cell g m q.
Proof.
  intros E. pose proof (OnGridHover_rows_spec g m (Z.to_nat (rows g)) 0 p) as H.
  rewrite E in H. destruct H as (k & j & Hk & Hj & Hover & _ & Hc & Hr & Hx & Hy).
  exists k, j. repeat split; try assumption; lia.
Qed.

Lemma over_some_scan g m p :
  over_some g m ->
  exists q,
    OnGridHover_rows (Z.to_nat (rows g)) 0 g m (cell_rect g 0 0) p = inl q.
Proof.
  intros (c & r & Hc & Hr & Hover).
  pose proof (OnGridHover_rows_spec g m (Z.to_nat (rows g)) 0 p) as H.
  destruct (OnGridHover_rows _ _ _ _ _ _) as [q|s]; [by exists q|].
  rewrite (H c r) in Hover by lia. discriminate.
Qed.

(** X7: the pair that [Stds_OnGridHover] answers is the sentinel or it
    names a cell of the grid that the pointer is over, with the corner of
    the rectangle of this cell in [x] and [y]; the call changes nothing
    but the cursor of the grid. *)
Theorem hover_answer_sound (g : grid_t) (p : grid_pair_t) (w : world) :
  exists q,
    Stds_OnGridHover (Some g) p w = Ok (q, Some (rewound g)) w /\
    (sentinel q \/ names_cell g (mouse w) q).
Proof.
  destruct (OnGridHover_rows (Z.to_nat (rows g)) 0 g (mouse w)
              (cell_rect g 0 0) p) as [q|s] eqn:E.
  - exists q. split; [by apply hover_hit|]. right. by eapply names_cell_scan.
  - exists (answer (inr s)). split; [by apply hover_miss|].
    left. apply answer_miss.
Qed.

(** X8: when [Stds_OnGridClicked] returns, either it answers the sentinel
    and the world is as it was, or it names a cell of the grid that the
    pointer is over, the button of the call was pressed, and the only
    change of the world is that the flag of this button is cleared. *)
Theorem click_answer_sound (g : grid_t) (mouseCode : Z) (p : grid_pair_t)
    (w w' : world) (q : grid_pair_t) (grid' : option grid_t) :
  Stds_OnGridClicked (Some g) mouseCode p w = Ok (q, grid') w' ->
  (sentinel q /\ w' = w) \/
  (names_cell g (mouse w) q /\ pressed w mouseCode /\
   w' = cleared mouseCode w).
Proof.
  intros H. rewrite OnGridClicked_run in H.
  destruct (OnGridClicked_rows _ _ _ _ _ _ _) as [res w1|] eqn:E;
    [|discriminate].
  injection H as <- _ <-.
  pose proof (OnGridClicked_rows_inv _ _ _ _ _ _ _ _ _ E) as Hinv.
  destruct res as [q|s].
  - right. destruct Hinv as (_ & _ & ->).
    pose proof (OnGridClicked_rows_pressed _ _ _ _ _ _ _ _ _ E) as Hp.
    split; [|by split].
    destruct (OnGridHover_rows (Z.to_nat (rows g)) 0 g (mouse w)
                (cell_rect g 0 0) p) as [q'|s] eqn:Eh.
    + rewrite (OnGridClicked_rows_hit g mouseCode _ _ _ _ _ _ Hp Eh) in E.
      injection E as <-. by eapply names_cell_scan.
    + rewrite (OnGridClicked_rows_miss g mouseCode _ _ _ _ _ _ Eh) in E.
      discriminate.
  - left. split; [apply answer_miss|exact Hinv].
Qed.

(** X9: with the button of the call pressed, [Stds_OnGridClicked] answers
    the pair that [Stds_OnGridHover] answers on the same grid and pointer;
    it leaves the pointer where it is, so that a hover after the click
    answers this pair again. *)
Theorem click_follows_hover (g : grid_t) (mouseCode : Z) (p : grid_pair_t)
    (w : world) :
  pressed w mouseCode ->
  exists q w',
    Stds_OnGridHover (Some g) p w = Ok (q, Some (rewound g)) w /\
    Stds_OnGridClicked (Some g) mouseCode p w = Ok (q, Some (rewound g)) w' /\
    (w' = w \/ w' = cleared mouseCode w) /\
    Stds_OnGridHover (Some (rewound g)) p w' = Ok (q, Some (rewound g)) w'.
Proof.
  intros Hp.
  assert (Hagain : forall w', mouse_x (mouse w') = mouse_x (mouse w) ->
            mouse_y (mouse w') = mouse_y (mouse w) ->
            Stds_OnGridHover (Some (rewound g)) p w'
            = match Stds_OnGridHover (Some g) p w with
              | Ok r _ => Ok r w'
              | Fault => Fault
              end).
  { intros w' Hx Hy. rewrite !OnGridHover_run.
    change (rewound (rewound g)) with (rewound g).
    change (rows (rewound g)) with (rows g).
    change (cell_rect (rewound g) 0 0) with (cell_rect g 0 0).
    unfold rewound at 1. rewrite OnGridHover_rows_cursor.
    assert (Hm : forall n r rect p0,
              OnGridHover_rows n r g (mouse w') rect p0
              = OnGridHover_rows n r g (mouse w) rect p0).
    { assert (Hc : forall n c rect p0,
                OnGridHover_cols n c g (mouse w') rect p0
                = OnGridHover_cols n c g (mouse w) rect p0).
      { induction n as [|n IH]; intros c rect p0; cbn [OnGridHover_cols];
          [reflexivity|].
        rewrite Hx, Hy. destruct (Stds_IsMouseOverRect _ _ rect); [reflexivity|].
        apply IH. }
      induction n as [|n IH]; intros r rect p0; cbn [OnGridHover_rows];
        [reflexivity|].
      rewrite Hc. destruct (OnGridHover_cols _ _ _ _ _ _) as [q0|[rect0 q0]];
        [reflexivity|]. apply IH. }
    rewrite Hm. reflexivity. }
  destruct (OnGridHover_rows (Z.to_nat (rows g)) 0 g (mouse w)
              (cell_rect g 0 0) p) as [q|s] eqn:E.
  - exists q, (cleared mouseCode w).
    pose proof (hover_hit g p w q E) as Hh.
    split; [exact Hh|]. split; [by apply click_hit|]. split; [by right|].
    rewrite Hagain by reflexivity. by rewrite Hh.
  - exists (answer (inr s)), w.
    pose proof (hover_miss g p w s E) as Hh.
    split; [exact Hh|]. split; [by apply click_miss|]. split; [by left|].
    rewrite Hagain by reflexivity. by rewrite Hh.
Qed.

Lemma button_get_unknown mouseCode w :
  unknown_button w mouseCode -> button_get mouseCode w = Fault.
Proof.
  intros [Hneg|Hbig]; unfold button_get, bind, get_world, array_get.
  - destruct (Z.leb_spec 0 mouseCode); [lia|reflexivity].
  - destruct (0 <=? mouseCode); [|reflexivity].
    rewrite lookup_ge_None_2 by lia. reflexivity.
Qed.

Lemma OnGridClicked_cols_unknown g mouseCode n : forall c rect p w q,
  unknown_button w mouseCode ->
  OnGridHover_cols n c g (mouse w) rect p = inl q ->
  OnGridClicked_cols n c g mouseCode rect p w = Fault.
Proof.
  induction n as [|n IH]; intros c rect p w q Hu;
    cbn [OnGridHover_cols OnGridClicked_cols].
  - discriminate.
  - unfold bind at 1, get_world. unfold bind at 1.
    destruct (Stds_IsMouseOverRect _ _ rect).
    + intros _. unfold bind at 1. by rewrite button_get_unknown.
    + intros H. unfold ret at 1. by eapply IH.
Qed.

Lemma OnGridClicked_rows_unknown g mouseCode n : forall r rect p w q,
  unknown_button w mouseCode ->
  OnGridHover_rows n r g (mouse w) rect p = inl q ->
  OnGridClicked_rows n r g mouseCode rect p w = Fault.
Proof.
  induction n as [|n IH]; intros r rect p w q Hu;
    cbn [OnGridHover_rows OnGridClicked_rows].
  - discriminate.
  - destruct (OnGridHover_cols _ _ _ _ _ _) as [q1|[rect1 p1]] eqn:Ec.
    + intros _. unfold bind.
      by rewrite (OnGridClicked_cols_unknown g mouseCode _ _ _ _ _ _ Hu Ec).
    + intros H.
      rewrite (bind_Ok _ _ _ _ _
                 (OnGridClicked_cols_miss g mouseCode _ _ _ _ _ _ Ec)).
      by eapply IH.
Qed.

(** X10: [Stds_OnGridClicked] does not check its button code against the
    array of the buttons.  With a code that names no button, the call
    reads outside of the array as soon as the pointer is over a cell of
    the grid; with the pointer over no cell it does not read the buttons,
    answers the sentinel and changes nothing. *)
Theorem click_button_unchecked (g : grid_t) (mouseCode : Z) (p : grid_pair_t)
    (w : world) :
  unknown_button w mouseCode ->
  (over_some g (mouse w) ->
     Stds_OnGridClicked (Some g) mouseCode p w = Fault) /\
  (~ over_some g (mouse w) ->
     exists q, Stds_OnGridClicked (Some g) mouseCode p w
                 = Ok (q, Some (rewound g)) w /\
               sentinel q).
Proof.
  intros Hu. split.
  - intros Hover. destruct (over_some_scan g (mouse w) p Hover) as (q & E).
    rewrite OnGridClicked_run.
    by rewrite (OnGridClicked_rows_unknown g mouseCode _ _ _ _ _ _ Hu E).
  - intros Hnone.
    destruct (OnGridHover_rows (Z.to_nat (rows g)) 0 g (mouse w)
                (cell_rect g 0 0) p) as [q|s] eqn:E.
    + exfalso. apply Hnone.
      destruct (names_cell_scan g (mouse w) p q E)
        as (c & r & Hc & Hr & Hov & _).
      by exists c, r.
    + exists (answer (inr s)). split; [by apply click_miss|apply answer_miss].
Qed.

(** *** From a sheet to the screen *)

Lemma tile_inside W n c : 0 <= W -> 0 < n -> 0 <= c < n ->
  c * (W / n) + W / n <= W.
Proof.
  intros HW Hn Hc.
  assert (0 <= W / n) by (apply Z.div_pos; lia).
  assert (n * (W / n) <= W) by (apply Z.mul_div_le; lia).
  nia.
Qed.

Lemma SelectSpriteForGrid_tile g W H c r w :
  0 <= W <= INT_MAX -> 0 <= H <= INT_MAX ->
  0 < spriteSheetCols g <= UINT_MAX -> 0 < spriteSheetRows g <= UINT_MAX ->
  rect_w (clip g) = W / spriteSheetCols g ->
  rect_h (clip g) = H / spriteSheetRows g ->
  0 <= c < spriteSheetCols g -> 0 <= r < spriteSheetRows g ->
  Stds_SelectSpriteForGrid (Some g) c r w =
    Ok (Some (set_clip g (tile W H (spriteSheetCols g) (spriteSheetRows g) c r)))
       w.
Proof.
  intros HW HH HC HR Hw Hh Hc Hr.
  unfold Stds_SelectSpriteForGrid; simpl. unfold bind, deref, ret; simpl.
  destruct (Z.ltb_spec c (spriteSheetCols g)); [|lia].
  destruct (Z.ltb_spec r (spriteSheetRows g)); [|lia]. simpl.
  pose proof (tile_size_small W _ HW (proj1 HC)).
  pose proof (tile_size_small H _ HH (proj1 HR)).
  pose proof (tile_origin_small W _ c HW (proj1 HC) Hc).
  pose proof (tile_origin_small H _ r HH (proj1 HR) Hr).
  unfold tile. rewrite <- Hw in *. rewrite <- Hh in *.
  rewrite !u32_mul_small by (unfold UINT_MAX, INT_MAX in *; lia).
  rewrite !to_i32_small by (unfold INT_MIN, INT_MAX in *; lia).
  reflexivity.
Qed.

(** X11: a sheet of W by H pixels attached with C by R tiles, the tile
    (c, r) selected and then drawn on the cell (col, row), gives one call
    of [Stds_BlitTexture]: the texture of the sheet, clipped to the
    rectangle of W / C by H / R pixels at (c * (W / C), r * (H / R)), on
    the rectangle of the cell.  The clip lies within the sheet.  The three
    calls change nothing outside of the grid but by this draw. *)
Theorem sheet_tile_drawn (g : grid_t) (path : string) (W H C R c r : Z)
    (col row : Z) (flip0 : SDL_RendererFlip) (angle0 : Z) (w : world) :
  SDL_QueryTexture (Stds_LoadTexture path) = Some (W, H) ->
  0 <= W <= INT_MAX -> 0 <= H <= INT_MAX ->
  0 < C <= UINT_MAX -> 0 < R <= UINT_MAX ->
  0 <= c < C -> 0 <= r < R ->
  col < cols g -> row < rows g ->
  exists g1 g2,
    Stds_AddSpriteSheetToGrid (Some g) path C R w = Ok (Some g1) w /\
    Stds_SelectSpriteForGrid (Some g1) c r w = Ok (Some g2) w /\
    Stds_DrawSelectedSpriteOnGrid (Some g2) col row flip0 angle0 w =
      Ok (Some g2)
         (after_calls w
            [blit_on g (Some (Stds_LoadTexture path))
               (Some (tile W H C R c r)) (cursor_frect g col row)
               flip0 angle0]) /\
    rect_x (tile W H C R c r) + rect_w (tile W H C R c r) <= W /\
    rect_y (tile W H C R c r) + rect_h (tile W H C R c r) <= H.
Proof.
  intros HQ HW HH HC HR Hc Hr Hcol Hrow.
  eexists _, _. split.
  { by apply (AddSpriteSheetToGrid_assigns g path C R w W H). }
  split.
  { by apply (SelectSpriteForGrid_tile _ W H c r w). }
  split.
  - unfold Stds_DrawSelectedSpriteOnGrid; simpl. unfold bind at 1; simpl.
    destruct (Z.ltb_spec col (cols g)); [|lia].
    destruct (Z.ltb_spec row (rows g)); [|lia]. simpl.
    reflexivity.
  - simpl. split; apply tile_inside; lia.
Qed.

(** *** The textures on the screen *)

(** X12: after any calls of [Stds_AddGridTexture] on a grid with a
    capacity, [Stds_PutGridTexture] with the index 0 draws the texture
    loaded last, and with any other index below the capacity it draws
    what the slot held before the calls: nothing that was loaded.  The
    column and the row are not compared with the size of the grid: the
    texture is drawn on the rectangle computed from them, wherever it
    is. *)
Theorem PutGridTexture_after_adds (g : grid_t) (l : list (option SDL_Texture))
    (paths : list string) (path : string) (col row index : Z)
    (flip0 : SDL_RendererFlip) (angle0 : Z) (w : world) :
  textures_allocated g l -> 0 <= index < textureBuffer g ->
  exists g1 t,
    add_textures (paths ++ [path]) (Some g) w
      = Ok (map (fun _ => 0) (paths ++ [path]), Some g1) w /\
    Stds_PutGridTexture (Some g1) col row index flip0 angle0 w =
      Ok (Some g1)
         (after_calls w [blit_on g t None (cursor_frect g col row) flip0 angle0]) /\
    (index = 0 -> t = Some (Stds_LoadTexture path)) /\
    (index <> 0 -> l !! Z.to_nat index = Some t) /\
    (l = replicate (length l) None -> index <> 0 -> t = None).
Proof.
  intros Hal Hi.
  assert (Hpos : 0 < textureBuffer g) by lia.
  destruct Hal as (Ht & Hl & Hmax).
  destruct (lookup_lt_is_Some_2 (<[0%nat := Some (Stds_LoadTexture path)]> l)
              (Z.to_nat index)) as (t & Hget).
  { rewrite length_insert. lia. }
  eexists _, t. split.
  { apply add_textures_all_zero; [|exact Hpos]. by repeat split. }
  split.
  { unfold Stds_PutGridTexture; simpl. unfold bind at 1; simpl.
    destruct (Z.ltb_spec index (textureBuffer g)); [|lia].
    destruct (Z.ltb_spec (-1) index); [|lia]. simpl.
    unfold bind, array_get.
    destruct (Z.leb_spec 0 index); [|lia]. rewrite Hget. reflexivity. }
  assert (Hother : index <> 0 -> l !! Z.to_nat index = Some t).
  { intros Hne. rewrite list_lookup_insert_ne in Hget by lia. exact Hget. }
  split; [|split].
  - intros ->. simpl in Hget. destruct l; [simpl in Hl; lia|].
    simpl in Hget. by injection Hget as <-.
  - exact Hother.
  - intros Hrep Hne. specialize (Hother Hne). rewrite Hrep in Hother.
    apply lookup_replicate in Hother as (-> & _). reflexivity.
Qed.

(** X13: on a grid of pixels that [float] holds exactly, with its cursor
    on the start position, all the functions that draw on a cell of the
    grid draw on the same rectangle, the corner on
    (sx + col * sw, sy + row * sh) and the size of a cell: the fill pass of
    [Stds_FillWholeGrid] draws it as its call number row * cols + col,
    [Stds_PutGridTexture] draws the texture of a slot on it,
    [Stds_DrawSelectedSpriteOnGrid] draws the selected tile on it, and
    [Stds_RenderAnimationToGrid] draws the animation placed on its corner
    with its size. *)
Theorem draws_land_on_cell (g : grid_t) (X Y col row : Z)
    (flip0 : SDL_RendererFlip) (angle0 : Z) (w : world) :
  pixel_exact g X Y -> x g = sx g -> y g = sy g ->
  0 <= col < cols g -> 0 <= row < rows g ->
  (exists w1,
     Stds_FillWholeGrid (Some g) w = Ok (Some (rewound g)) w1 /\
     trace w1 !! (length (trace w) + Z.to_nat (row * cols g + col))%nat
       = Some (Stds_DrawRectF
                 {| frect_x := F32.of_int (X + col * sw g);
                    frect_y := F32.of_int (Y + row * sh g);
                    frect_w := F32.of_int (sw g);
                    frect_h := F32.of_int (sh g) |}
                 (fillColor g) true 0)) /\
  (forall (l : list (option SDL_Texture)) (index : Z) (t : option SDL_Texture),
     textures g = Some l -> 0 <= index < textureBuffer g ->
     l !! Z.to_nat index = Some t ->
     exists w1,
       Stds_PutGridTexture (Some g) col row index flip0 angle0 w
         = Ok (Some g) w1 /\
       trace w1 =
         trace w ++
         [Stds_BlitTexture t None
            (F32.of_int (X + col * sw g)) (F32.of_int (Y + row * sh g))
            (F32.of_int (sw g)) (F32.of_int (sh g))
            angle0 flip0 None (isCameraOn g)]) /\
  (exists w1,
     Stds_DrawSelectedSpriteOnGrid (Some g) col row flip0 angle0 w
       = Ok (Some g) w1 /\
     trace w1 =
       trace w ++
       [Stds_BlitTexture (Some (spriteSheet g)) (Some (clip g))
          (F32.of_int (X + col * sw g)) (F32.of_int (Y + row * sh g))
          (F32.of_int (sw g)) (F32.of_int (sh g))
          angle0 flip0 None (isCameraOn g)]) /\
  (forall (v : list Z) (index : Z) (a : animation_t),
     animation g = Some v -> anims w !! Stds_VectorGet v index = Some a ->
     exists a1 w1,
       Stds_RenderAnimationToGrid (Some g) col row index flip0 angle0 w
         = Ok (Some g) w1 /\
       trace w1 = trace w ++ [Stds_AnimationDraw a1] /\
       pos_x a1 = F32.of_int (X + col * sw g) /\
       pos_y a1 = F32.of_int (Y + row * sh g) /\
       dest_width a1 = sw g /\ dest_height a1 = sh g).
Proof.
  intros Hex Hx Hy Hcol Hrow.
  pose proof Hex
    as (Hsx & Hsy & Hw & Hh & Hc & Hr & HX & HY & Hcw & Hrh & Hxr & Hyb).
  assert (Hfx : F32.add (x g) (F32.of_int (u32_mul col (sw g)))
                = F32.of_int (X + col * sw g)).
  { rewrite u32_mul_small, Hx, Hsx by (unfold UINT_MAX; nia).
    apply of_int_add_exact; nia. }
  assert (Hfy : F32.add (y g) (F32.of_int (u32_mul row (sh g)))
                = F32.of_int (Y + row * sh g)).
  { rewrite u32_mul_small, Hy, Hsy by (unfold UINT_MAX; nia).
    apply of_int_add_exact; nia. }
  split; [|split; [|split]].
  - eexists. split; [apply FillWholeGrid_run|].
    rewrite (fill_calls_exact g X Y Hex). cbn [after_calls set_trace trace].
    rewrite lookup_app_r by lia.
    replace (length (trace w) + Z.to_nat (row * cols g + col) - length (trace w))%nat
      with (Z.to_nat (row * cols g + col)) by lia.
    by rewrite cell_fills_lookup.
  - intros l index t Ht Hi Hget. eexists. split.
    + unfold Stds_PutGridTexture; simpl. unfold bind at 1; simpl.
      destruct (Z.ltb_spec index (textureBuffer g)); [|lia].
      destruct (Z.ltb_spec (-1) index); [|lia]. simpl.
      unfold bind, array_get. rewrite Ht.
      destruct (Z.leb_spec 0 index); [|lia]. rewrite Hget. reflexivity.
    + simpl. by rewrite Hfx, Hfy.
  - eexists. split.
    + unfold Stds_DrawSelectedSpriteOnGrid; simpl. unfold bind at 1; simpl.
      destruct (Z.ltb_spec col (cols g)); [|lia].
      destruct (Z.ltb_spec row (rows g)); [|lia]. simpl.
      unfold bind, emit, ret. reflexivity.
    + simpl. by rewrite Hfx, Hfy.
  - intros v index a Hv Ha. eexists _, _. split.
    + unfold Stds_RenderAnimationToGrid; simpl. unfold bind at 1; simpl.
      rewrite Hv.
      destruct (Z.ltb_spec col (cols g)); [|lia].
      destruct (Z.ltb_spec row (rows g)); [|lia]. simpl.
      unfold bind at 1. unfold anim_load, bind, get_world.
      rewrite Ha. reflexivity.
    + simpl. split; [reflexivity|]. split; [exact Hfx|]. split; [exact Hfy|].
      split; reflexivity.
Qed.

(** *** Animations *)

Lemma AddAnimationToGrid_appends g v animate w :
  animate <> NULL -> animation g = Some v ->
  Stds_AddAnimationToGrid (Some g) animate w =
    Ok (i32_add (animationBuffer g) 1,
        Some (set_animation g (Some (v ++ [animate]))
                (i32_add (animationBuffer g) 1))) w.
Proof.
  intros Hnz Hv. unfold Stds_AddAnimationToGrid.
  destruct (Z.eqb_spec animate NULL); [contradiction|]. simpl.
  unfold bind at 1. simpl. rewrite Hv. reflexivity.
Qed.

Lemma add_animations_run animates : forall g v w,
  Forall (fun a => a <> NULL) animates ->
  animation g = Some v ->
  animationBuffer g = Z.of_nat (length v) - 1 ->
  Z.of_nat (length v) + Z.of_nat (length animates) <= INT_MAX + 1 ->
  add_animations animates (Some g) w =
    Ok (seqZ (Z.of_nat (length v)) (Z.of_nat (length animates)),
        Some (set_animation g (Some (v ++ animates))
                (Z.of_nat (length v) + Z.of_nat (length animates) - 1))) w.
Proof.
  induction animates as [|a rest IH]; intros g v w Hnz Hv Hb Hlen;
    cbn [add_animations].
  - unfold ret. rewrite app_nil_r. simpl. rewrite Z.add_0_r, <- Hb, <- Hv.
    by destruct g.
  - apply Forall_cons in Hnz as (Ha & Hnz). simpl in Hlen.
    rewrite (bind_Ok _ _ _ _ _ (AddAnimationToGrid_appends g v a w Ha Hv)).
    cbn [fst snd].
    assert (Hi : i32_add (animationBuffer g) 1 = Z.of_nat (length v)).
    { unfold i32_add. rewrite Hb.
      rewrite to_i32_small by (unfold INT_MIN, INT_MAX in *; lia). lia. }
    rewrite Hi.
    rewrite (bind_Ok _ _ _ _ _
               (IH (set_animation g (Some (v ++ [a])) (Z.of_nat (length v)))
                   (v ++ [a]) w Hnz eq_refl
                   ltac:(simpl; rewrite length_app; simpl; lia)
                   ltac:(rewrite length_app; simpl; lia))).
    unfold ret. cbn [fst snd length]. rewrite seqZ_S_cons.
    rewrite length_app, <- app_assoc. cbn [length app].
    replace (Z.of_nat (length v + 1)) with (Z.of_nat (length v) + 1) by lia.
    do 3 f_equal.
    unfold set_animation. simpl. f_equal. lia.
Qed.

(** X14: [Stds_AddAnimationToGrid] answers the index at which the vector
    holds the animation.  On a grid whose counter is the index of the last
    entry of its vector, as [Stds_CreateGrid] leaves it, the animations
    of a sequence of calls get the consecutive indices that follow, each
    one is appended to the vector in the order of the calls, and the
    counter follows; the [NULL] animation is refused with -1 and the grid
    is as it was. *)
Theorem add_animations_indices (g : grid_t) (v animates : list Z) (w : world) :
  Forall (fun a => a <> NULL) animates ->
  animation g = Some v ->
  animationBuffer g = Z.of_nat (length v) - 1 ->
  Z.of_nat (length v) + Z.of_nat (length animates) <= INT_MAX + 1 ->
  exists g1,
    add_animations animates (Some g) w
      = Ok (seqZ (Z.of_nat (length v)) (Z.of_nat (length animates)), Some g1) w /\
    animation g1 = Some (v ++ animates) /\
    animationBuffer g1 = Z.of_nat (length (v ++ animates)) - 1 /\
    (forall k a, animates !! k = Some a ->
       (v ++ animates) !! (length v + k)%nat = Some a) /\
    Stds_AddAnimationToGrid (Some g1) NULL w = Ok (-1, Some g1) w.
Proof.
  intros Hnz Hv Hb Hlen. eexists. split; [by apply add_animations_run|].
  simpl. split; [reflexivity|]. split; [rewrite length_app; lia|]. split.
  - intros k a Hk. rewrite lookup_app_r by lia.
    by replace (length v + k - length v)%nat with k by lia.
  - reflexivity.
Qed.

Lemma RenderAnimationToGrid_run g v col row index flip0 angle0 a w :
  animation g = Some v -> col < cols g -> row < rows g ->
  anims w !! Stds_VectorGet v index = Some a ->
  Stds_RenderAnimationToGrid (Some g) col row index flip0 angle0 w =
    Ok (Some g)
       (set_anims
          (after_calls
             (set_anims w (<[Stds_VectorGet v index :=
                              placed g col row flip0 angle0 a]> (anims w)))
             [Stds_AnimationDraw (placed g col row flip0 angle0 a)])
          (<[Stds_VectorGet v index :=
              Stds_AnimationUpdate (placed g col row flip0 angle0 a)]>
             (<[Stds_VectorGet v index :=
                 placed g col row flip0 angle0 a]> (anims w)))).
Proof.
  intros Hv Hc Hr Ha.
  unfold Stds_RenderAnimationToGrid; simpl. unfold bind at 1; simpl.
  rewrite Hv.
  destruct (Z.ltb_spec col (cols g)); [|lia].
  destruct (Z.ltb_spec row (rows g)); [|lia]. simpl.
  unfold bind at 1. unfold anim_load, bind, get_world.
  rewrite Ha. reflexivity.
Qed.

(** X15: with a vector that answers its entries, the index that
    [Stds_AddAnimationToGrid] answers is the one that
    [Stds_RenderAnimationToGrid] takes to draw the animation just added:
    the animation is placed on the cell, drawn once and advanced by one
    tick; the other animations are as they were. *)
Theorem added_animation_rendered (g : grid_t) (v : list Z) (animate : Z)
    (a : animation_t) (col row : Z) (flip0 : SDL_RendererFlip) (angle0 : Z)
    (w : world) :
  vector_get_sound ->
  animation g = Some v ->
  animationBuffer g = Z.of_nat (length v) - 1 ->
  Z.of_nat (length v) <= INT_MAX ->
  animate <> NULL -> anims w !! animate = Some a ->
  col < cols g -> row < rows g ->
  exists index g1 w1,
    Stds_AddAnimationToGrid (Some g) animate w = Ok (index, Some g1) w /\
    index = Z.of_nat (length v) /\
    Stds_RenderAnimationToGrid (Some g1) col row index flip0 angle0 w
      = Ok (Some g1) w1 /\
    trace w1 = trace w ++ [Stds_AnimationDraw (placed g col row flip0 angle0 a)] /\
    anims w1 !! animate
      = Some (Stds_AnimationUpdate (placed g col row flip0 angle0 a)) /\
    (forall other, other <> animate -> anims w1 !! other = anims w !! other).
Proof.
  intros Hget Hv Hb Hlen Hnz Ha Hc Hr.
  assert (Hi : i32_add (animationBuffer g) 1 = Z.of_nat (length v)).
  { unfold i32_add. rewrite Hb.
    rewrite to_i32_small by (unfold INT_MIN, INT_MAX in *; lia). lia. }
  assert (Hentry : Stds_VectorGet (v ++ [animate]) (Z.of_nat (length v)) = animate).
  { apply Hget. rewrite lookup_app_r by lia. by rewrite Nat.sub_diag. }
  eexists _, _, _. split.
  { rewrite (AddAnimationToGrid_appends g v animate w Hnz Hv), Hi. reflexivity. }
  split; [reflexivity|]. split.
  { apply (RenderAnimationToGrid_run _ (v ++ [animate])); try assumption.
    - reflexivity.
    - by rewrite Hentry. }
  rewrite Hentry. simpl. split; [reflexivity|]. split.
  - apply lookup_insert_eq.
  - intros other Hne. by rewrite !lookup_insert_ne.
Qed.

(** *** The poll of the events *)

Section Poll.

(** The constant and the collaborator of input.c. *)
Variable MAX_KEYBOARD_KEYS : Z.
Variable Stds_ReadTextField : text_field_t -> SDL_Event -> text_field_t.

Lemma ProcessInput_loop_app q1 : forall q2 s,
  ProcessInput_loop MAX_KEYBOARD_KEYS Stds_ReadTextField (q1 ++ q2) s =
    match ProcessInput_loop MAX_KEYBOARD_KEYS Stds_ReadTextField q1 s with
    | Resumes s1 => ProcessInput_loop MAX_KEYBOARD_KEYS Stds_ReadTextField q2 s1
    | Exits => Exits
    | Faults => Faults
    end.
Proof.
  induction q1 as [|[e ptr] q1 IH]; intros q2 s; [reflexivity|].
  cbn [app ProcessInput_loop].
  destruct (ProcessInput_event _ _ e _); [apply IH|reflexivity|reflexivity].
Qed.

(** X16: a quit event ends the poll and the program: the events before it
    are handled in their order, those behind it are never taken, and
    whatever they are makes no difference. *)
Theorem ProcessInput_ends_at_quit (q1 q2 : list (SDL_Event * (Z * Z)))
    (ptr : Z * Z) (s : app_t) :
  Stds_ProcessInput MAX_KEYBOARD_KEYS Stds_ReadTextField
    (q1 ++ (SDL_QUIT, ptr) :: q2) s =
    match Stds_ProcessInput MAX_KEYBOARD_KEYS Stds_ReadTextField q1 s with
    | Resumes _ => Exits
    | Exits => Exits
    | Faults => Faults
    end.
Proof.
  unfold Stds_ProcessInput. rewrite ProcessInput_loop_app.
  destruct (ProcessInput_loop _ _ q1 _); reflexivity.
Qed.

Lemma UpdateTextFields_from_run event tfs : forall text_input,
  UpdateTextFields_from Stds_ReadTextField event tfs text_input =
    (map (field_read Stds_ReadTextField event) tfs,
     match last tfs with
     | Some tf => toggle_text_input tf
     | None => text_input
     end).
Proof.
  induction tfs as [|tf next IH]; intros text_input; [reflexivity|].
  cbn [UpdateTextFields_from map]. unfold field_read at 1.
  destruct (toggle_text_input tf) eqn:Ht; rewrite IH;
    (destruct next as [|tf' next']; [simpl; by rewrite Ht|]);
    rewrite last_cons_cons;
    (destruct (last (tf' :: next')) eqn:E; [reflexivity|by apply last_None in E]).
Qed.

Lemma UpdateTextFields_run event s :
  Stds_UpdateTextFields Stds_ReadTextField event s =
    set_text_input_on
      (set_text_fields s (field_read Stds_ReadTextField event (text_field_head s))
         (map (field_read Stds_ReadTextField event) (text_field_next s)))
      (toggle_text_input (last_field s)).
Proof.
  unfold Stds_UpdateTextFields, last_field. rewrite UpdateTextFields_from_run.
  cbn [map]. rewrite last_cons.
  by destruct (last (text_field_next s)).
Qed.

(** X17: [Stds_UpdateTextFields] lets every field that is toggled read
    the event and leaves the other fields as they are; it turns the text
    input of SDL on and off field after field, so that what it leaves is
    decided by the last field of the list alone: on if this field is
    toggled, off if it is not, whatever the fields before it are. *)
Theorem UpdateTextFields_last_field (event : SDL_Event) (s : app_t) :
  let s' := Stds_UpdateTextFields Stds_ReadTextField event s in
  text_input_on s' = toggle_text_input (last_field s) /\
  text_field_head s' :: text_field_next s'
    = map (field_read Stds_ReadTextField event) (text_field_head s :: text_field_next s) /\
  app_world s' = app_world s /\ keyboard s' = keyboard s /\
  mouse_wheel s' = mouse_wheel s /\ mouse_is_moving s' = mouse_is_moving s.
Proof.
  cbv zeta. rewrite UpdateTextFields_run. by repeat split.
Qed.

(** What the handlers of the events change. *)

Lemma button_write_inv code v w u w1 :
  button_write code v w = Ok u w1 ->
  0 <= code < Z.of_nat (length (button (mouse w))) /\
  w1 = set_mouse w {| mouse_x := mouse_x (mouse w);
                      mouse_y := mouse_y (mouse w);
                      button := <[Z.to_nat code := v]> (button (mouse w)) |}.
Proof.
  unfold button_write, array_set.
  destruct (Z.leb_spec 0 code); simpl; [|discriminate].
  destruct (Z.ltb_spec code (Z.of_nat (length (button (mouse w)))));
    [|discriminate].
  intros [= _ <-]. split; [lia|reflexivity].
Qed.

Lemma keyboard_write_inv i v s s1 :
  keyboard_write i v s = Some s1 ->
  0 <= i < Z.of_nat (length (keyboard s)) /\
  s1 = set_keyboard s (<[Z.to_nat i := v]> (keyboard s)).
Proof.
  unfold keyboard_write.
  destruct (Z.leb_spec 0 i); simpl; [|discriminate].
  destruct (Z.ltb_spec i (Z.of_nat (length (keyboard s)))); [|discriminate].
  intros [= <-]. split; [lia|reflexivity].
Qed.

(** The flag of a slot after a write in an array. *)
Lemma lookup_written (l : list Z) (i j v : Z) :
  0 <= i < Z.of_nat (length l) -> 0 <= j ->
  <[Z.to_nat i := v]> l !! Z.to_nat j = if i =? j then Some v else l !! Z.to_nat j.
Proof.
  intros Hi Hj. destruct (Z.eqb_spec i j) as [->|Hne].
  - apply list_lookup_insert_eq. lia.
  - apply list_lookup_insert_ne. lia.
Qed.

Lemma KeyReleased_inv key_repeat scancode s s1 :
  Stds_KeyReleased MAX_KEYBOARD_KEYS key_repeat scancode s = Some s1 ->
  app_world s1 = app_world s /\ mouse_is_moving s1 = mouse_is_moving s /\
  forall k, 0 <= k ->
    keyboard s1 !! Z.to_nat k
    = key_flag MAX_KEYBOARD_KEYS k (keyboard s !! Z.to_nat k)
        (SDL_KEYUP key_repeat scancode, (0, 0)).
Proof.
  unfold Stds_KeyReleased, key_flag. cbn [fst].
  destruct ((key_repeat =? 0) && (scancode <? MAX_KEYBOARD_KEYS)).
  - intros H. apply keyboard_write_inv in H as (Hi & ->).
    repeat split. intros k Hk. cbn [keyboard set_keyboard andb].
    by apply lookup_written.
  - intros [= <-]. by repeat split.
Qed.

Lemma KeyPressed_inv key_repeat scancode s s1 :
  Stds_KeyPressed MAX_KEYBOARD_KEYS Stds_ReadTextField key_repeat scancode s
    = Some s1 ->
  app_world s1 = app_world s /\ mouse_is_moving s1 = mouse_is_moving s /\
  forall k, 0 <= k ->
    keyboard s1 !! Z.to_nat k
    = key_flag MAX_KEYBOARD_KEYS k (keyboard s !! Z.to_nat k)
        (SDL_KEYDOWN key_repeat scancode, (0, 0)).
Proof.
  unfold Stds_KeyPressed, key_flag. cbn [fst].
  destruct ((key_repeat =? 0) && (scancode <? MAX_KEYBOARD_KEYS)); simpl.
  - destruct (keyboard_write scancode 1 s) as [s0|] eqn:E; [|discriminate].
    apply keyboard_write_inv in E as (Hi & ->). simpl.
    destruct (keyboard_read _ _) as [backspace|]; [|discriminate]. simpl.
    destruct (negb (backspace =? 0)); intros [= <-];
      rewrite ?UpdateTextFields_run; (repeat split; intros k Hk; simpl;
        by apply lookup_written).
  - destruct (keyboard_read _ _) as [backspace|]; [|discriminate]. simpl.
    destruct (negb (backspace =? 0)); intros [= <-];
      rewrite ?UpdateTextFields_run; by repeat split.
Qed.

(** X18: [Stds_KeyPressed] hands the key event to the text fields when,
    after its own write, the flag of the backspace key is set, and only
    then: while backspace is held, every key that goes down reaches the
    toggled text fields, a repeated key and a key beyond the array as well;
    while it is not held, no key does. *)
Theorem KeyPressed_forwards_on_backspace (key_repeat scancode : Z)
    (s s1 : app_t) :
  Stds_KeyPressed MAX_KEYBOARD_KEYS Stds_ReadTextField key_repeat scancode s
    = Some s1 ->
  exists flag,
    keyboard s1 !! Z.to_nat SDL_SCANCODE_BACKSPACE = Some flag /\
    (flag <> 0 ->
     text_field_head s1 :: text_field_next s1
       = map (field_read Stds_ReadTextField (SDL_KEYDOWN key_repeat scancode))
           (text_field_head s :: text_field_next s) /\
     text_input_on s1 = toggle_text_input (last_field s)) /\
    (flag = 0 ->
     text_field_head s1 = text_field_head s /\
     text_field_next s1 = text_field_next s /\
     text_input_on s1 = text_input_on s).
Proof.
  unfold Stds_KeyPressed.
  destruct (if (key_repeat =? 0) && (scancode <? MAX_KEYBOARD_KEYS)
            then keyboard_write scancode 1 s else Some s) as [s0|] eqn:E;
    [|discriminate].
  assert (Hs0 : text_field_head s0 = text_field_head s /\
                text_field_next s0 = text_field_next s /\
                text_input_on s0 = text_input_on s).
  { destruct ((key_repeat =? 0) && (scancode <? MAX_KEYBOARD_KEYS)).
    - apply keyboard_write_inv in E as (_ & ->). by repeat split.
    - injection E as <-. by repeat split. }
  destruct Hs0 as (Hh & Hn & Hi). simpl.
  unfold keyboard_read. cbn [Z.leb SDL_SCANCODE_BACKSPACE Z.compare].
  destruct (keyboard s0 !! Z.to_nat SDL_SCANCODE_BACKSPACE) as [flag|]
    eqn:Hflag; [|discriminate].
  simpl. destruct (Z.eqb_spec flag 0) as [->|Hnz]; simpl; intros [= <-].
  - exists 0. split; [exact Hflag|]. split; [done|]. by intros _.
  - exists flag. rewrite UpdateTextFields_run. split; [exact Hflag|].
    split; [|done]. intros _. simpl. unfold last_field.
    by rewrite Hh, Hn.
Qed.

(** One event of the loop: the pointer is where [SDL_GetMouseState] says,
    the motion flag says whether the event is a motion, the flags of the
    buttons and of the keys follow the event, and nothing else of the world
    of the grid changes. *)
Lemma ProcessInput_event_inv e ptr s s1 :
  ProcessInput_event MAX_KEYBOARD_KEYS Stds_ReadTextField e
    (Stds_UpdateMouseState ptr s) = Resumes s1 ->
  mouse_x (mouse (app_world s1)) = fst ptr /\
  mouse_y (mouse (app_world s1)) = snd ptr /\
  mouse_is_moving s1 = is_motion e /\
  onceCall (app_world s1) = onceCall (app_world s) /\
  trace (app_world s1) = trace (app_world s) /\
  anims (app_world s1) = anims (app_world s) /\
  (forall b, 0 <= b ->
     button (mouse (app_world s1)) !! Z.to_nat b
     = button_flag b (button (mouse (app_world s)) !! Z.to_nat b) (e, ptr)) /\
  (forall k, 0 <= k ->
     keyboard s1 !! Z.to_nat k
     = key_flag MAX_KEYBOARD_KEYS k (keyboard s !! Z.to_nat k) (e, ptr)).
Proof.
  destruct e; cbn [ProcessInput_event resumes is_motion]; try discriminate.
  - destruct (Stds_KeyPressed _ _ _ _ _) as [s0|] eqn:E; [|discriminate].
    intros [= <-]. apply KeyPressed_inv in E as (-> & -> & Hk).
    by repeat split.
  - destruct (Stds_KeyReleased _ _ _ _) as [s0|] eqn:E; [|discriminate].
    intros [= <-]. apply KeyReleased_inv in E as (-> & -> & Hk).
    by repeat split.
  - unfold in_world, Stds_MousePressed.
    destruct (button_write _ _ _) as [u w1|] eqn:E; [|discriminate].
    intros [= <-]. apply button_write_inv in E as (Hi & ->).
    repeat split. intros b Hb. unfold button_flag. simpl.
    by apply lookup_written.
  - unfold in_world, Stds_MouseReleased.
    destruct (button_write _ _ _) as [u w1|] eqn:E; [|discriminate].
    intros [= <-]. apply button_write_inv in E as (Hi & ->).
    repeat split. intros b Hb. unfold button_flag. simpl.
    by apply lookup_written.
  - intros [= <-]. by repeat split.
  - intros [= <-]. by repeat split.
  - intros [= <-]. rewrite UpdateTextFields_run. by repeat split.
  - intros [= <-]. by repeat split.
Qed.

Lemma ProcessInput_loop_flags queue : forall s s1,
  ProcessInput_loop MAX_KEYBOARD_KEYS Stds_ReadTextField queue s = Resumes s1 ->
  onceCall (app_world s1) = onceCall (app_world s) /\
  trace (app_world s1) = trace (app_world s) /\
  anims (app_world s1) = anims (app_world s) /\
  (forall b, 0 <= b ->
     button (mouse (app_world s1)) !! Z.to_nat b
     = fold_left (button_flag b) queue
         (button (mouse (app_world s)) !! Z.to_nat b)) /\
  (forall k, 0 <= k ->
     keyboard s1 !! Z.to_nat k
     = fold_left (key_flag MAX_KEYBOARD_KEYS k) queue (keyboard s !! Z.to_nat k)).
Proof.
  induction queue as [|[e ptr] rest IH]; intros s s1; cbn [ProcessInput_loop].
  - intros [= <-]. by repeat split.
  - destruct (ProcessInput_event _ _ e _) as [s0| |] eqn:E; try discriminate.
    intros H. apply IH in H as (Ho & Ht & Ha & Hb & Hk).
    apply ProcessInput_event_inv in E
      as (_ & _ & _ & Ho0 & Ht0 & Ha0 & Hb0 & Hk0).
    split; [congruence|]. split; [congruence|]. split; [congruence|].
    split.
    + intros b Hb'. cbn [fold_left]. rewrite Hb, Hb0 by assumption. reflexivity.
    + intros k Hk'. cbn [fold_left]. rewrite Hk, Hk0 by assumption. reflexivity.
Qed.

(** X19: when a poll of the events is over, the flag of every button is
    the one that the last event of this button in the queue gave it: 1 for
    a press, 0 for a release, and the flag from before the poll if the
    queue has no event of the button.  The events of the other buttons, of
    the keys and of the wheel do not touch it, and the poll changes
    nothing else of what the grid reads but the position of the
    pointer. *)
Theorem buttons_follow_last_event (queue : list (SDL_Event * (Z * Z)))
    (s s1 : app_t) (b : Z) :
  Stds_ProcessInput MAX_KEYBOARD_KEYS Stds_ReadTextField queue s = Resumes s1 ->
  0 <= b ->
  button (mouse (app_world s1)) !! Z.to_nat b
    = fold_left (button_flag b) queue
        (button (mouse (app_world s)) !! Z.to_nat b) /\
  onceCall (app_world s1) = onceCall (app_world s) /\
  trace (app_world s1) = trace (app_world s) /\
  anims (app_world s1) = anims (app_world s).
Proof.
  unfold Stds_ProcessInput. intros H Hb.
  apply ProcessInput_loop_flags in H as (Ho & Ht & Ha & Hbs & _).
  split; [by apply Hbs|]. by repeat split.
Qed.

(** X20: when a poll of the events is over, the flag of every key is the
    one that the last key event that counts gave it: 1 for a key down, 0
    for a key up.  A repeated key event and an event with a scancode from
    [MAX_KEYBOARD_KEYS] on do not count: they write no flag. *)
Theorem keys_follow_last_event (queue : list (SDL_Event * (Z * Z)))
    (s s1 : app_t) (k : Z) :
  Stds_ProcessInput MAX_KEYBOARD_KEYS Stds_ReadTextField queue s = Resumes s1 ->
  0 <= k ->
  keyboard s1 !! Z.to_nat k
    = fold_left (key_flag MAX_KEYBOARD_KEYS k) queue (keyboard s !! Z.to_nat k) /\
  (MAX_KEYBOARD_KEYS <= k -> keyboard s1 !! Z.to_nat k = keyboard s !! Z.to_nat k).
Proof.
  unfold Stds_ProcessInput. intros H Hk.
  apply ProcessInput_loop_flags in H as (_ & _ & _ & _ & Hks).
  specialize (Hks k Hk). simpl in Hks. split; [exact Hks|].
  intros Hmax. rewrite Hks. clear Hks.
  generalize (keyboard s !! Z.to_nat k).
  induction queue as [|[e ptr] rest IH]; intros flag; [reflexivity|].
  cbn [fold_left]. rewrite IH. unfold key_flag. cbn [fst].
  destruct e; try reflexivity;
    (destruct (key_repeat =? 0); [|reflexivity];
     destruct (Z.ltb_spec scancode MAX_KEYBOARD_KEYS); [|reflexivity];
     destruct (Z.eqb_spec scancode k); [lia|reflexivity]).
Qed.

(** X21: after a poll that took events, the pointer is where
    [SDL_GetMouseState] reported it when the last event was taken, and the
    motion flag of the mouse says whether this last event was a motion: a
    motion followed by any other event in the same poll leaves the flag
    down.  A poll that takes no event turns the text input on and leaves
    the rest, the pointer and the flag included, as it was. *)
Theorem pointer_follows_last_event (queue : list (SDL_Event * (Z * Z)))
    (e : SDL_Event) (ptr : Z * Z) (s s1 : app_t) :
  Stds_ProcessInput MAX_KEYBOARD_KEYS Stds_ReadTextField
    (queue ++ [(e, ptr)]) s = Resumes s1 ->
  mouse_x (mouse (app_world s1)) = fst ptr /\
  mouse_y (mouse (app_world s1)) = snd ptr /\
  mouse_is_moving s1 = is_motion e /\
  Stds_ProcessInput MAX_KEYBOARD_KEYS Stds_ReadTextField [] s
    = Resumes (SDL_StartTextInput s).
Proof.
  unfold Stds_ProcessInput. rewrite ProcessInput_loop_app.
  destruct (ProcessInput_loop _ _ queue _) as [s0| |]; try discriminate.
  cbn [ProcessInput_loop].
  destruct (ProcessInput_event _ _ e _) as [s2| |] eqn:E; try discriminate.
  intros [= <-].
  apply ProcessInput_event_inv in E as (Hx & Hy & Hm & _).
  by repeat split.
Qed.

Lemma fold_button_flag_app b queue e flag :
  fold_left (button_flag b) (queue ++ [e]) flag
  = button_flag b (fold_left (button_flag b) queue flag) e.
Proof. by rewrite fold_left_app. Qed.

Lemma fold_button_flag_released b queue :
  Forall (fun e => ~ presses b e) queue ->
  fold_left (button_flag b) queue (Some 0) = Some 0.
Proof.
  induction queue as [|[e ptr] rest IH]; intros Hq; [reflexivity|].
  apply Forall_cons in Hq as (He & Hq). cbn [fold_left].
  replace (button_flag b (Some 0) (e, ptr)) with (Some 0); [by apply IH|].
  unfold button_flag, presses in *. cbn [fst] in *.
  destruct e; try reflexivity.
  - destruct (Z.eqb_spec event_button b) as [->|]; [contradiction|reflexivity].
  - by destruct (event_button =? b).
Qed.

(** X22: a press of a button taken last in a poll, with the pointer over
    the grid, gives one click.  [Stds_OnGridClicked] for this button
    answers the cell that [Stds_OnGridHover] answers, a cell under the
    pointer; and as long as the polls that follow take no new press of
    the button, whether they take its release or not, the next call
    answers the sentinel and changes nothing. *)
Theorem press_gives_one_click (g : grid_t)
    (queue queue2 : list (SDL_Event * (Z * Z))) (b : Z) (ptr : Z * Z)
    (s s1 : app_t) (p p2 : grid_pair_t) :
  0 <= b ->
  Stds_ProcessInput MAX_KEYBOARD_KEYS Stds_ReadTextField
    (queue ++ [(SDL_MOUSEBUTTONDOWN b, ptr)]) s = Resumes s1 ->
  over_some g (mouse (app_world s1)) ->
  Forall (fun e => ~ presses b e) queue2 ->
  exists q w2,
    mouse_x (mouse (app_world s1)) = fst ptr /\
    mouse_y (mouse (app_world s1)) = snd ptr /\
    Stds_OnGridHover (Some g) p (app_world s1)
      = Ok (q, Some (rewound g)) (app_world s1) /\
    Stds_OnGridClicked (Some g) b p (app_world s1)
      = Ok (q, Some (rewound g)) w2 /\
    names_cell g (mouse (app_world s1)) q /\
    forall s3,
      Stds_ProcessInput MAX_KEYBOARD_KEYS Stds_ReadTextField queue2
        (set_app_world s1 w2) = Resumes s3 ->
      exists q2,
        Stds_OnGridClicked (Some (rewound g)) b p2 (app_world s3)
          = Ok (q2, Some (rewound g)) (app_world s3) /\
        sentinel q2.
Proof.
  intros Hb Hpoll Hover Hq2.
  assert (Hptr : mouse_x (mouse (app_world s1)) = fst ptr /\
                 mouse_y (mouse (app_world s1)) = snd ptr).
  { unfold Stds_ProcessInput in Hpoll. rewrite ProcessInput_loop_app in Hpoll.
    destruct (ProcessInput_loop _ _ queue _) as [s0| |]; try discriminate.
    cbn [ProcessInput_loop] in Hpoll.
    destruct (ProcessInput_event _ _ _ _) as [s2| |] eqn:E; try discriminate.
    injection Hpoll as <-.
    apply ProcessInput_event_inv in E as (Hx & Hy & _). by split. }
  unfold Stds_ProcessInput in Hpoll.
  apply ProcessInput_loop_flags in Hpoll as (_ & _ & _ & Hflag & _).
  specialize (Hflag b Hb). rewrite fold_button_flag_app in Hflag.
  unfold button_flag at 1 in Hflag. cbn [fst] in Hflag.
  rewrite Z.eqb_refl in Hflag.
  assert (Hp : pressed (app_world s1) b).
  { split; [exact Hb|]. exists 1. split; [exact Hflag|lia]. }
  destruct (over_some_scan g (mouse (app_world s1)) p Hover) as (q & E).
  exists q, (cleared b (app_world s1)).
  split; [apply Hptr|]. split; [apply Hptr|].
  split; [by apply hover_hit|]. split; [by apply click_hit|].
  split; [by eapply names_cell_scan|].
  intros s3 Hpoll2. unfold Stds_ProcessInput in Hpoll2.
  apply ProcessInput_loop_flags in Hpoll2 as (_ & _ & _ & Hflag2 & _).
  specialize (Hflag2 b Hb). simpl in Hflag2.
  rewrite list_lookup_insert_eq in Hflag2
    by (by apply lookup_lt_Some in Hflag).
  rewrite fold_button_flag_released in Hflag2 by exact Hq2.
  rewrite OnGridClicked_run.
  destruct (OnGridClicked_rows_released (rewound g) b
              (Z.to_nat (rows (rewound g))) 0 (cell_rect (rewound g) 0 0) p2
              (app_world s3) Hb Hflag2) as (s' & Hs').
  rewrite Hs'. eexists. split; [reflexivity|apply answer_miss].
Qed.

End Poll.

(** *** The latch, the capacity and the sheet *)

Lemma keeps_call_grid c : keeps_latch (call_grid c).
Proof.
  destruct c; cbn [call_grid];
    unfold Stds_DrawLineGrid, Stds_FillWholeGrid, Stds_FreeGrid,
      Stds_OnGridHover, Stds_OnGridClicked, Stds_AddGridTexture,
      Stds_PutGridTexture, Stds_AddSpriteSheetToGrid, Stds_SelectSpriteForGrid,
      Stds_DrawSelectedSpriteOnGrid, Stds_AddAnimationToGrid, Stds_VectorAppend,
      Stds_RenderAnimationToGrid, Stds_AddCollisionToGrid;
    repeat keeps_step.
Qed.

(** With the latch closed, a call on a grid without capacity leaves it
    without capacity. *)
Lemma call_grid_untextured c g w grid' w' :
  onceCall w = true -> textures g = None -> textureBuffer g = 0 ->
  call_grid (retarget c (Some g)) w = Ok grid' w' ->
  forall g', grid' = Some g' -> textures g' = None /\ textureBuffer g' = 0.
Proof.
  intros Hlatch Ht Hb H.
  destruct c; cbn [retarget call_grid] in *.
  - rewrite DrawLineGrid_run in H. injection H as <- <-.
    intros g' [= <-]. by split.
  - rewrite FillWholeGrid_run in H. injection H as <- <-.
    intros g' [= <-]. by split.
  - apply bind_inv in H as (u & w1 & _ & H). returned H. discriminate.
  - rewrite (bind_Ok _ _ _ _ _ (OnGridHover_run g p w)) in H. returned H.
    intros g' [= <-]. by split.
  - apply bind_inv in H as (r & w1 & Hr & H). returned H.
    rewrite OnGridClicked_run in Hr.
    destruct (OnGridClicked_rows _ _ _ _ _ _ _); [|discriminate].
    injection Hr as <- <-. intros g' [= <-]. by split.
  - rewrite InitializeGridTextures_latched in H by exact Hlatch.
    injection H as <- <-. intros g' [= <-]. by split.
  - apply bind_inv in H as (r & w1 & Hr & H). returned H.
    unfold Stds_AddGridTexture in Hr. simpl in Hr.
    unfold bind at 1 in Hr. simpl in Hr. rewrite Hb in Hr. simpl in Hr.
    injection Hr as <- <-. intros g' [= <-]. by split.
  - unfold Stds_PutGridTexture in H. simpl in H. unfold bind at 1 in H.
    simpl in H. rewrite Hb in H.
    destruct (Z.ltb_spec index 0); destruct (Z.ltb_spec (-1) index);
      try lia; simpl in H; returned H; intros g' [= <-]; by split.
  - unfold Stds_AddSpriteSheetToGrid in H. simpl in H.
    unfold bind at 1 in H. simpl in H.
    destruct (to_u32 cols0 =? 0); [discriminate|].
    destruct (to_u32 rows0 =? 0); [discriminate|].
    destruct (SDL_QueryTexture (Stds_LoadTexture filePath)) as [[W0 H0]|];
      returned H; intros g' [= <-]; by split.
  - unfold Stds_SelectSpriteForGrid in H. simpl in H.
    unfold bind at 1 in H. simpl in H.
    destruct (_ && _); returned H; intros g' [= <-]; by split.
  - unfold Stds_DrawSelectedSpriteOnGrid in H. simpl in H.
    unfold bind at 1 in H. simpl in H.
    destruct (_ && _); [unfold bind in H; simpl in H|];
      returned H; intros g' [= <-]; by split.
  - apply bind_inv in H as (r & w1 & Hr & H). returned H.
    unfold Stds_AddAnimationToGrid in Hr.
    destruct (animate =? NULL).
    + injection Hr as <- <-. intros g' [= <-]. by split.
    + simpl in Hr. unfold bind at 1 in Hr. simpl in Hr.
      unfold bind, Stds_VectorAppend in Hr.
      destruct (animation g) as [v|]; [|discriminate].
      injection Hr as <- <-. intros g' [= <-]. by split.
  - unfold Stds_RenderAnimationToGrid in H. simpl in H.
    unfold bind at 1 in H. simpl in H.
    destruct (animation g); [|returned H; intros g' [= <-]; by split].
    destruct (_ && _); [|returned H; intros g' [= <-]; by split].
    unfold bind at 1 in H.
    destruct (anim_load _ _); [|discriminate].
    unfold bind, anim_store, emit, get_world, put_world in H.
    returned H. intros g' [= <-]. by split.
  - unfold Stds_AddCollisionToGrid in H. simpl in H.
    unfold bind in H. simpl in H.
    destruct (_ && _); returned H; intros g' [= <-]; by split.
Qed.

Lemma run_on_untextured cs : forall g w g' w',
  onceCall w = true -> textures g = None -> textureBuffer g = 0 ->
  run_on cs (Some g) w = Ok (Some g') w' ->
  textures g' = None /\ textureBuffer g' = 0 /\ onceCall w' = true.
Proof.
  induction cs as [|c rest IH]; intros g w g' w' Hlatch Ht Hb H;
    cbn [run_on] in H.
  - injection H as <- <-. by repeat split.
  - apply bind_inv in H as (grid1 & w1 & Hc & H).
    pose proof (keeps_call_grid _ _ _ _ Hc Hlatch) as Hlatch1.
    destruct grid1 as [g1|].
    + destruct (call_grid_untextured _ _ _ _ _ Hlatch Ht Hb Hc g1 eq_refl)
        as (Ht1 & Hb1).
      by eapply IH.
    + apply run_on_None in H. discriminate.
Qed.

(** X23: once the latch of [Stds_InitializeGridTextures] is closed, by a
    call for whatever grid, a grid that [Stds_CreateGrid] returns
    afterwards never has textures: after any program on it the array is
    [NULL] and the capacity is 0, every [Stds_AddGridTexture] answers -1
    and loads nothing, and every [Stds_PutGridTexture] draws nothing. *)
Theorem late_grid_never_textured (x0 y0 : float) (squareWidth squareHeight : Z)
    (cols0 rows0 : Z) (lc fc : SDL_Color) (cs : list grid_call)
    (w w' : world) (g' : grid_t) :
  onceCall w = true ->
  run_on cs
    (Some (Stds_CreateGrid x0 y0 squareWidth squareHeight cols0 rows0 lc fc)) w
    = Ok (Some g') w' ->
  textures g' = None /\ textureBuffer g' = 0 /\ onceCall w' = true /\
  (forall n, Stds_InitializeGridTextures (Some g') n w' = Ok (Some g') w') /\
  (forall path, Stds_AddGridTexture (Some g') path w' = Ok (-1, Some g') w') /\
  (forall col row index flip0 angle0,
     Stds_PutGridTexture (Some g') col row index flip0 angle0 w'
       = Ok (Some g') w').
Proof.
  intros Hlatch H.
  apply run_on_untextured in H as (Ht & Hb & Hlatch'); try done.
  split; [exact Ht|]. split; [exact Hb|]. split; [exact Hlatch'|].
  split; [|split].
  - intros n. by apply InitializeGridTextures_latched.
  - intros path. unfold Stds_AddGridTexture; simpl.
    unfold bind at 1; simpl. by rewrite Hb.
  - intros col row index flip0 angle0.
    unfold Stds_PutGridTexture; simpl. unfold bind at 1; simpl. rewrite Hb.
    destruct (Z.ltb_spec index 0); destruct (Z.ltb_spec (-1) index);
      try lia; reflexivity.
Qed.

(** X24: of two sheets attached to a grid one after the other, the second
    one wins: the grid is the one that the second call alone would have
    left, and the texture of the first sheet is lost; the teardown
    releases the texture of the second sheet and not that of the first. *)
Theorem AddSpriteSheetToGrid_last_wins (g : grid_t) (path1 path2 : string)
    (W1 H1 W2 H2 C1 R1 C2 R2 : Z) (w : world) :
  SDL_QueryTexture (Stds_LoadTexture path1) = Some (W1, H1) ->
  SDL_QueryTexture (Stds_LoadTexture path2) = Some (W2, H2) ->
  0 <= W1 <= INT_MAX -> 0 <= H1 <= INT_MAX ->
  0 <= W2 <= INT_MAX -> 0 <= H2 <= INT_MAX ->
  0 < C1 <= UINT_MAX -> 0 < R1 <= UINT_MAX ->
  0 < C2 <= UINT_MAX -> 0 < R2 <= UINT_MAX ->
  exists g1 g2,
    Stds_AddSpriteSheetToGrid (Some g) path1 C1 R1 w = Ok (Some g1) w /\
    Stds_AddSpriteSheetToGrid (Some g1) path2 C2 R2 w = Ok (Some g2) w /\
    Stds_AddSpriteSheetToGrid (Some g) path2 C2 R2 w = Ok (Some g2) w /\
    spriteSheet g2 = Stds_LoadTexture path2 /\
    (textures_consistent g ->
     Stds_LoadTexture path1 <> Stds_LoadTexture path2 ->
     Some (Stds_LoadTexture path1) ∉ default [] (textures g) ->
     Stds_FreeGrid (Some g2) w = Ok tt (after_calls w (free_calls g2)) /\
     SDL_DestroyTexture (Some (Stds_LoadTexture path1)) ∉ free_calls g2).
Proof.
  intros HQ1 HQ2 HW1 HH1 HW2 HH2 HC1 HR1 HC2 HR2.
  eexists _, _. split.
  { by apply (AddSpriteSheetToGrid_assigns g path1 C1 R1 w W1 H1). }
  split.
  { by apply (AddSpriteSheetToGrid_assigns _ path2 C2 R2 w W2 H2). }
  split.
  { by rewrite (AddSpriteSheetToGrid_assigns g path2 C2 R2 w W2 H2). }
  split; [reflexivity|].
  intros Hcons Hne Hnl. split.
  { by apply FreeGrid_run. }
  unfold free_calls. simpl. rewrite !not_elem_of_app. repeat split.
  - intros Hin. apply list_elem_of_In, in_map_iff in Hin as (t & Heq & Hin).
    injection Heq as ->. apply Hnl. by apply list_elem_of_In.
  - destruct (Stds_LoadTexture path2 =? NULL); [apply not_elem_of_nil|].
    rewrite list_elem_of_singleton. congruence.
  - rewrite list_elem_of_singleton. discriminate.
Qed.

(** X25: [Stds_AddSpriteSheetToGrid] checks neither its tile counts nor
    the texture it loads.  With a count of zero columns or rows it divides
    by zero.  When the size of the texture cannot be queried, it stores
    the handle and the counts all the same and divides the size that the
    clip had before: every such call makes the tiles smaller. *)
Theorem AddSpriteSheetToGrid_unchecked (g : grid_t) (path : string)
    (C R : Z) (w : world) :
  (to_u32 C = 0 \/ to_u32 R = 0 ->
   Stds_AddSpriteSheetToGrid (Some g) path C R w = Fault) /\
  (SDL_QueryTexture (Stds_LoadTexture path) = None ->
   0 <= rect_w (clip g) <= INT_MAX -> 0 <= rect_h (clip g) <= INT_MAX ->
   0 < C <= UINT_MAX -> 0 < R <= UINT_MAX ->
   Stds_AddSpriteSheetToGrid (Some g) path C R w =
     Ok (Some (set_sheet g (Stds_LoadTexture path)
                 {| rect_x := rect_x (clip g); rect_y := rect_y (clip g);
                    rect_w := rect_w (clip g) / C;
                    rect_h := rect_h (clip g) / R |} C R)) w).
Proof.
  split.
  - intros Hz. unfold Stds_AddSpriteSheetToGrid; simpl.
    unfold bind at 1; simpl.
    destruct (Z.eqb_spec (to_u32 C) 0); [reflexivity|].
    destruct (Z.eqb_spec (to_u32 R) 0); [reflexivity|]. tauto.
  - intros HQ Hw Hh HC HR.
    unfold Stds_AddSpriteSheetToGrid; simpl. unfold bind at 1; simpl.
    rewrite HQ; simpl.
    rewrite (to_u32_small C), (to_u32_small R) by lia.
    destruct (Z.eqb_spec C 0); [lia|]. destruct (Z.eqb_spec R 0); [lia|].
    rewrite !u32_div_small by lia. reflexivity.
Qed.

End Grid.

(** ** The scene, run *)

Lemma screen_range_fits g m : screen_range g m -> fits_int g.
Proof.
  unfold screen_range, fits_int, INT_MAX. intros H.
  repeat split; try apply H; lia.
Qed.

(** The strict test of the scene is sound on every grid and pointer of the
    screen range. *)
Lemma strict_test_sound (g : grid_t) (m : mouse_t) :
  screen_range g m -> pointer_test_sound Scene.Stds_IsMouseOverRect g m.
Proof.
  intros Hs c r Hc Hr.
  pose proof (screen_range_fits g m Hs) as Hfit.
  destruct Hs as (Hw & Hh & Hx0 & Hx1 & Hy0 & Hy1 & Hmx & Hmy).
  unfold over, inside, outside. rewrite (cell_rect_exact g c r Hfit) by lia.
  unfold Scene.Stds_IsMouseOverRect. cbn [rect_x rect_y rect_w rect_h].
  unfold i32_add. rewrite !to_i32_small by (unfold INT_MIN, INT_MAX; nia).
  rewrite !of_int_ltb by nia.
  split.
  - intros [[? ?] [? ?]].
    repeat (apply andb_true_intro; split); apply Z.ltb_lt; lia.
  - intros Hout.
    destruct (_ && _) eqn:E; [exfalso|reflexivity].
    apply andb_true_iff in E as [E1 E2].
    apply andb_true_iff in E1 as [E11 E12].
    apply andb_true_iff in E2 as [E21 E22].
    apply Z.ltb_lt in E11, E12, E21, E22. apply Hout. lia.
Qed.

Lemma scene_pointer_test_sound :
  pointer_test_sound Scene.Stds_IsMouseOverRect Scene.grid
    (mouse Scene.world_pressed).
Proof. apply strict_test_sound. vm_compute. intuition congruence. Qed.

Lemma scene_fits_int : fits_int Scene.grid.
Proof. vm_compute. intuition congruence. Qed.

Lemma scene_pressed : pressed Scene.world_pressed 1.
Proof. split; [lia|]. exists 1. split; [reflexivity|lia]. Qed.

(** The cell of column 2 and row 1 is the square of 32 pixels at (64, 32). *)
Example scene_cell_rect :
  cell_rect Scene.grid 2 1
  = {| rect_x := 64; rect_y := 32; rect_w := 32; rect_h := 32 |}.
Proof. reflexivity. Qed.

(** The pointer (70, 40) is strictly inside the cell of column 2 and row 1:
    the hover answers (2, 1), and so does the click on the pressed button,
    which it consumes. *)
Lemma resolvers_first_match_witness :
  inside (mouse Scene.world_pressed) (cell_rect Scene.grid 2 1) /\
  (exists q,
     Stds_OnGridHover Scene.Stds_IsMouseOverRect (Some Scene.grid) Scene.pair0
       Scene.world_pressed
     = Ok (q, Some (rewound Scene.grid)) Scene.world_pressed /\
     p_c q = 2 /\ p_r q = 1) /\
  (exists q,
     Stds_OnGridClicked Scene.Stds_IsMouseOverRect (Some Scene.grid) 1 Scene.pair0
       Scene.world_pressed
     = Ok (q, Some (rewound Scene.grid)) (cleared 1 Scene.world_pressed) /\
     p_c q = 2 /\ p_r q = 1).
Proof.
  assert (Hin : inside (mouse Scene.world_pressed) (cell_rect Scene.grid 2 1)).
  { vm_compute. intuition congruence. }
  split; [exact Hin|].
  destruct (resolvers_first_match Scene.Stds_IsMouseOverRect Scene.grid
              Scene.world_pressed Scene.pair0 1) as (_ & Hinside & _).
  destruct (Hinside 2 1) as [Hh Hc].
  - vm_compute. intuition congruence.
  - vm_compute. intuition congruence.
  - exact scene_pointer_test_sound.
  - exact scene_fits_int.
  - exact Hin.
  - split; [exact Hh|]. apply Hc. exact scene_pressed.
Defined.

(** C1, as it is stated, fails for the click: with the button released, the
    pointer strictly inside the cell (2, 1) does not give (2, 1). *)
Lemma click_released_counterexample :
  inside (mouse Scene.world_released) (cell_rect Scene.grid 2 1) /\
  ~ (exists q grid' w',
       Stds_OnGridClicked Scene.Stds_IsMouseOverRect (Some Scene.grid) 1
         Scene.pair0 Scene.world_released = Ok (q, grid') w' /\
       p_c q = 2 /\ p_r q = 1).
Proof.
  split.
  - vm_compute. intuition congruence.
  - intros (q & grid' & w' & Hrun & Hc & Hr).
    vm_compute in Hrun. injection Hrun as Hq _ _. subst q.
    simpl in Hc. discriminate.
Qed.

(** A press of the button 1 sets its flag. *)
Example scene_press :
  Stds_MousePressed 1 Scene.world_released = Ok tt Scene.world_pressed.
Proof. reflexivity. Qed.

(** The press of the scene gives the click on the cell (2, 1); the flag is
    then clear and the next call, on any grid, answers the sentinel. *)
Lemma click_consumes_press_witness :
  exists q w',
    Stds_OnGridClicked Scene.Stds_IsMouseOverRect (Some Scene.grid) 1 Scene.pair0
      Scene.world_pressed = Ok (q, Some (rewound Scene.grid)) w' /\
    ~ sentinel q /\
    button (mouse w') !! Z.to_nat 1 = Some 0 /\
    (forall grid2 p2, exists q2 grid2',
       Stds_OnGridClicked Scene.Stds_IsMouseOverRect grid2 1 p2 w'
         = Ok (q2, grid2') w' /\
       sentinel q2).
Proof.
  exists {| p_c := 2; p_r := 1; p_x := F32.of_int 64; p_y := F32.of_int 32 |},
         (cleared 1 Scene.world_pressed).
  assert (Hrun : Stds_OnGridClicked Scene.Stds_IsMouseOverRect (Some Scene.grid) 1
                   Scene.pair0 Scene.world_pressed
                 = Ok ({| p_c := 2; p_r := 1;
                          p_x := F32.of_int 64; p_y := F32.of_int 32 |},
                       Some (rewound Scene.grid))
                      (cleared 1 Scene.world_pressed)).
  { vm_compute. reflexivity. }
  assert (Hhit : ~ sentinel
    {| p_c := 2; p_r := 1; p_x := F32.of_int 64; p_y := F32.of_int 32 |}).
  { intros [Hc _]. simpl in Hc. discriminate. }
  split; [exact Hrun|]. split; [exact Hhit|].
  destruct (click_consumes_press Scene.Stds_IsMouseOverRect Scene.grid 1
              Scene.pair0 Scene.world_pressed _ _ _ Hrun Hhit)
    as (Hzero & _ & _ & Hnext).
  split; [exact Hzero|exact Hnext].
Defined.


(** The first initialisation of the scene closes the latch; the next ones,
    on this grid and on another, do nothing, also after a line pass and a
    click. *)
Lemma InitializeGridTextures_once_witness :
  onceCall Scene.world_pressed = false /\
  exists g1 w1,
    Stds_InitializeGridTextures (Some Scene.grid) 3 Scene.world_pressed
      = Ok (Some g1) w1 /\
    textureBuffer g1 = 3 /\
    initialize_all [(Some g1, 5); (Some Scene.grid_sheet, 2); (None, 1)] w1
      = Ok [Some g1; Some Scene.grid_sheet; None] w1 /\
    (forall w2,
       run_calls Scene.Stds_LoadTexture Scene.SDL_QueryTexture
         Scene.Stds_IsMouseOverRect Scene.Stds_VectorGet
         Scene.Stds_AnimationUpdate
         [Call_DrawLineGrid (Some g1);
          Call_OnGridClicked (Some Scene.grid_sheet) 1 Scene.pair0] w1
         = Ok tt w2 ->
       Stds_InitializeGridTextures (Some Scene.grid_sheet) 2 w2
         = Ok (Some Scene.grid_sheet) w2).
Proof.
  split; [reflexivity|].
  destruct (InitializeGridTextures_once Scene.Stds_LoadTexture
              Scene.SDL_QueryTexture Scene.Stds_IsMouseOverRect
              Scene.Stds_VectorGet Scene.Stds_AnimationUpdate
              Scene.grid 3 Scene.world_pressed eq_refl)
    as (g1 & w1 & Hrun & _ & Hn & _ & _ & Hall & Hafter).
  exists g1, w1. split; [exact Hrun|]. split; [exact Hn|]. split.
  - apply (Hall [(Some g1, 5); (Some Scene.grid_sheet, 2); (None, 1)]).
  - intros w2 Hcalls. apply (Hafter _ w2 Hcalls).
Defined.

Lemma scene_sheet_attached : sheet_attached Scene.grid_sheet.
Proof. exists 128, 64. vm_compute. intuition congruence. Qed.

(** On the sheet of 4 by 2 tiles of 32 by 32 pixels, the tile (3, 1) is at
    (96, 32); there is no tile (4, 0) and the clip stays where it is. *)
Lemma SelectSpriteForGrid_clip_origin_witness :
  Stds_SelectSpriteForGrid (Some Scene.grid_sheet) 3 1 Scene.world_pressed
  = Ok (Some (set_clip Scene.grid_sheet
                {| rect_x := 96; rect_y := 32; rect_w := 32; rect_h := 32 |}))
       Scene.world_pressed /\
  Stds_SelectSpriteForGrid (Some Scene.grid_sheet) 4 0 Scene.world_pressed
  = Ok (Some Scene.grid_sheet) Scene.world_pressed.
Proof.
  split.
  - apply (proj1 (SelectSpriteForGrid_clip_origin Scene.grid_sheet 3 1
                    Scene.world_pressed)).
    + exact scene_sheet_attached.
    + simpl. lia.
    + simpl. lia.
  - apply (proj2 (SelectSpriteForGrid_clip_origin Scene.grid_sheet 4 0
                    Scene.world_pressed)).
    left. simpl. lia.
Defined.

Lemma scene_pixel_exact : pixel_exact Scene.grid 0 0.
Proof. repeat split; vm_compute; congruence. Qed.

(** The line pass of the scene: 4 horizontal lines of 128 pixels and 5
    vertical lines of 96 pixels. *)
Lemma DrawLineGrid_lines_witness :
  pixel_exact Scene.grid 0 0 /\
  exists cs,
    Stds_DrawLineGrid (Some Scene.grid) Scene.world_pressed
      = Ok (Some (rewound Scene.grid)) (after_calls Scene.world_pressed cs) /\
    Permutation cs
      (map (hline Scene.grid 0 0) [0; 1; 2; 3] ++
       map (vline Scene.grid 0 0) [0; 1; 2; 3; 4]).
Proof.
  split; [exact scene_pixel_exact|].
  destruct (DrawLineGrid_lines Scene.grid 0 0 Scene.world_pressed
              scene_pixel_exact) as (cs & Hrun & _ & Hperm & _).
  exists cs. split; [exact Hrun|exact Hperm].
Defined.

(** The vector of the scene holds one animation: the index 5 is beyond it,
    the vector answers [NULL], and the call faults instead of doing
    nothing; the index 0 draws the animation and then advances it. *)
Lemma RenderAnimationToGrid_index_unchecked_witness :
  Stds_RenderAnimationToGrid Scene.Stds_VectorGet Scene.Stds_AnimationUpdate
    (Some Scene.grid_animation) 2 1 5 SDL_FLIP_NONE 0 Scene.world_pressed
  = Fault /\
  Stds_PutGridTexture (Some Scene.grid_animation) 2 1 5 SDL_FLIP_NONE 0
    Scene.world_pressed
  = Ok (Some Scene.grid_animation) Scene.world_pressed.
Proof.
  destruct (RenderAnimationToGrid_index_unchecked Scene.Stds_VectorGet
              Scene.Stds_AnimationUpdate Scene.grid_animation [100] 2 1 5
              SDL_FLIP_NONE 0 Scene.world_pressed)
    as (Hfault & _ & _ & Hput).
  - reflexivity.
  - simpl. lia.
  - simpl. lia.
  - split.
    + apply Hfault. reflexivity.
    + apply Hput. right. simpl. lia.
Defined.

(** C5, on the scene: a second call of [Stds_AddSpriteSheetToGrid] on a
    grid that has its sheet is not a no-op.  The flag [once_call] is a
    local that is [false] at every call: the texture is loaded again, and
    the handle, the tile size and the tile counts are assigned again. *)
Theorem AddSpriteSheetToGrid_twice :
  exists g1 g2,
    Stds_AddSpriteSheetToGrid Scene.Stds_LoadTexture Scene.SDL_QueryTexture
      (Some Scene.grid) "a.png" 4 2 Scene.world_pressed
      = Ok (Some g1) Scene.world_pressed /\
    Stds_AddSpriteSheetToGrid Scene.Stds_LoadTexture Scene.SDL_QueryTexture
      (Some g1) "bb.png" 2 1 Scene.world_pressed
      = Ok (Some g2) Scene.world_pressed /\
    (spriteSheet g1, rect_w (clip g1), rect_h (clip g1),
     spriteSheetCols g1, spriteSheetRows g1) = (6, 32, 32, 4, 2) /\
    (spriteSheet g2, rect_w (clip g2), rect_h (clip g2),
     spriteSheetCols g2, spriteSheetRows g2) = (7, 64, 64, 2, 1) /\
    g2 <> g1.
Proof.
  eexists _, _. split; [vm_compute; reflexivity|].
  split; [vm_compute; reflexivity|].
  split; [reflexivity|]. split; [reflexivity|].
  intros H. apply (f_equal spriteSheet) in H. vm_compute in H. discriminate.
Qed.

(** ** The scene, run on *)

Lemma scene_textures_allocated :
  textures_allocated Scene.grid_textures [None; None; None].
Proof. repeat split. vm_compute. discriminate. Qed.

Lemma scene_textures_consistent : textures_consistent Scene.grid_textures.
Proof. split; [vm_compute; intuition discriminate|reflexivity]. Qed.

(** The teardown of the grid with three slots: three textures released,
    none of which was loaded, and the vector. *)
Lemma FreeGrid_releases_witness :
  Stds_FreeGrid (Some Scene.grid_textures) Scene.world_released
    = Ok tt (after_calls Scene.world_released
               [SDL_DestroyTexture None; SDL_DestroyTexture None;
                SDL_DestroyTexture None; Stds_VectorDestroy (Some [])]).
Proof.
  exact (proj1 (FreeGrid_releases Scene.grid_textures Scene.world_released
                  scene_textures_consistent)).
Defined.

(** Three textures loaded, one released. *)
Lemma FreeGrid_releases_last_texture_witness :
  exists g1 cs,
    add_textures Scene.Stds_LoadTexture ["a.png"; "bb.png"; "ccc.png"]
      (Some Scene.grid_textures) Scene.world_released
      = Ok ([0; 0; 0], Some g1) Scene.world_released /\
    Stds_FreeGrid (Some g1) Scene.world_released
      = Ok tt (after_calls Scene.world_released cs) /\
    cs = [SDL_DestroyTexture (Some (Scene.Stds_LoadTexture "ccc.png"));
          SDL_DestroyTexture None; SDL_DestroyTexture None;
          Stds_VectorDestroy (Some [])] /\
    SDL_DestroyTexture (Some (Scene.Stds_LoadTexture "a.png")) ∉ cs.
Proof.
  destruct (FreeGrid_releases_last_texture Scene.Stds_LoadTexture
              Scene.grid_textures [None; None; None] ["a.png"; "bb.png"]
              "ccc.png" Scene.world_released scene_textures_allocated
              ltac:(simpl; lia))
    as (g1 & cs & Hadd & Hfree & Hcs & Hleak).
  exists g1, cs. split; [exact Hadd|]. split; [exact Hfree|].
  split; [exact Hcs|]. apply (Hleak "a.png").
  - apply list_elem_of_here.
  - vm_compute. discriminate.
  - intros Hin. apply list_elem_of_In in Hin. simpl in Hin.
    intuition discriminate.
  - vm_compute. discriminate.
Defined.

Lemma malloc_refusing_sound : allocator_sound Scene.malloc_refusing.
Proof. intros n l H. discriminate H. Qed.

(** A program on the grid of the scene, with a [malloc] that refuses the
    three slots asked for: the calls return, the array is [NULL] under
    the capacity 3, and the grid is still that of its creation. *)
Lemma created_grid_stays_ok_witness :
  exists g' w',
    run_on_with Scene.Stds_LoadTexture Scene.SDL_QueryTexture
      Scene.Stds_IsMouseOverRect Scene.Stds_VectorGet
      Scene.Stds_AnimationUpdate Scene.malloc_refusing
      [Call_InitializeGridTextures None 3;
       Call_AddSpriteSheetToGrid None "bb.png" 4 2;
       Call_SelectSpriteForGrid None 3 1;
       Call_AddAnimationToGrid None 100;
       Call_OnGridClicked None 1 Scene.pair0;
       Call_FillWholeGrid None]
      (Some Scene.grid) Scene.world_pressed = Ok (Some g') w' /\
    (textures g' = None /\ textureBuffer g' = 3) /\
    x g' = sx g' /\ y g' = sy g' /\
    INT_MIN <= textureBuffer g' <= INT_MAX /\
    (forall l, textures g' = Some l -> Z.of_nat (length l) = textureBuffer g') /\
    (exists v, animation g' = Some v /\
               animationBuffer g' = to_i32 (Z.of_nat (length v) - 1)) /\
    same_geometry Scene.grid g'.
Proof.
  eexists _, _. split; [vm_compute; reflexivity|].
  split; [split; reflexivity|].
  eapply (created_grid_stays_ok Scene.Stds_LoadTexture Scene.SDL_QueryTexture
           Scene.Stds_IsMouseOverRect Scene.Stds_VectorGet
           Scene.Stds_AnimationUpdate Scene.malloc_refusing
           (F32.of_int 0) (F32.of_int 0) 32 32 4 3 Scene.white Scene.black
           [Call_InitializeGridTextures None 3;
            Call_AddSpriteSheetToGrid None "bb.png" 4 2;
            Call_SelectSpriteForGrid None 3 1;
            Call_AddAnimationToGrid None 100;
            Call_OnGridClicked None 1 Scene.pair0;
            Call_FillWholeGrid None]
           Scene.world_pressed _ (Some _) malloc_refusing_sound).
  - repeat constructor; vm_compute; discriminate.
  - vm_compute. reflexivity.
Defined.

(** A program of guarded calls on the grid of the scene returns, and so
    does the teardown after it; with a [malloc] that refuses the slots,
    the first texture is written through [NULL]. *)
Lemma created_grid_never_faults_witness :
  (exists g' w',
     run_on_with Scene.Stds_LoadTexture Scene.SDL_QueryTexture
       Scene.Stds_IsMouseOverRect Scene.Stds_VectorGet
       Scene.Stds_AnimationUpdate malloc_textures
       [Call_InitializeGridTextures None 3;
        Call_AddGridTexture None "a.png";
        Call_PutGridTexture None 2 1 2 SDL_FLIP_NONE 0;
        Call_AddSpriteSheetToGrid None "bb.png" 4 2;
        Call_DrawSelectedSpriteOnGrid None 0 0 SDL_FLIP_NONE 0;
        Call_AddAnimationToGrid None 100;
        Call_DrawLineGrid None]
       (Some Scene.grid) Scene.world_pressed = Ok (Some g') w' /\
     Stds_FreeGrid (Some g') w' = Ok tt (after_calls w' (free_calls g'))) /\
  run_on_with Scene.Stds_LoadTexture Scene.SDL_QueryTexture
    Scene.Stds_IsMouseOverRect Scene.Stds_VectorGet
    Scene.Stds_AnimationUpdate Scene.malloc_refusing
    [Call_InitializeGridTextures None 3; Call_AddGridTexture None "a.png"]
    (Some Scene.grid) Scene.world_pressed = Fault.
Proof.
  destruct (created_grid_never_faults Scene.Stds_LoadTexture
           Scene.SDL_QueryTexture Scene.Stds_IsMouseOverRect
           Scene.Stds_VectorGet Scene.Stds_AnimationUpdate malloc_textures
           (F32.of_int 0) (F32.of_int 0) 32 32 4 3 Scene.white Scene.black
           [Call_InitializeGridTextures None 3;
            Call_AddGridTexture None "a.png";
            Call_PutGridTexture None 2 1 2 SDL_FLIP_NONE 0;
            Call_AddSpriteSheetToGrid None "bb.png" 4 2;
            Call_DrawSelectedSpriteOnGrid None 0 0 SDL_FLIP_NONE 0;
            Call_AddAnimationToGrid None 100;
            Call_DrawLineGrid None]
           Scene.world_pressed malloc_textures_sound malloc_textures_serves)
    as (Hrun & Hfault).
  - repeat constructor; vm_compute; discriminate.
  - split; [exact Hrun|].
    destruct (Hfault Scene.malloc_refusing 3 "a.png" eq_refl) as (_ & _ & H).
    + vm_compute. split; [reflexivity|discriminate].
    + reflexivity.
    + exact H.
Defined.

(** The fill pass of the scene: 12 rectangles, the sixth of which is the
    cell (1, 1) at (32, 32). *)
Lemma FillWholeGrid_cells_witness :
  Stds_FillWholeGrid (Some Scene.grid) Scene.world_pressed
    = Ok (Some (rewound Scene.grid))
         (after_calls Scene.world_pressed (cell_fills Scene.grid 0 0)) /\
  length (cell_fills Scene.grid 0 0) = 12%nat /\
  cell_fills Scene.grid 0 0 !! 5%nat = Some (cell_fill Scene.grid 0 0 1 1).
Proof.
  destruct (FillWholeGrid_cells Scene.grid 0 0 Scene.world_pressed
              scene_pixel_exact) as (Hrun & _ & Hcell).
  split; [exact Hrun|]. split; [reflexivity|].
  apply (Hcell 1 1); simpl; lia.
Defined.

(** The click of the scene names the cell (2, 1) under the pointer. *)
Lemma click_answer_sound_witness :
  exists q w',
    Stds_OnGridClicked Scene.Stds_IsMouseOverRect (Some Scene.grid) 1
      Scene.pair0 Scene.world_pressed = Ok (q, Some (rewound Scene.grid)) w' /\
    ((sentinel q /\ w' = Scene.world_pressed) \/
     (names_cell Scene.Stds_IsMouseOverRect Scene.grid
        (mouse Scene.world_pressed) q /\
      pressed Scene.world_pressed 1 /\
      w' = cleared 1 Scene.world_pressed)).
Proof.
  eexists _, _. split; [vm_compute; reflexivity|].
  apply (click_answer_sound Scene.Stds_IsMouseOverRect Scene.grid 1
           Scene.pair0 Scene.world_pressed _ _ (Some (rewound Scene.grid))).
  vm_compute. reflexivity.
Defined.

(** With the button 1 pressed, the click of the scene answers what the
    hover answers. *)
Lemma click_follows_hover_witness :
  exists q w',
    Stds_OnGridHover Scene.Stds_IsMouseOverRect (Some Scene.grid) Scene.pair0
      Scene.world_pressed
      = Ok (q, Some (rewound Scene.grid)) Scene.world_pressed /\
    Stds_OnGridClicked Scene.Stds_IsMouseOverRect (Some Scene.grid) 1
      Scene.pair0 Scene.world_pressed = Ok (q, Some (rewound Scene.grid)) w' /\
    Stds_OnGridHover Scene.Stds_IsMouseOverRect (Some (rewound Scene.grid))
      Scene.pair0 w' = Ok (q, Some (rewound Scene.grid)) w'.
Proof.
  destruct (click_follows_hover Scene.Stds_IsMouseOverRect Scene.grid 1
              Scene.pair0 Scene.world_pressed scene_pressed)
    as (q & w' & Hh & Hc & _ & Hagain).
  exists q, w'. split; [exact Hh|]. split; [exact Hc|exact Hagain].
Defined.

Lemma scene_over_some :
  over_some Scene.Stds_IsMouseOverRect Scene.grid (mouse Scene.world_pressed).
Proof. exists 2, 1. vm_compute. intuition congruence. Qed.

(** The scene has three buttons: a click for the button 7 with the
    pointer on a cell reads beyond them. *)
Lemma click_button_unchecked_witness :
  unknown_button Scene.world_pressed 7 /\
  Stds_OnGridClicked Scene.Stds_IsMouseOverRect (Some Scene.grid) 7
    Scene.pair0 Scene.world_pressed = Fault.
Proof.
  assert (Hu : unknown_button Scene.world_pressed 7).
  { right. simpl. lia. }
  split; [exact Hu|].
  apply (proj1 (click_button_unchecked Scene.Stds_IsMouseOverRect Scene.grid 7
                  Scene.pair0 Scene.world_pressed Hu)).
  exact scene_over_some.
Defined.

(** The tile (3, 1) of the sheet of 128 by 64 pixels in 4 by 2 tiles,
    drawn on the cell (2, 1). *)
Lemma sheet_tile_drawn_witness :
  exists g1 g2,
    Stds_AddSpriteSheetToGrid Scene.Stds_LoadTexture Scene.SDL_QueryTexture
      (Some Scene.grid) "a.png" 4 2 Scene.world_pressed
      = Ok (Some g1) Scene.world_pressed /\
    Stds_SelectSpriteForGrid (Some g1) 3 1 Scene.world_pressed
      = Ok (Some g2) Scene.world_pressed /\
    Stds_DrawSelectedSpriteOnGrid (Some g2) 2 1 SDL_FLIP_NONE 0
      Scene.world_pressed
      = Ok (Some g2)
           (after_calls Scene.world_pressed
              [Stds_BlitTexture (Some 6)
                 (Some {| rect_x := 96; rect_y := 32;
                          rect_w := 32; rect_h := 32 |})
                 (F32.of_int 64) (F32.of_int 32)
                 (F32.of_int 32) (F32.of_int 32)
                 0 SDL_FLIP_NONE None false]).
Proof.
  destruct (sheet_tile_drawn Scene.Stds_LoadTexture Scene.SDL_QueryTexture
              Scene.grid "a.png" 128 64 4 2 3 1 2 1 SDL_FLIP_NONE 0
              Scene.world_pressed eq_refl)
    as (g1 & g2 & Hadd & Hsel & Hdraw & _).
  - unfold INT_MAX. lia.
  - unfold INT_MAX. lia.
  - unfold UINT_MAX. lia.
  - unfold UINT_MAX. lia.
  - lia.
  - lia.
  - simpl. lia.
  - simpl. lia.
  - exists g1, g2. split; [exact Hadd|]. split; [exact Hsel|exact Hdraw].
Defined.

(** After two textures are added to the three slots, the index 0 draws
    the second one and the index 1 draws a slot that holds no texture, on a
    column that the grid does not have. *)
Lemma PutGridTexture_after_adds_witness :
  exists g1,
    add_textures Scene.Stds_LoadTexture ["a.png"; "bb.png"]
      (Some Scene.grid_textures) Scene.world_released
      = Ok ([0; 0], Some g1) Scene.world_released /\
    Stds_PutGridTexture (Some g1) 9 1 1 SDL_FLIP_NONE 0 Scene.world_released
      = Ok (Some g1)
           (after_calls Scene.world_released
              [blit_on Scene.grid_textures None None
                 (cursor_frect Scene.grid_textures 9 1) SDL_FLIP_NONE 0]).
Proof.
  destruct (PutGridTexture_after_adds Scene.Stds_LoadTexture
              Scene.grid_textures [None; None; None] ["a.png"] "bb.png"
              9 1 1 SDL_FLIP_NONE 0 Scene.world_released
              scene_textures_allocated ltac:(simpl; lia))
    as (g1 & t & Hadd & Hput & _ & _ & Hnone).
  exists g1. split; [exact Hadd|].
  rewrite <- (Hnone eq_refl ltac:(lia)). exact Hput.
Defined.

Lemma scene_dressed_pixel_exact : pixel_exact Scene.grid_dressed 0 0.
Proof. repeat split; vm_compute; congruence. Qed.

(** The cell (2, 1) of the scene is the square at (64, 32): the seventh
    rectangle of the fill pass, where the texture of the slot 1, the
    selected tile and the animation are drawn. *)
Lemma draws_land_on_cell_witness :
  (exists w1,
     Stds_FillWholeGrid (Some Scene.grid_dressed) Scene.world_pressed
       = Ok (Some (rewound Scene.grid_dressed)) w1 /\
     trace w1 !! 6%nat
       = Some (Stds_DrawRectF
                 {| frect_x := F32.of_int 64; frect_y := F32.of_int 32;
                    frect_w := F32.of_int 32; frect_h := F32.of_int 32 |}
                 Scene.black true 0)) /\
  (exists w1,
     Stds_PutGridTexture (Some Scene.grid_dressed) 2 1 1 SDL_FLIP_NONE 0
       Scene.world_pressed = Ok (Some Scene.grid_dressed) w1 /\
     trace w1 =
       [Stds_BlitTexture None None (F32.of_int 64) (F32.of_int 32)
          (F32.of_int 32) (F32.of_int 32) 0 SDL_FLIP_NONE None false]) /\
  (exists w1,
     Stds_DrawSelectedSpriteOnGrid (Some Scene.grid_dressed) 2 1
       SDL_FLIP_NONE 0 Scene.world_pressed
       = Ok (Some Scene.grid_dressed) w1 /\
     trace w1 =
       [Stds_BlitTexture (Some NULL)
          (Some {| rect_x := 0; rect_y := 0; rect_w := 0; rect_h := 0 |})
          (F32.of_int 64) (F32.of_int 32)
          (F32.of_int 32) (F32.of_int 32) 0 SDL_FLIP_NONE None false]) /\
  (exists a1 w1,
     Stds_RenderAnimationToGrid Scene.Stds_VectorGet Scene.Stds_AnimationUpdate
       (Some Scene.grid_dressed) 2 1 0 SDL_FLIP_NONE 0 Scene.world_pressed
       = Ok (Some Scene.grid_dressed) w1 /\
     trace w1 = [Stds_AnimationDraw a1] /\
     pos_x a1 = F32.of_int 64 /\ pos_y a1 = F32.of_int 32 /\
     dest_width a1 = 32 /\ dest_height a1 = 32).
Proof.
  destruct (draws_land_on_cell Scene.Stds_VectorGet Scene.Stds_AnimationUpdate
              Scene.grid_dressed 0 0 2 1 SDL_FLIP_NONE 0
              Scene.world_pressed scene_dressed_pixel_exact
              eq_refl eq_refl ltac:(simpl; lia) ltac:(simpl; lia))
    as (Hfill & Hput & Hsel & Hren).
  split; [exact Hfill|]. split; [|split; [exact Hsel|]].
  - exact (Hput [None; None; None] 1 None eq_refl ltac:(simpl; lia) eq_refl).
  - exact (Hren [100] 0 Scene.animation0 eq_refl eq_refl).
Defined.

(** Three animations added to the grid of the scene get the indices 0, 1
    and 2. *)
Lemma add_animations_indices_witness :
  exists g1,
    add_animations [100; 200; 300] (Some Scene.grid) Scene.world_pressed
      = Ok ([0; 1; 2], Some g1) Scene.world_pressed /\
    animation g1 = Some [100; 200; 300] /\
    animationBuffer g1 = 2.
Proof.
  destruct (add_animations_indices Scene.grid [] [100; 200; 300]
              Scene.world_pressed)
    as (g1 & Hadd & Hv & Hb & _).
  - repeat constructor; discriminate.
  - reflexivity.
  - reflexivity.
  - vm_compute. discriminate.
  - exists g1. split; [exact Hadd|]. split; [exact Hv|exact Hb].
Defined.

Lemma scene_vector_get_sound : vector_get_sound Scene.Stds_VectorGet.
Proof.
  intros v i a Hi. unfold Scene.Stds_VectorGet.
  destruct (Z.leb_spec 0 (Z.of_nat i)); [|lia].
  rewrite Nat2Z.id. by apply nth_lookup_Some.
Qed.

(** The animation at the address 100, added to the grid of the scene and
    rendered on the cell (2, 1) with the index that the grid answered. *)
Lemma added_animation_rendered_witness :
  exists g1 w1,
    Stds_AddAnimationToGrid (Some Scene.grid) 100 Scene.world_pressed
      = Ok (0, Some g1) Scene.world_pressed /\
    Stds_RenderAnimationToGrid Scene.Stds_VectorGet Scene.Stds_AnimationUpdate
      (Some g1) 2 1 0 SDL_FLIP_NONE 0 Scene.world_pressed = Ok (Some g1) w1 /\
    trace w1
      = [Stds_AnimationDraw
           (placed Scene.grid 2 1 SDL_FLIP_NONE 0 Scene.animation0)].
Proof.
  destruct (added_animation_rendered Scene.Stds_VectorGet
              Scene.Stds_AnimationUpdate Scene.grid [] 100 Scene.animation0
              2 1 SDL_FLIP_NONE 0 Scene.world_pressed scene_vector_get_sound
              eq_refl eq_refl)
    as (index & g1 & w1 & Hadd & -> & Hrender & Htrace & _).
  - vm_compute. discriminate.
  - discriminate.
  - reflexivity.
  - simpl. lia.
  - simpl. lia.
  - exists g1, w1. split; [exact Hadd|]. split; [exact Hrender|exact Htrace].
Defined.

(** A poll of the scene: the button 1 goes down and up, the button 2 goes
    down. *)
Lemma buttons_follow_last_event_witness :
  exists s1,
    Stds_ProcessInput Scene.MAX_KEYBOARD_KEYS Scene.Stds_ReadTextField
      [(SDL_MOUSEBUTTONDOWN 1, (70, 40)); (SDL_MOUSEMOTION, (71, 40));
       (SDL_MOUSEBUTTONUP 1, (71, 41)); (SDL_MOUSEBUTTONDOWN 2, (71, 41))]
      Scene.g_app = Resumes s1 /\
    button (mouse (app_world s1)) !! Z.to_nat 1 = Some 0 /\
    button (mouse (app_world s1)) !! Z.to_nat 2 = Some 1.
Proof.
  destruct (Stds_ProcessInput Scene.MAX_KEYBOARD_KEYS Scene.Stds_ReadTextField
              [(SDL_MOUSEBUTTONDOWN 1, (70, 40)); (SDL_MOUSEMOTION, (71, 40));
               (SDL_MOUSEBUTTONUP 1, (71, 41)); (SDL_MOUSEBUTTONDOWN 2, (71, 41))]
              Scene.g_app) as [s1| |] eqn:E;
    [|vm_compute in E; discriminate|vm_compute in E; discriminate].
  exists s1. split; [reflexivity|].
  split.
  - rewrite (proj1 (buttons_follow_last_event _ _ _ _ _ 1 E ltac:(lia))).
    reflexivity.
  - rewrite (proj1 (buttons_follow_last_event _ _ _ _ _ 2 E ltac:(lia))).
    reflexivity.
Defined.

(** A poll of the scene: the key 4 goes down and up, the key 5 repeats,
    the key 70 is beyond the keyboard, the key 6 goes down. *)
Lemma keys_follow_last_event_witness :
  exists s1,
    Stds_ProcessInput Scene.MAX_KEYBOARD_KEYS Scene.Stds_ReadTextField
      [(SDL_KEYDOWN 0 4, (70, 40)); (SDL_KEYDOWN 1 5, (70, 40));
       (SDL_KEYDOWN 0 70, (70, 40)); (SDL_KEYUP 0 4, (70, 40));
       (SDL_KEYDOWN 0 6, (70, 40))]
      Scene.g_app = Resumes s1 /\
    keyboard s1 !! Z.to_nat 4 = Some 0 /\
    keyboard s1 !! Z.to_nat 5 = Some 0 /\
    keyboard s1 !! Z.to_nat 6 = Some 1.
Proof.
  destruct (Stds_ProcessInput Scene.MAX_KEYBOARD_KEYS Scene.Stds_ReadTextField
              [(SDL_KEYDOWN 0 4, (70, 40)); (SDL_KEYDOWN 1 5, (70, 40));
               (SDL_KEYDOWN 0 70, (70, 40)); (SDL_KEYUP 0 4, (70, 40));
               (SDL_KEYDOWN 0 6, (70, 40))]
              Scene.g_app) as [s1| |] eqn:E;
    [|vm_compute in E; discriminate|vm_compute in E; discriminate].
  exists s1. split; [reflexivity|].
  split; [|split].
  - rewrite (proj1 (keys_follow_last_event _ _ _ _ _ 4 E ltac:(lia))).
    reflexivity.
  - rewrite (proj1 (keys_follow_last_event _ _ _ _ _ 5 E ltac:(lia))).
    reflexivity.
  - rewrite (proj1 (keys_follow_last_event _ _ _ _ _ 6 E ltac:(lia))).
    reflexivity.
Defined.

(** A motion followed by a turn of the wheel: the pointer is where the
    last event found it, and the motion flag is down. *)
Lemma pointer_follows_last_event_witness :
  exists s1,
    Stds_ProcessInput Scene.MAX_KEYBOARD_KEYS Scene.Stds_ReadTextField
      ([(SDL_MOUSEMOTION, (10, 20))] ++ [(SDL_MOUSEWHEEL 1, (11, 22))])
      Scene.g_app = Resumes s1 /\
    mouse_x (mouse (app_world s1)) = 11 /\
    mouse_y (mouse (app_world s1)) = 22 /\
    mouse_is_moving s1 = false.
Proof.
  destruct (Stds_ProcessInput Scene.MAX_KEYBOARD_KEYS Scene.Stds_ReadTextField
              ([(SDL_MOUSEMOTION, (10, 20))] ++ [(SDL_MOUSEWHEEL 1, (11, 22))])
              Scene.g_app) as [s1| |] eqn:E;
    [|vm_compute in E; discriminate|vm_compute in E; discriminate].
  exists s1. split; [reflexivity|].
  destruct (pointer_follows_last_event _ _ _ _ _ _ _ E) as (Hx & Hy & Hm & _).
  split; [exact Hx|]. split; [exact Hy|exact Hm].
Defined.

(** The press of the button 1 with the pointer on (70, 40), then its
    release: the first click answers a cell under the pointer, the second
    the sentinel. *)
Lemma press_gives_one_click_witness :
  exists s1 q w2,
    Stds_ProcessInput Scene.MAX_KEYBOARD_KEYS Scene.Stds_ReadTextField
      ([] ++ [(SDL_MOUSEBUTTONDOWN 1, (70, 40))]) Scene.g_app = Resumes s1 /\
    Stds_OnGridClicked Scene.Stds_IsMouseOverRect (Some Scene.grid) 1
      Scene.pair0 (app_world s1) = Ok (q, Some (rewound Scene.grid)) w2 /\
    names_cell Scene.Stds_IsMouseOverRect Scene.grid (mouse (app_world s1)) q /\
    forall s3,
      Stds_ProcessInput Scene.MAX_KEYBOARD_KEYS Scene.Stds_ReadTextField
        [(SDL_MOUSEBUTTONUP 1, (70, 40))] (set_app_world s1 w2) = Resumes s3 ->
      exists q2,
        Stds_OnGridClicked Scene.Stds_IsMouseOverRect
          (Some (rewound Scene.grid)) 1 Scene.pair0 (app_world s3)
          = Ok (q2, Some (rewound Scene.grid)) (app_world s3) /\
        sentinel q2.
Proof.
  destruct (Stds_ProcessInput Scene.MAX_KEYBOARD_KEYS Scene.Stds_ReadTextField
              ([] ++ [(SDL_MOUSEBUTTONDOWN 1, (70, 40))]) Scene.g_app)
    as [s1| |] eqn:E;
    [|vm_compute in E; discriminate|vm_compute in E; discriminate].
  assert (Hs1 : app_world s1 = Scene.world_pressed).
  { vm_compute in E. by injection E as <-. }
  destruct (press_gives_one_click Scene.Stds_IsMouseOverRect
              Scene.MAX_KEYBOARD_KEYS Scene.Stds_ReadTextField Scene.grid
              [] [(SDL_MOUSEBUTTONUP 1, (70, 40))] 1 (70, 40) Scene.g_app s1
              Scene.pair0 Scene.pair0 ltac:(lia) E)
    as (q & w2 & _ & _ & _ & Hclick & Hcell & Hnext).
  - rewrite Hs1. exact scene_over_some.
  - repeat constructor. discriminate.
  - exists s1, q, w2. split; [reflexivity|]. split; [exact Hclick|].
    split; [exact Hcell|exact Hnext].
Defined.

(** The backspace key goes down on the engine of the scene: its flag is
    set, and the event reaches the text fields, the last of which is
    toggled. *)
Lemma KeyPressed_forwards_on_backspace_witness :
  exists s1,
    Stds_KeyPressed Scene.MAX_KEYBOARD_KEYS Scene.Stds_ReadTextField 0
      SDL_SCANCODE_BACKSPACE Scene.g_app = Some s1 /\
    keyboard s1 !! Z.to_nat SDL_SCANCODE_BACKSPACE = Some 1 /\
    text_input_on s1 = true.
Proof.
  destruct (Stds_KeyPressed Scene.MAX_KEYBOARD_KEYS Scene.Stds_ReadTextField 0
              SDL_SCANCODE_BACKSPACE Scene.g_app) as [s1|] eqn:E;
    [|vm_compute in E; discriminate].
  exists s1. split; [reflexivity|].
  destruct (KeyPressed_forwards_on_backspace _ _ _ _ _ _ E)
    as (flag & Hflag & Hheld & _).
  assert (Hone : keyboard s1 !! Z.to_nat SDL_SCANCODE_BACKSPACE = Some 1).
  { vm_compute in E. by injection E as <-. }
  split; [exact Hone|].
  rewrite Hone in Hflag. injection Hflag as <-.
  destruct (Hheld ltac:(lia)) as (_ & ->). reflexivity.
Defined.

(** A grid created once the latch is closed: the program asks for three
    slots and adds a texture, and the grid has none. *)
Lemma late_grid_never_textured_witness :
  exists g' w',
    run_on Scene.Stds_LoadTexture Scene.SDL_QueryTexture
      Scene.Stds_IsMouseOverRect Scene.Stds_VectorGet
      Scene.Stds_AnimationUpdate
      [Call_InitializeGridTextures None 3;
       Call_AddGridTexture None "a.png";
       Call_PutGridTexture None 2 1 0 SDL_FLIP_NONE 0]
      (Some Scene.grid) Scene.world_latched = Ok (Some g') w' /\
    textures g' = None /\ textureBuffer g' = 0 /\
    Stds_AddGridTexture Scene.Stds_LoadTexture (Some g') "bb.png" w'
      = Ok (-1, Some g') w'.
Proof.
  destruct (run_on Scene.Stds_LoadTexture Scene.SDL_QueryTexture
              Scene.Stds_IsMouseOverRect Scene.Stds_VectorGet
              Scene.Stds_AnimationUpdate
              [Call_InitializeGridTextures None 3;
               Call_AddGridTexture None "a.png";
               Call_PutGridTexture None 2 1 0 SDL_FLIP_NONE 0]
              (Some Scene.grid) Scene.world_latched) as [[g'|] w'|] eqn:E;
    [|vm_compute in E; discriminate|vm_compute in E; discriminate].
  exists g', w'. split; [reflexivity|].
  destruct (late_grid_never_textured Scene.Stds_LoadTexture
              Scene.SDL_QueryTexture Scene.Stds_IsMouseOverRect
              Scene.Stds_VectorGet Scene.Stds_AnimationUpdate
              (F32.of_int 0) (F32.of_int 0) 32 32 4 3 Scene.white Scene.black
              _ Scene.world_latched w' g' eq_refl E)
    as (Ht & Hb & _ & _ & Hadd & _).
  split; [exact Ht|]. split; [exact Hb|apply Hadd].
Defined.

(** Two sheets attached to the grid of the scene: the grid holds the
    second, and the teardown does not release the first. *)
Lemma AddSpriteSheetToGrid_last_wins_witness :
  exists g1 g2,
    Stds_AddSpriteSheetToGrid Scene.Stds_LoadTexture Scene.SDL_QueryTexture
      (Some Scene.grid) "a.png" 4 2 Scene.world_pressed
      = Ok (Some g1) Scene.world_pressed /\
    Stds_AddSpriteSheetToGrid Scene.Stds_LoadTexture Scene.SDL_QueryTexture
      (Some g1) "bb.png" 2 1 Scene.world_pressed
      = Ok (Some g2) Scene.world_pressed /\
    Stds_AddSpriteSheetToGrid Scene.Stds_LoadTexture Scene.SDL_QueryTexture
      (Some Scene.grid) "bb.png" 2 1 Scene.world_pressed
      = Ok (Some g2) Scene.world_pressed /\
    SDL_DestroyTexture (Some (Scene.Stds_LoadTexture "a.png")) ∉ free_calls g2.
Proof.
  destruct (AddSpriteSheetToGrid_last_wins Scene.Stds_LoadTexture
              Scene.SDL_QueryTexture Scene.grid "a.png" "bb.png"
              128 64 128 64 4 2 2 1 Scene.world_pressed eq_refl eq_refl)
    as (g1 & g2 & H1 & H2 & H3 & _ & Hfree).
  - unfold INT_MAX. lia.
  - unfold INT_MAX. lia.
  - unfold INT_MAX. lia.
  - unfold INT_MAX. lia.
  - unfold UINT_MAX. lia.
  - unfold UINT_MAX. lia.
  - unfold UINT_MAX. lia.
  - unfold UINT_MAX. lia.
  - exists g1, g2. split; [exact H1|]. split; [exact H2|]. split; [exact H3|].
    apply Hfree.
    + split; [unfold INT_MIN, INT_MAX; simpl; lia|simpl; lia].
    + vm_compute. discriminate.
    + apply not_elem_of_nil.
Defined.

(** No columns: the call divides by zero.  A loader that fails, on the
    grid that has the tiles of 32 by 32 pixels of its sheet: the handle is
    [NULL] and the tiles are 8 by 16 pixels. *)
Lemma AddSpriteSheetToGrid_unchecked_witness :
  Stds_AddSpriteSheetToGrid Scene.Stds_LoadTexture Scene.SDL_QueryTexture
    (Some Scene.grid) "a.png" 0 2 Scene.world_pressed = Fault /\
  Stds_AddSpriteSheetToGrid (fun _ => NULL) Scene.SDL_QueryTexture
    (Some Scene.grid_sheet) "a.png" 4 2 Scene.world_pressed
  = Ok (Some (set_sheet Scene.grid_sheet NULL
                {| rect_x := 0; rect_y := 0; rect_w := 8; rect_h := 16 |} 4 2))
       Scene.world_pressed.
Proof.
  split.
  - apply (proj1 (AddSpriteSheetToGrid_unchecked Scene.Stds_LoadTexture
                    Scene.SDL_QueryTexture Scene.grid "a.png" 0 2
                    Scene.world_pressed)).
    left. reflexivity.
  - apply (proj2 (AddSpriteSheetToGrid_unchecked (fun _ => NULL)
                    Scene.SDL_QueryTexture Scene.grid_sheet "a.png" 4 2
                    Scene.world_pressed)).
    + reflexivity.
    + unfold INT_MAX. simpl. lia.
    + unfold INT_MAX. simpl. lia.
    + unfold UINT_MAX. lia.
    + unfold UINT_MAX. lia.
Defined.

(** C8, as it is stated, fails on a grid whose cells are given a negative
    width: the product of the width and of the count of columns is taken
    in [uint32_t], the first horizontal line of the grid of four columns
    of width -32 ends on x = 2^32 and not on x = -128, and the lines are
    not those of the statement. *)
Lemma DrawLineGrid_lines_counterexample :
  exists cs,
    Stds_DrawLineGrid (Some Scene.grid_leftward) Scene.world_pressed
      = Ok (Some (rewound Scene.grid_leftward))
           (after_calls Scene.world_pressed cs) /\
    cs !! 0%nat
      = Some (Stds_DrawLine (F32.of_int 0) (F32.of_int 0)
                (F32.of_int (2 ^ 32)) (F32.of_int 0) Scene.white) /\
    ~ Permutation cs
        (map (hline Scene.grid_leftward 0 0)
           (seqZ 0 (rows Scene.grid_leftward + 1)) ++
         map (vline Scene.grid_leftward 0 0)
           (seqZ 0 (cols Scene.grid_leftward + 1))).
Proof.
  exists (line_calls Scene.grid_leftward).
  split; [apply DrawLineGrid_run|].
  split; [vm_compute; reflexivity|].
  intros Hperm.
  assert (Hin : In (Stds_DrawLine (F32.of_int 0) (F32.of_int 0)
                      (F32.of_int (2 ^ 32)) (F32.of_int 0) Scene.white)
                   (map (hline Scene.grid_leftward 0 0)
                      (seqZ 0 (rows Scene.grid_leftward + 1)) ++
                    map (vline Scene.grid_leftward 0 0)
                      (seqZ 0 (cols Scene.grid_leftward + 1)))).
  { eapply Permutation_in; [exact Hperm|]. vm_compute. left. reflexivity. }
  vm_compute in Hin.
  repeat (destruct Hin as [Hin|Hin]; [discriminate Hin|]).
  exact Hin.
Qed.

(** The rectangle that the resolvers test is not the rectangle that the
    passes draw: on the grid that starts on (0.5, 0.5), the pointer on
    (32, 5) is within the cell (0, 0) as it is drawn, from 0.5 to 32.5,
    and on the border of the rectangles tested for the cells (0, 0) and
    (1, 0), which start on 0 and on 32; the hover answers the sentinel. *)
Example hover_tests_truncated_rect :
  F32.ltb (sx Scene.grid_half) (F32.of_int 32) = true /\
  F32.ltb (F32.of_int 32)
    (F32.add (sx Scene.grid_half) (F32.of_int (sw Scene.grid_half))) = true /\
  F32.ltb (sy Scene.grid_half) (F32.of_int 5) = true /\
  F32.ltb (F32.of_int 5)
    (F32.add (sy Scene.grid_half) (F32.of_int (sh Scene.grid_half))) = true /\
  rect_x (cell_rect Scene.grid_half 0 0) = 0 /\
  rect_x (cell_rect Scene.grid_half 1 0) = 32 /\
  exists q,
    Stds_OnGridHover Scene.Stds_IsMouseOverRect (Some Scene.grid_half)
      Scene.pair0 Scene.world_border
      = Ok (q, Some (rewound Scene.grid_half)) Scene.world_border /\
    sentinel q.
Proof.
  repeat (split; [vm_compute; reflexivity|]).
  eexists. split; [vm_compute; reflexivity|].
  split; reflexivity.
Qed.
